(* ===== verification/_CoqProject ===== *)
-Q . S2P
Prelude.v
Text.v
Crypto.v
DateTime.v
Json.v
JsonLoads.v
World.v
Signer.v
Forwarder.v
Collector.v
Scope.v
Checkpoint.v
Orchestrator.v
RegionScoped.v
Scenarios.v
