(* ===== verification/Prelude.v ===== *)
(** * OCI-Sentinel: a verification development of the OCI audit-log forwarder

    The program (src/OCItoLogAnalytics/__init__.py, one Python module run by
    an Azure Functions timer) copies the audit events of an Oracle Cloud
    tenancy into an Azure Log Analytics workspace.  Its parts, and how they
    call each other:

    - [main] (timer entry point) calls [initOCI];
    - [initOCI] (orchestrator) builds the OCI configuration ([get_config]),
      reads the Log Analytics identifiers from [os.environ], reads the clock
      for the end of the window, resolves the checkpoint ([get_start_time]),
      resolves the scope ([get_subscription_regions], [get_compartments]),
      and for each region sets the shared audit client's region and calls
      [get_audit_events];
    - [get_audit_events] (collector) pages through the audit events of each
      compartment in streaming mode and, for each event, reads it back with
      [json.loads(str(event))], serialises it with
      [json.dumps(indent=4, sort_keys=True)] and calls [post_data];
    - [post_data] (forwarder) reads the clock, formats an RFC 1123 date, signs
      the request with [build_signature] and POSTs it; a non-2xx status is
      logged and skipped;
    - [build_signature] (signer) builds the canonical string and computes
      base64(HMAC-SHA256(base64decode(key), utf8(string))).

    Layout of the development (one file per component, in dependency order;
    each file opens with a comment on what it holds):
    - [Prelude] (this file): Python exceptions as the inductive [exn], the
      result type [res], the state-and-exception monad [st] ([ret], [bind],
      [raise], [try_except] for [try:/except:], [for_each] for a [for] loop)
      with its notation [x <- m ;; k] in [py_scope], the monad laws, the
      hint databases [pyw] and [pyw_rw], and the generic lemmas on lists and
      on bit operations ([list_ind3], [lor_mul_add], the tactic [zbits]
      that turns shifts and masks of bytes into arithmetic).
    - [Text]: characters as bytes, UTF-8 encoding of ASCII strings,
      [bytes.decode()], [str(n)] on naturals.
    - [Crypto]: [hashlib.sha256] (Module [Sha256], FIPS 180-4, constants
      computed from their definition), [hmac] (Module [Hmac], RFC 2104) and
      [base64] (Module [Base64], CPython's non-strict [a2b_base64] state
      machine and [b2a_base64]); library code, modelled from the standards.
    - [DateTime]: the [datetime] record, the proleptic Gregorian ordinal
      ([ymd2ord]/[ord2ymd], as in CPython's datetime.py), [+ timedelta(days)]
      with its [OverflowError] ([add_days]), the RFC 1123 [strftime] of
      [post_data] (with [%Y] as glibc prints it under CPython 3.11: no
      leading zeros, [strftime_Y]), the [strptime] of the checkpoint format
      (the regular expression CPython builds for it, case-insensitive),
      [str] and [isoformat] of a datetime; and, as descriptions of the
      other side, the reading of an RFC 7231 IMF-fixdate
      ([parse_imf_fixdate]) and the ISO 8601 text of a Log Analytics
      [datetime] ([checkpoint_text]).
    - [Json]: JSON values and [json.dumps] ([dumps_at], with the options
      [indent] and [ensure_ascii] the program's two calls set, keys sorted).
    - [JsonLoads]: [str(event)] of an SDK model ([oci_str]: [json.dumps]
      with indent 2 and no ASCII escaping) and [json.loads] (CPython's C
      scanner, [loads]: strings and every escape, integers, literals,
      arrays, objects built by dict assignment, [Extra data]).
    - [World]: the world a run acts on ([world]: the trace of observable
      events, the audit client's region, the number of clock reads and of
      POSTs), the external services as a record [services] (environment,
      clock, OCI and Azure APIs, ingestion endpoint: any answer, any error),
      the effects of the code ([environ], [utcnow], [print], [log_info],
      [net], [http_post], [make_client], [set_region], [list_events]), the
      frame property [region_free] (a computation that ignores the audit
      client's region), and
      three program logics with their rules and hint databases:
      [observes obs P m Q o] (total correctness: [m] returns normally and
      the events it appends are seen by the observation [obs] as [o]; with
      [post_body] it is [yields], the bodies POSTed in order), [raises]
      (the same for a run that ends in a given exception), and [triple]
      with [trace_inv] (an invariant of every run, failed runs included).
    - [Signer]: [build_signature] and the canonical string (lines 151-158).
    - [Forwarder]: [post_data] (lines 161-182) and the request it sends.
    - [Collector]: [get_audit_events] (lines 118-147) with the streaming
      pagination generator [paginate_events]; [page_chain] describes the
      finite chains of pages an API serves.
    - [Scope]: [get_subscription_regions] and [get_compartments] (lines
      94-115) with the eager [list_call_get_all_results].
    - [Checkpoint]: [get_start_time] (lines 186-218).
    - [Orchestrator]: [get_config], [initOCI] and [main] (lines 19-83,
      221-234).
    - [RegionScoped]: the design the spec's notes recommend instead of the
      shared mutable region (a client scoped to one region, the region
      passed to every listing call: [collect_regions_in]), as a reference
      the code's region loop is proved equivalent to.
    - [Scenarios]: concrete services (two regions, two compartments, two
      pages of events, a 500 answer, and variants: no region, a failing
      POST, a key that does not decode, a checkpoint in the future, nested
      compartments) on which the properties are applied and the spec's
      end-to-end scenario is computed.

    What the theorems show:
    - delivery order and liveness: [main] returns normally and POSTs the
      serialised events in the order region x compartment x page x event,
      nothing skipped, merged or repeated ([Orchestrator.main_delivery_order],
      from [Collector.get_audit_events_delivers] and
      [Scope.observes_get_compartments]), so every served event is delivered
      ([Orchestrator.main_delivers_every_event]); with no region it POSTs
      nothing; with no ACTIVE compartment it still collects the tenancy
      itself ([Orchestrator.main_no_active_compartments]);
    - the order of the network calls (a refinement of the delivery order):
      authentication, checkpoint query, region listing, compartment pages,
      then the page requests and POSTs interleaved page by page, each page
      requested in the region being collected ([Orchestrator.main_streams],
      [Collector.get_audit_events_streams]);
      a listing error stops the collector after the earlier pages
      ([Collector.get_audit_events_listing_error]); the outcome of the
      pagination does not depend on the fuel once it covers the chain
      ([Collector.paginate_fuel_irrelevant]); the set-then-use region loop
      is equivalent to a client per region: same outcome, trace, clock
      reads and POSTs ([RegionScoped.collect_regions_shared_client]);
    - every POST of every run, failed runs included, carries the signature
      of its own date and body length ([Orchestrator.main_posts_well_signed]);
      the canonical string is unambiguous ([Signer.canonical_string_fields]),
      the header is [SharedKey id:] and 44 base64 characters
      ([Signer.build_signature_shape]), a base64 key is decoded back to its
      bytes ([Crypto.b64decode_b64encode]), a key that does not decode
      stops every delivery ([Orchestrator.main_bad_key_no_post]), and the
      signed [x-ms-date] header is an IMF-fixdate that reads back to the
      second of the clock reading for every four-digit year, and is none for
      a shorter year ([DateTime.rfc1123_reads_back]); the signer, the hash,
      the HMAC and base64 agree with CPython 3.11 on test vectors (computed
      by [vm_compute], not claims);
    - the checkpoint and the deliveries use the same log type: the query
      reads the custom table [<LOG_ANALYTICS_LOGTYPE>_CL] and every POST is
      filed under [LOG_ANALYTICS_LOGTYPE] ([Orchestrator.main_log_type_consistent]);
    - the window: every page request asks for start <= end under the
      hypotheses on the clock ([Orchestrator.main_window_valid]), and for
      start > end whenever the checkpoint is later than the clock
      ([Orchestrator.main_window_inverted]); the calendar arithmetic is
      right ([DateTime.ord2ymd_ymd2ord], with the 400-year cycle checked
      exhaustively by [vm_compute]);
    - the checkpoint: resolved, fallback to the clock minus 30 days on any
      failure of the query or the parse, fatal on an authentication failure;
      for every text of the ISO shape, the parse accepts exactly the
      fractions of one to six digits and the dates of the calendar
      ([DateTime.strptime_checkpoint_fraction_rule]);
    - the body: [json.dumps] prints ASCII only, so [len(body)] is its UTF-8
      length ([Json.dumps_ascii_length]), and the text does not depend on
      the insertion order of the keys ([Json.dumps_key_order], through the
      key-sorted normal form [json_norm]); [json.loads] reads back what
      both encoders print, as the normal form ([JsonLoads.loads_str_event]),
      rejects trailing data ([JsonLoads.loads_extra_data]), terminates on
      every text ([JsonLoads.loads_total]), and builds its dicts by map
      insertion (the lemma [JsonLoads.dict_set_insert]), so the body the
      collector POSTs for an event is [json.dumps] of the event;
    - errors: a non-2xx answer is logged and the run goes on, a transport
      error stops it, a missing environment variable stops the run before
      any network call, a failing region or compartment listing stops it
      before any page of events is requested
      ([Orchestrator.main_regions_error], [Orchestrator.main_compartments_error]);
    - what the code does beyond the spec: only the direct children of the
      tenancy are collected ([Scope.get_compartments_direct_children]), the
      window start <= end is not enforced
      ([Orchestrator.main_window_inverted]), and an empty compartment
      listing does not make an empty run
      ([Orchestrator.main_no_active_compartments]).

    Bounds and fuel: the pagination loops of the code ([list_call_get_all_results]
    and its generator) have no bound; [list_all_compartments] and
    [paginate_events] take a fuel and raise [FuelExhausted] when it runs out.
    The theorems assume the pages form a finite [page_chain] whose length is
    at most the fuel, and conclude that the loop ends normally: that is
    enough fuel for any API that serves finitely many pages, and any larger
    fuel gives the same run ([Collector.paginate_fuel_irrelevant]).  The
    JSON decoder recurses on the nesting of the text; [scan_once] takes a
    fuel, one unit per value, element or member, and [loads] passes twice
    the length of the text plus one, which is never exhausted on any text
    ([JsonLoads.loads_total]; each step reads a character, a container two
    steps per character at most); CPython's [RecursionError] on a text
    nested more than its recursion limit is not modelled.  Integers are
    [Z]; the 32-bit words of SHA-256 wrap modulo [2^32] explicitly.

    Not modelled: the internals of the OCI, Azure and HTTP client libraries
    (their answers are arbitrary values or errors of [services]), the SDK's
    [to_dict] (an event is given as the document it returns; the hypothesis
    [Collector.events_wf] says that document is a dict, with distinct
    keys), JSON floats and characters above U+00FF (outside the document
    type: the decoder raises [Unrepresentable] on them), the logging
    configuration and the scheduler (only [mytimer.past_due] is read).
    Of the [datetime] and [time] libraries only what the program calls is
    modelled (one [strptime] format, one [strftime] format as glibc prints
    it under CPython 3.11, [timedelta] in days, [str] and [isoformat]);
    CPython 3.12.5 and later pad [%Y] to four digits, which changes
    [rfc1123] for years below 1000 only.  Every line of the program's code is the
    translation of some definition; what remains unmapped in the source is
    imports and comments. *)

From Stdlib Require Import String Ascii ZArith List Lia.
From stdpp Require Import base list strings.

(** ** Python exceptions *)

(** The exceptions the modelled code can raise or let escape.  Each
    constructor names the Python class it stands for.  Two values are not
    Python exceptions: [FuelExhausted] is what a loop of the model returns
    when its fuel runs out before the loop of the code ends, and
    [Unrepresentable] what a library model returns on a value the model has
    no room for (a float, a character above U+00FF), where Python would go
    on. *)
Inductive exn :=
| KeyError (key : string)              (** [os.environ[key]], [config[key]] *)
| IndexError                           (** [list[i]] out of range *)
| TypeError                            (** e.g. [strptime] on a non-string *)
| ValueError (what : string)           (** [strptime], [b64decode] *)
| OverflowError                        (** [datetime + timedelta] out of range *)
| ServiceError (operation : string)    (** an OCI or Azure client call failed *)
| ConnectionError                      (** [requests.post] transport failure *)
| FuelExhausted
| Unrepresentable (what : string).

(** A Python call returns a value or raises. *)
Inductive res (A : Type) :=
| Ret (a : A)
| Raise (e : exn).
Arguments Ret {A} a.
Arguments Raise {A} e.

(** ** The state and exception monad

    [st S A] threads a state [S] (the world the program acts on) and may
    raise: an exception keeps the state reached when it was raised, as the
    side effects done before a Python exception are not undone. *)
Definition st (S A : Type) : Type := S -> res A * S.

Section Monad.
Context {S : Type}.

Definition ret {A} (a : A) : st S A := fun s => (Ret a, s).

Definition bind {A B} (m : st S A) (k : A -> st S B) : st S B :=
  fun s => match m s with
           | (Ret a, s') => k a s'
           | (Raise e, s') => (Raise e, s')
           end.

Definition raise {A} (e : exn) : st S A := fun s => (Raise e, s).

(** [try: m except: h] with a bare [except:] clause: every exception is
    caught and the handler runs in the state the body left. *)
Definition try_except {A} (m : st S A) (h : exn -> st S A) : st S A :=
  fun s => match m s with
           | (Raise e, s') => h e s'
           | r => r
           end.

Definition get : st S S := fun s => (Ret s, s).
Definition modify (f : S -> S) : st S unit := fun s => (Ret tt, f s).

Definition of_res {A} (r : res A) : st S A := fun s => (r, s).

(** [for x in l: f(x)] *)
Fixpoint for_each {A} (f : A -> st S unit) (l : list A) : st S unit :=
  match l with
  | [] => ret tt
  | x :: l' => bind (f x) (fun _ => for_each f l')
  end.
End Monad.

Declare Scope py_scope.
Delimit Scope py_scope with py.
Notation "x <- m ;; k" := (bind m (fun x => k))
  (at level 100, m at level 99, right associativity) : py_scope.
Notation "m ;; k" := (bind m (fun _ => k))
  (at level 100, right associativity) : py_scope.

(** Sequencing of pure computations that may raise (library code that
    does not touch the world). *)
Definition res_bind {A B} (r : res A) (k : A -> res B) : res B :=
  match r with Ret a => k a | Raise e => Raise e end.
Notation "x <-? r ;;; k" := (res_bind r (fun x => k))
  (at level 100, r at level 99, right associativity) : py_scope.
Open Scope py_scope.

(** ** Laws of the monad, stated pointwise on the state *)

Section Laws.
Context {S : Type}.

Lemma bind_ret_l {A B} (a : A) (k : A -> st S B) s :
  bind (ret a) k s = k a s.
Proof. reflexivity. Qed.

Lemma bind_of_res_ret {A B} (a : A) (k : A -> st S B) s :
  bind (of_res (Ret a)) k s = k a s.
Proof. reflexivity. Qed.

Lemma bind_ret_r {A} (m : st S A) s : bind m ret s = m s.
Proof. unfold bind, ret. destruct (m s) as [[] ?]; reflexivity. Qed.

Lemma bind_assoc {A B C} (m : st S A) (k : A -> st S B) (k' : B -> st S C) s :
  bind (bind m k) k' s = bind m (fun a => bind (k a) k') s.
Proof. unfold bind. destruct (m s) as [[] ?]; reflexivity. Qed.

Lemma bind_Ret {A B} (m : st S A) (k : A -> st S B) s a s' :
  m s = (Ret a, s') -> bind m k s = k a s'.
Proof. unfold bind. intros ->. reflexivity. Qed.

Lemma bind_Raise {A B} (m : st S A) (k : A -> st S B) s e s' :
  m s = (Raise e, s') -> bind m k s = (Raise e, s').
Proof. unfold bind. intros ->. reflexivity. Qed.

Lemma bind_ext {A B} (m : st S A) (k k' : A -> st S B) s :
  (forall a s', k a s' = k' a s') -> bind m k s = bind m k' s.
Proof. intros H. unfold bind. destruct (m s) as [[] ?]; auto. Qed.

Lemma for_each_app {A} (f : A -> st S unit) l1 l2 s :
  for_each f (l1 ++ l2) s = bind (for_each f l1) (fun _ => for_each f l2) s.
Proof.
  revert s. induction l1 as [|x l1 IH]; intros s; simpl.
  - reflexivity.
  - rewrite bind_assoc. apply bind_ext. intros [] s'. apply IH.
Qed.
End Laws.

Create HintDb pyw discriminated.
Create Rewrite HintDb pyw_rw.
#[export] Hint Rewrite @bind_ret_l @bind_assoc : pyw_rw.

(** Unfold one layer of the monad in the goal. *)
Ltac py_simpl := cbn [bind ret raise try_except get modify of_res for_each] in *.

(** ** Generic lemmas on lists shared by the components *)

Lemma flat_map_app_distr {A B} (f : A -> list B) l1 l2 :
  flat_map f (l1 ++ l2) = flat_map f l1 ++ flat_map f l2.
Proof. induction l1; simpl; [done | by rewrite IHl1, app_assoc]. Qed.
#[export] Hint Rewrite @flat_map_app_distr : pyw_rw.

Lemma flat_map_singleton_map {A B} (f : A -> B) l :
  flat_map (fun x => [f x]) l = map f l.
Proof. induction l; simpl; by f_equal. Qed.

Lemma map_flat_map_distr {A B C} (f : B -> C) (g : A -> list B) l :
  map f (flat_map g l) = flat_map (fun x => map f (g x)) l.
Proof. induction l; simpl; [done | by rewrite map_app, IHl]. Qed.

(** Induction on a list three elements at a time (groups of three bytes in
    base64). *)
Lemma list_ind3 {A} (P : list A -> Prop) :
  P [] -> (forall a, P [a]) -> (forall a b, P [a; b]) ->
  (forall a b c l, P l -> P (a :: b :: c :: l)) -> forall l, P l.
Proof.
  intros H0 H1 H2 H3 l.
  enough (P l /\ (forall a, P (a :: l)) /\ forall a b, P (a :: b :: l)) by tauto.
  induction l as [|x l (IH0 & IH1 & IH2)]; [done|]. repeat split; auto.
Qed.

(** ** Generic lemmas on bit operations of integers *)

Section ZBits.
Local Open Scope Z_scope.

(** Or-ing in bits below a shift adds them. *)
Lemma lor_mul_add x y k : 0 <= k -> 0 <= y < 2 ^ k -> Z.lor (x * 2 ^ k) y = x * 2 ^ k + y.
Proof.
  intros Hk Hy.
  assert (Z.land (x * 2 ^ k) y = 0) as H0.
  { apply Z.bits_inj'. intros n Hn. rewrite Z.land_spec, Z.bits_0. destruct (Z.lt_ge_cases n k).
    - by rewrite Z.mul_pow2_bits_low by lia.
    - rewrite <- (Z.mod_small y (2 ^ k)) by lia. rewrite Z.mod_pow2_bits_high by lia. apply andb_false_r. }
  pose proof (Z.add_lor_land (x * 2 ^ k) y). lia.
Qed.

(** A mask of [n] low bits is a remainder. *)
Lemma land_mask a n m : 0 <= n -> m = Z.ones n -> Z.land a m = a mod 2 ^ n.
Proof. intros ? ->. by apply Z.land_ones. Qed.
End ZBits.

(** Turn the shifts, masks and disjoint ors on bytes into arithmetic, and
    close the goal with the division equations. *)
Ltac zbits :=
  repeat first
    [ rewrite Z.shiftr_div_pow2 by lia
    | rewrite Z.shiftl_mul_pow2 by lia
    | rewrite (land_mask _ 2 3) by (lia || reflexivity)
    | rewrite (land_mask _ 4 15) by (lia || reflexivity)
    | rewrite (land_mask _ 6 63) by (lia || reflexivity)
    | rewrite (land_mask _ 8 255) by (lia || reflexivity)
    | match goal with |- context [Z.lor (?x * 2 ^ ?k) ?y] =>
        rewrite (lor_mul_add x y k)
          by (cbn [Z.pow Z.pow_pos Pos.iter Z.mul Pos.mul]; Z.div_mod_to_equations; lia) end ];
  cbn [Z.pow Z.pow_pos Pos.iter Z.mul Pos.mul]; Z.div_mod_to_equations; lia.
