(* ===== verification/Text.v ===== *)
(** * Text: Python strings and bytes

    A Python [str] is modelled as a Rocq [string] whose characters are the
    code points 0..255 (the Latin-1 block of Unicode); every string the
    program builds or receives in the scenarios of this development lies in
    it.  A Python [bytes] value is a [list Z] of values in [0, 256).  This
    file holds [bytes(s, encoding="utf-8")] ([utf8_encode]), [bytes.decode]
    on ASCII data ([decode_ascii]), [str(n)] on non-negative integers
    ([py_str_nat]) and [len] ([String.length]), with the lemmas the signer
    and the forwarder share. *)

From Stdlib Require Import String Ascii ZArith List Lia DecimalString DecimalNat.
From stdpp Require Import base list strings.
From S2P Require Import Prelude.

Open Scope Z_scope.

(** The code point of a character. *)
Definition code (c : ascii) : Z := Z.of_N (N_of_ascii c).

(** The character of a code point (taken modulo 256). *)
Definition chr (z : Z) : ascii := ascii_of_N (Z.to_N (z mod 256)).

(** The one-character string of a code point ([chr(n)]). *)
Definition char_of (n : Z) : string := String (chr n) EmptyString.

(** UTF-8 encoding of one code point below 256: one byte below 128, two
    bytes [110000xx 10xxxxxx] above. *)
Definition utf8_char (c : ascii) : list Z :=
  let n := code c in
  if n <? 128 then [n]
  else [Z.lor 192 (Z.shiftr n 6); Z.lor 128 (Z.land n 63)].

(** [bytes(s, encoding="utf-8")] *)
Fixpoint utf8_encode (s : string) : list Z :=
  match s with
  | EmptyString => []
  | String c s' => utf8_char c ++ utf8_encode s'
  end.

(** [bytes.decode()] of bytes that are all ASCII (the only use in the
    program is on the output of [base64.b64encode]). *)
Definition decode_ascii (bs : list Z) : string :=
  string_of_list_ascii (map chr bs).

(** The bytes of an ASCII string literal. *)
Definition ascii_bytes (s : string) : list Z := map code (list_ascii_of_string s).

(** [str(n)] for a non-negative Python [int]. *)
Definition py_str_nat (n : nat) : string :=
  NilEmpty.string_of_uint (Nat.to_uint n).

(** [all(ord(ch) < 128 for ch in s)] *)
Definition is_ascii (s : string) : bool :=
  forallb (fun c => code c <? 128) (list_ascii_of_string s).

(** ** Lemmas *)

Lemma code_range c : 0 <= code c < 256.
Proof.
  unfold code. pose proof (N_ascii_bounded c). lia.
Qed.

Lemma chr_code c : chr (code c) = c.
Proof.
  unfold chr, code. rewrite Z.mod_small by (pose proof (N_ascii_bounded c); lia).
  rewrite N2Z.id. apply ascii_N_embedding.
Qed.

Lemma code_chr z : code (chr z) = z mod 256.
Proof.
  pose proof (Z.mod_pos_bound z 256 ltac:(lia)).
  unfold code, chr. rewrite N_ascii_embedding by lia. rewrite Z2N.id; lia.
Qed.

(** [bytes.decode()] then [str.encode('ascii')] gives back the bytes. *)
Lemma ascii_bytes_decode bs :
  Forall (fun b => 0 <= b < 256) bs -> ascii_bytes (decode_ascii bs) = bs.
Proof.
  unfold ascii_bytes, decode_ascii. rewrite list_ascii_of_string_of_list_ascii, map_map.
  induction 1 as [|b bs Hb _ IH]; [done|]. cbn. by rewrite code_chr, Z.mod_small, IH.
Qed.

Lemma length_decode_ascii bs : String.length (decode_ascii bs) = length bs.
Proof. unfold decode_ascii. induction bs as [|b bs IH]; [done|]. cbn. by rewrite IH. Qed.

Lemma is_ascii_decode bs :
  Forall (fun b => 0 <= b < 128) bs -> is_ascii (decode_ascii bs) = true.
Proof.
  unfold is_ascii, decode_ascii. rewrite list_ascii_of_string_of_list_ascii.
  induction 1 as [|b bs Hb _ IH]; [done|]. cbn. rewrite code_chr, Z.mod_small, IH by lia.
  apply andb_true_iff. split; [apply Z.ltb_lt; lia | done].
Qed.

Lemma utf8_encode_app s1 s2 :
  utf8_encode (s1 +:+ s2) = utf8_encode s1 ++ utf8_encode s2.
Proof. induction s1; simpl; [done | by rewrite IHs1, app_assoc]. Qed.

(** An ASCII string is encoded byte for byte: its UTF-8 length is its
    Python length. *)
Lemma utf8_encode_ascii s :
  is_ascii s = true -> utf8_encode s = ascii_bytes s.
Proof.
  unfold is_ascii, ascii_bytes. induction s as [|c s IH]; simpl; [done|].
  intros [Hc Hs]%andb_prop. unfold utf8_char. rewrite Hc. simpl. by rewrite IH.
Qed.

Lemma utf8_encode_ascii_length s :
  is_ascii s = true -> length (utf8_encode s) = String.length s.
Proof.
  intros H. rewrite utf8_encode_ascii by done. unfold ascii_bytes.
  rewrite length_map. clear H. induction s; simpl; [done | by f_equal].
Qed.

Lemma decode_ascii_bytes s : decode_ascii (ascii_bytes s) = s.
Proof.
  unfold decode_ascii, ascii_bytes. rewrite map_map.
  rewrite (map_ext _ id) by apply chr_code. rewrite map_id.
  apply string_of_list_ascii_of_string.
Qed.

Lemma list_ascii_of_string_app s1 s2 :
  list_ascii_of_string (s1 +:+ s2) = list_ascii_of_string s1 ++ list_ascii_of_string s2.
Proof. induction s1 as [|c s1 IH]; [done | simpl; f_equal; exact IH]. Qed.

Lemma string_app_assoc s1 s2 s3 : s1 +:+ (s2 +:+ s3) = (s1 +:+ s2) +:+ s3.
Proof.
  induction s1 as [|c s1 IH]; [reflexivity|].
  change (String c (s1 +:+ s2 +:+ s3) = String c ((s1 +:+ s2) +:+ s3)). by rewrite IH.
Qed.

Lemma is_ascii_app s1 s2 : is_ascii (s1 +:+ s2) = is_ascii s1 && is_ascii s2.
Proof.
  unfold is_ascii. induction s1; simpl; [done|]. by rewrite IHs1, andb_assoc.
Qed.

Lemma py_str_nat_inj n m : py_str_nat n = py_str_nat m -> n = m.
Proof.
  unfold py_str_nat. intros H.
  apply (f_equal NilEmpty.uint_of_string) in H. rewrite !NilEmpty.usu in H.
  injection H as H. by apply Unsigned.to_uint_inj.
Qed.

#[export] Hint Resolve code_range : pyw.
#[export] Hint Rewrite utf8_encode_app is_ascii_app : pyw_rw.
