(* ===== verification/Crypto.v ===== *)
(** * Crypto: the library primitives [build_signature] calls

    [hashlib.sha256] (FIPS 180-4), [hmac.new(key, msg, hashlib.sha256)]
    (RFC 2104), [base64.b64encode] ([binascii.b2a_base64] without newline)
    and [base64.b64decode] ([binascii.a2b_base64] in its default, non-strict
    mode, which skips characters outside the alphabet and stops at a
    complete pad sequence).  None of this code is under src/: it is
    modelled from the standards and from the C code of CPython's binascii,
    and kept executable so that known test vectors are checked by
    [vm_compute].  The laws proved: base64 decoding inverts encoding on
    every byte string (the bit arithmetic of the groups through the tactic
    [zbits]), and SHA-256 and HMAC digests are 32 bytes.  Bytes are [Z] values in [0, 256), 32-bit words are [Z]
    values in [0, 2^32) with the wrap-around of addition written out. *)

From Stdlib Require Import String Ascii ZArith List Lia.
From stdpp Require Import base list.
From S2P Require Import Prelude Text.

Open Scope Z_scope.

Module Sha256.

(** ** 32-bit words *)
Definition wrap32 (x : Z) : Z := x mod 2 ^ 32.
Definition add32 (x y : Z) : Z := wrap32 (x + y).
Definition not32 (x : Z) : Z := Z.lxor x (Z.ones 32).
Definition rotr (n x : Z) : Z :=
  Z.lor (Z.shiftr x n) (wrap32 (Z.shiftl x (32 - n))).

Definition ch (e f g : Z) : Z := Z.lxor (Z.land e f) (Z.land (not32 e) g).
Definition maj (a b c : Z) : Z :=
  Z.lxor (Z.lxor (Z.land a b) (Z.land a c)) (Z.land b c).
Definition big_sigma0 (x : Z) : Z := Z.lxor (Z.lxor (rotr 2 x) (rotr 13 x)) (rotr 22 x).
Definition big_sigma1 (x : Z) : Z := Z.lxor (Z.lxor (rotr 6 x) (rotr 11 x)) (rotr 25 x).
Definition small_sigma0 (x : Z) : Z := Z.lxor (Z.lxor (rotr 7 x) (rotr 18 x)) (Z.shiftr x 3).
Definition small_sigma1 (x : Z) : Z := Z.lxor (Z.lxor (rotr 17 x) (rotr 19 x)) (Z.shiftr x 10).

(** The constants are the first 32 bits of the fractional parts of the
    cube roots of the first 64 primes and of the square roots of the first
    8 primes (FIPS 180-4, 4.2.2 and 5.3.3), computed here from that
    definition: [iroot k n] is the integer [k]-th root of [n], found bit by
    bit from bit 39 down (the roots below are under [2^36]). *)
Definition is_prime (p : Z) : bool :=
  forallb (fun d => negb (p mod d =? 0)) (map Z.of_nat (seq 2 (Z.to_nat p - 2))).

Definition primes : list Z := List.filter is_prime (map Z.of_nat (seq 2 310)).

Fixpoint iroot_bits (b : nat) (k n x : Z) : Z :=
  match b with
  | O => x
  | S b' => let y := x + 2 ^ Z.of_nat b' in iroot_bits b' k n (if y ^ k <=? n then y else x)
  end.

Definition iroot (k n : Z) : Z := iroot_bits 40 k n 0.

Definition frac_bits (k p : Z) : Z := wrap32 (iroot k (p * 2 ^ (32 * k))).

(** The round constants. *)
Definition round_constants : list Z := Eval vm_compute in map (frac_bits 3) (firstn 64 primes).

(** The initial hash value. *)
Definition initial_hash : list Z := Eval vm_compute in map (frac_bits 2) (firstn 8 primes).

(** ** Padding and parsing *)

(** Big-endian encoding of [x] on [n] bytes. *)
Fixpoint be_bytes (n : nat) (x : Z) : list Z :=
  match n with
  | O => []
  | S n' => be_bytes n' (Z.shiftr x 8) ++ [Z.land x 255]
  end.

(** Append [0x80], then zeros up to 56 mod 64, then the bit length on
    eight bytes. *)
Definition pad (msg : list Z) : list Z :=
  let len := Z.of_nat (length msg) in
  msg ++ [0x80] ++ repeat 0 (Z.to_nat ((55 - len) mod 64))
      ++ be_bytes 8 (8 * len).

(** Big-endian 32-bit words of a byte list of length a multiple of 4. *)
Fixpoint words_of_bytes (bs : list Z) : list Z :=
  match bs with
  | b0 :: b1 :: b2 :: b3 :: rest =>
      (b0 * 2 ^ 24 + b1 * 2 ^ 16 + b2 * 2 ^ 8 + b3) :: words_of_bytes rest
  | _ => []
  end.

(** Split a list into chunks of [n] elements; [fuel] bounds the number of
    chunks ([length l] is always enough). *)
Fixpoint chunks {A} (fuel n : nat) (l : list A) : list (list A) :=
  match fuel, l with
  | O, _ | _, [] => []
  | S fuel', _ => take n l :: chunks fuel' n (drop n l)
  end.

(** ** The message schedule and the compression function *)

(** Extend the 16 words of a block to 64.  The accumulator holds the words
    computed so far, most recent first: [W(t-2)] is at index 1, [W(t-7)]
    at 6, [W(t-15)] at 14 and [W(t-16)] at 15. *)
Fixpoint extend (k : nat) (acc : list Z) : list Z :=
  match k with
  | O => acc
  | S k' =>
      let wt := add32 (add32 (small_sigma1 (nth 1 acc 0)) (nth 6 acc 0))
                      (add32 (small_sigma0 (nth 14 acc 0)) (nth 15 acc 0)) in
      extend k' (wt :: acc)
  end.

Definition schedule (block : list Z) : list Z := rev (extend 48 (rev block)).

(** One round on the working variables [a..h]. *)
Definition round (v : list Z) (kw : Z * Z) : list Z :=
  match v with
  | [a; b; c; d; e; f; g; h] =>
      let t1 := add32 (add32 (add32 h (big_sigma1 e)) (add32 (ch e f g) kw.1)) kw.2 in
      let t2 := add32 (big_sigma0 a) (maj a b c) in
      [add32 t1 t2; a; b; c; add32 d t1; e; f; g]
  | _ => v
  end.

Definition compress (hv : list Z) (block : list Z) : list Z :=
  let v := fold_left round (zip round_constants (schedule block)) hv in
  zip_with add32 hv v.

(** [hashlib.sha256(msg).digest()] *)
Definition sha256 (msg : list Z) : list Z :=
  let p := pad msg in
  let blocks := chunks (length p) 16 (words_of_bytes p) in
  flat_map (be_bytes 4) (fold_left compress blocks initial_hash).

End Sha256.

Module Hmac.
Import Sha256.

Definition block_size : nat := 64.

(** [hmac.new(key, msg, hashlib.sha256).digest()]: a key longer than the
    block is hashed first, then padded with zeros to the block size. *)
Definition hmac_sha256 (key msg : list Z) : list Z :=
  let k := if Nat.ltb block_size (length key) then sha256 key else key in
  let k0 := k ++ repeat 0 (block_size - length k) in
  let ipad := map (Z.lxor 0x36) k0 in
  let opad := map (Z.lxor 0x5c) k0 in
  sha256 (opad ++ sha256 (ipad ++ msg)).

End Hmac.

Module Base64.

(** The alphabet of RFC 4648: index to character code. *)
Definition b2a_char (s : Z) : Z :=
  if s <? 26 then 65 + s
  else if s <? 52 then 97 + (s - 26)
  else if s <? 62 then 48 + (s - 52)
  else if s =? 62 then 43 else 47.

(** [table_a2b_base64]: character code to index, 64 or more for a
    character outside the alphabet. *)
Definition a2b_char (c : Z) : Z :=
  if (65 <=? c) && (c <=? 90) then c - 65
  else if (97 <=? c) && (c <=? 122) then c - 97 + 26
  else if (48 <=? c) && (c <=? 57) then c - 48 + 52
  else if c =? 43 then 62
  else if c =? 47 then 63
  else 255.

Definition pad_char : Z := 61.

(** [binascii.b2a_base64(data, newline=False)]: each group of three bytes
    gives four characters; a last group of one or two bytes is completed
    with [=]. *)
Fixpoint b2a_base64 (bs : list Z) : list Z :=
  match bs with
  | b0 :: b1 :: b2 :: rest =>
      b2a_char (Z.shiftr b0 2)
      :: b2a_char (Z.lor (Z.shiftl (Z.land b0 3) 4) (Z.shiftr b1 4))
      :: b2a_char (Z.lor (Z.shiftl (Z.land b1 15) 2) (Z.shiftr b2 6))
      :: b2a_char (Z.land b2 63) :: b2a_base64 rest
  | [b0; b1] =>
      [b2a_char (Z.shiftr b0 2);
       b2a_char (Z.lor (Z.shiftl (Z.land b0 3) 4) (Z.shiftr b1 4));
       b2a_char (Z.shiftl (Z.land b1 15) 2); pad_char]
  | [b0] =>
      [b2a_char (Z.shiftr b0 2); b2a_char (Z.shiftl (Z.land b0 3) 4);
       pad_char; pad_char]
  | [] => []
  end.

(** The decoding loop of [binascii.a2b_base64] (non-strict): [quad_pos]
    counts the characters of the current group, [leftchar] holds the bits
    not yet emitted, [pads] the [=] seen since the last data character;
    [acc] is the output so far, most recent byte first.  A pad sequence
    that completes a group ends the decoding; a character outside the
    alphabet is skipped. *)
Fixpoint a2b_loop (cs : list Z) (quad_pos leftchar pads : Z) (acc : list Z)
    : res (list Z) :=
  match cs with
  | [] =>
      if quad_pos =? 0 then Ret (rev acc)
      else if quad_pos =? 1
      then Raise (ValueError "Invalid base64-encoded string: number of data characters cannot be 1 more than a multiple of 4")
      else Raise (ValueError "Incorrect padding")
  | c :: cs' =>
      if c =? pad_char then
        if 2 <=? quad_pos then
          if 4 <=? quad_pos + (pads + 1) then Ret (rev acc)
          else a2b_loop cs' quad_pos leftchar (pads + 1) acc
        else a2b_loop cs' quad_pos leftchar pads acc
      else
        let v := a2b_char c in
        if 64 <=? v then a2b_loop cs' quad_pos leftchar pads acc
        else if quad_pos =? 0 then a2b_loop cs' 1 v 0 acc
        else if quad_pos =? 1 then
          a2b_loop cs' 2 (Z.land v 15)
                   0 (Z.land (Z.lor (Z.shiftl leftchar 2) (Z.shiftr v 4)) 255 :: acc)
        else if quad_pos =? 2 then
          a2b_loop cs' 3 (Z.land v 3)
                   0 (Z.land (Z.lor (Z.shiftl leftchar 4) (Z.shiftr v 2)) 255 :: acc)
        else
          a2b_loop cs' 0 0 0 (Z.land (Z.lor (Z.shiftl leftchar 6) v) 255 :: acc)
  end.

Definition a2b_base64 (cs : list Z) : res (list Z) := a2b_loop cs 0 0 0 [].

(** [base64.b64encode(bs)] *)
Definition b64encode (bs : list Z) : list Z := b2a_base64 bs.

(** [base64.b64decode(s)] on a [str]: [s.encode('ascii')] first, which
    raises [ValueError] on a character outside ASCII. *)
Definition b64decode (s : string) : res (list Z) :=
  if is_ascii s then a2b_base64 (ascii_bytes s)
  else Raise (ValueError "string argument should contain only ASCII characters").

End Base64.

(** Test vectors of the primitives, as CPython 3.11 computes them: SHA-256 of [abc] (the example
    of FIPS 180-2), HMAC-SHA256 of test case 2 of RFC 4231, and the base64
    encoding and lenient decoding Python gives on small inputs. *)
Example crypto_known_vectors :
  Sha256.sha256 (ascii_bytes "abc") =
    [186; 120; 22; 191; 143; 1; 207; 234; 65; 65; 64; 222; 93; 174; 34; 35; 176; 3; 97; 163;
     150; 23; 122; 156; 180; 16; 255; 97; 242; 0; 21; 173] /\
  Hmac.hmac_sha256 (ascii_bytes "Jefe") (ascii_bytes "what do ya want for nothing?") =
    [91; 220; 193; 70; 191; 96; 117; 78; 106; 4; 36; 38; 8; 149; 117; 199; 90; 0; 63; 8;
     157; 39; 57; 131; 157; 236; 88; 185; 100; 236; 56; 67] /\
  decode_ascii (Base64.b64encode (ascii_bytes "hello world!!")) = "aGVsbG8gd29ybGQhIQ=="%string /\
  Base64.b64decode "aGVs*bG8=" = Ret (ascii_bytes "hello") /\
  Base64.b64decode "QQ=" = Raise (ValueError "Incorrect padding").
Proof. repeat split; vm_compute; reflexivity. Qed.

(** ** Base64: decoding inverts encoding *)

Section Base64Laws.
Import Base64.

(** The alphabet: every index maps to a character of the table, which
    decodes back to it, is not the pad character and is ASCII. *)
Lemma b2a_char_spec s :
  0 <= s < 64 -> a2b_char (b2a_char s) = s /\ b2a_char s <> pad_char /\ 0 <= b2a_char s < 128.
Proof.
  intros Hs. unfold a2b_char, b2a_char, pad_char.
  repeat match goal with
  | |- context [?a <? ?b] => destruct (Z.ltb_spec a b)
  | |- context [?a =? ?b] => destruct (Z.eqb_spec a b)
  | |- context [?a <=? ?b] => destruct (Z.leb_spec a b)
  end; cbn [andb]; lia.
Qed.

(** One data character of the alphabet, at each position of a group. *)
Lemma a2b_loop_char s cs q l p acc :
  0 <= s < 64 ->
  a2b_loop (b2a_char s :: cs) q l p acc =
    if q =? 0 then a2b_loop cs 1 s 0 acc
    else if q =? 1 then
      a2b_loop cs 2 (Z.land s 15) 0 (Z.land (Z.lor (Z.shiftl l 2) (Z.shiftr s 4)) 255 :: acc)
    else if q =? 2 then
      a2b_loop cs 3 (Z.land s 3) 0 (Z.land (Z.lor (Z.shiftl l 4) (Z.shiftr s 2)) 255 :: acc)
    else a2b_loop cs 0 0 0 (Z.land (Z.lor (Z.shiftl l 6) s) 255 :: acc).
Proof.
  intros Hs. destruct (b2a_char_spec s Hs) as (H1 & H2 & _). cbn [a2b_loop].
  rewrite (proj2 (Z.eqb_neq _ _) H2), H1. by rewrite (proj2 (Z.leb_gt _ _)) by lia.
Qed.

Lemma b2a_base64_ascii bs :
  Forall (fun b => 0 <= b < 256) bs -> Forall (fun c => 0 <= c < 128) (b2a_base64 bs).
Proof.
  induction bs as [|b0|b0 b1|b0 b1 b2 bs IH] using list_ind3; intros Hbs;
    rewrite ?Forall_cons in Hbs; cbn [b2a_base64]; [done|..];
    repeat (apply List.Forall_cons; [first [unfold pad_char; lia | apply b2a_char_spec; zbits] |]);
    try apply List.Forall_nil; tauto.
Qed.

(** The decoding loop, started at a group boundary on the encoding of
    bytes, emits those bytes after the ones already decoded. *)
Lemma a2b_loop_b2a bs acc :
  Forall (fun b => 0 <= b < 256) bs -> a2b_loop (b2a_base64 bs) 0 0 0 acc = Ret (rev acc ++ bs).
Proof.
  revert acc. induction bs as [|b0|b0 b1|b0 b1 b2 bs IH] using list_ind3; intros acc Hbs;
    rewrite ?Forall_cons in Hbs; cbn [b2a_base64].
  - by rewrite app_nil_r.
  - destruct Hbs as [Hb0 _]. rewrite !a2b_loop_char by zbits. cbn. repeat f_equal. zbits.
  - destruct Hbs as (Hb0 & Hb1 & _). rewrite !a2b_loop_char by zbits. cbn.
    rewrite <- app_assoc. cbn [app]. repeat f_equal; zbits.
  - destruct Hbs as (Hb0 & Hb1 & Hb2 & Hbs). rewrite !a2b_loop_char by zbits. cbn [Z.eqb Pos.eqb].
    rewrite IH by done. cbn [rev]. rewrite <- !app_assoc. cbn [app]. repeat f_equal; zbits.
Qed.
End Base64Laws.

(** C25 (base64 round trip): for every byte string, decoding its base64
    text ([base64.b64decode(base64.b64encode(bs).decode())], as a shared
    key is stored) gives back the bytes: the text is ASCII, every
    character is in the alphabet, and the final pad sequence ends the
    decoding exactly after the last byte. *)
Theorem b64decode_b64encode bs :
  Forall (fun b => 0 <= b < 256) bs -> Base64.b64decode (decode_ascii (Base64.b64encode bs)) = Ret bs.
Proof.
  intros Hbs. pose proof (b2a_base64_ascii bs Hbs) as Ha. unfold Base64.b64decode, Base64.b64encode.
  rewrite is_ascii_decode by done. rewrite ascii_bytes_decode.
  - apply a2b_loop_b2a, Hbs.
  - eapply Forall_impl; [exact Ha | cbv beta; lia].
Qed.

(** ** SHA-256 and HMAC digests are 32 bytes *)

Section DigestLength.
Import Sha256 Hmac.

Lemma be_bytes_length n x : length (be_bytes n x) = n.
Proof. revert x. induction n as [|n IH]; intros x; [done|]. cbn. rewrite length_app, IH. cbn. lia. Qed.

Lemma be_bytes_range n x : Forall (fun b => 0 <= b < 256) (be_bytes n x).
Proof.
  revert x. induction n as [|n IH]; intros x; [done|]. cbn. apply Forall_app. split; [apply IH|].
  apply List.Forall_cons; [|done]. rewrite (land_mask _ 8 255) by (lia || reflexivity).
  apply Z.mod_pos_bound. lia.
Qed.

Lemma flat_map_be_bytes_length n l : length (flat_map (be_bytes n) l) = (n * length l)%nat.
Proof. induction l as [|x l IH]; [cbn; lia|]. cbn [flat_map]. rewrite length_app, IH, be_bytes_length. cbn. lia. Qed.

Lemma flat_map_be_bytes_range n l : Forall (fun b => 0 <= b < 256) (flat_map (be_bytes n) l).
Proof. induction l as [|x l IH]; [done|]. cbn [flat_map]. apply Forall_app. split; [apply be_bytes_range | done]. Qed.

Lemma round_length v kw : length (round v kw) = length v.
Proof. unfold round. by destruct v as [|? [|? [|? [|? [|? [|? [|? [|? [|? ?]]]]]]]]]. Qed.

Lemma compress_length hv block : length (compress hv block) = length hv.
Proof.
  unfold compress. rewrite length_zip_with.
  enough (forall l v, length (fold_left round l v) = length v) as -> by lia.
  intros l. induction l as [|kw l IH]; intros v; [done|]. cbn. by rewrite IH, round_length.
Qed.

Lemma sha256_length msg : length (sha256 msg) = 32%nat.
Proof.
  unfold sha256. rewrite flat_map_be_bytes_length.
  enough (forall bl hv, length (fold_left compress bl hv) = length hv) as -> by reflexivity.
  intros bl. induction bl as [|b bl IH]; intros hv; [done|]. cbn. by rewrite IH, compress_length.
Qed.

Lemma sha256_range msg : Forall (fun b => 0 <= b < 256) (sha256 msg).
Proof. apply flat_map_be_bytes_range. Qed.

Lemma hmac_sha256_length key msg : length (hmac_sha256 key msg) = 32%nat.
Proof. apply sha256_length. Qed.

Lemma hmac_sha256_range key msg : Forall (fun b => 0 <= b < 256) (hmac_sha256 key msg).
Proof. apply sha256_range. Qed.
End DigestLength.

(** The base64 text of [n] bytes has [4 * ceil(n / 3)] characters. *)
Lemma b2a_base64_length bs : length (Base64.b2a_base64 bs) = (4 * ((length bs + 2) / 3))%nat.
Proof.
  induction bs as [| | |b0 b1 b2 bs IH] using list_ind3; [done..|]. cbn [Base64.b2a_base64 length].
  rewrite IH. replace (S (S (S (length bs))) + 2)%nat with ((length bs + 2) + 1 * 3)%nat by lia.
  rewrite Nat.div_add by lia. lia.
Qed.
