(* ===== verification/DateTime.v ===== *)
(** * DateTime: the parts of Python's [datetime] the program uses

    A naive [datetime] is the record [datetime] of its seven fields.  The
    program uses: [datetime.utcnow()] (a clock read, in the world of
    [World]); [dt + timedelta(days=-30)] ([add_days], through the proleptic
    Gregorian ordinal [ymd2ord]/[ord2ymd] of CPython's [datetime] module);
    [dt.strftime('%a, %d %b %Y %H:%M:%S GMT')] ([rfc1123], in [post_data],
    with the year printed as glibc does under CPython 3.11: no leading
    zeros);
    and [datetime.strptime(s, '%Y-%m-%dT%H:%M:%S.%fZ')] ([strptime_checkpoint],
    in [get_start_time]), whose regular expression (compiled by [_strptime]
    with [re.IGNORECASE]) is modelled field by field.  Python's comparison of
    naive datetimes is the lexicographic order of the fields, [dt_le].
    The theorems: the ordinal round trip, the reading back of the
    [x-ms-date] header by an RFC 7231 receiver, and the accept/reject rule
    of the checkpoint format on every ISO 8601 text. *)

From Stdlib Require Import String Ascii ZArith List Lia.
From stdpp Require Import base list strings.
From S2P Require Import Prelude Text.

Open Scope Z_scope.

Record datetime := mk_datetime {
  year : Z; month : Z; day : Z;
  hour : Z; minute : Z; second : Z; microsecond : Z
}.

(** ** The proleptic Gregorian calendar ([_is_leap], [_days_in_month],
    [_days_before_year], [_days_before_month], [_ymd2ord], [_ord2ymd]) *)

Definition is_leap (y : Z) : bool :=
  (y mod 4 =? 0) && (negb (y mod 100 =? 0) || (y mod 400 =? 0)).

Definition days_in_month_table (m : Z) : Z :=
  nth (Z.to_nat m) [0; 31; 28; 31; 30; 31; 30; 31; 31; 30; 31; 30; 31] 0.

Definition days_in_month (y m : Z) : Z :=
  if (m =? 2) && is_leap y then 29 else days_in_month_table m.

Definition days_before_month_table (m : Z) : Z :=
  nth (Z.to_nat m) [0; 0; 31; 59; 90; 120; 151; 181; 212; 243; 273; 304; 334] 0.

Definition days_before_year (y : Z) : Z :=
  let y' := y - 1 in y' * 365 + y' / 4 - y' / 100 + y' / 400.

Definition days_before_month (y m : Z) : Z :=
  days_before_month_table m + (if (2 <? m) && is_leap y then 1 else 0).

Definition ymd2ord (y m d : Z) : Z := days_before_year y + days_before_month y m + d.

Definition DI400Y : Z := days_before_year 401.
Definition DI100Y : Z := days_before_year 101.
Definition DI4Y : Z := days_before_year 5.
Definition MAXORDINAL : Z := 3652059.

(** [_ord2ymd(n)], with its 400/100/4/1-year cycle decomposition. *)
Definition ord2ymd (n0 : Z) : Z * Z * Z :=
  let n := n0 - 1 in
  let n400 := n / DI400Y in let n := n mod DI400Y in
  let n100 := n / DI100Y in let n := n mod DI100Y in
  let n4 := n / DI4Y in let n := n mod DI4Y in
  let n1 := n / 365 in let n := n mod 365 in
  let y := n400 * 400 + 1 + n100 * 100 + n4 * 4 + n1 in
  if (n1 =? 4) || (n100 =? 4) then (y - 1, 12, 31)
  else
    let leap := (n1 =? 3) && (negb (n4 =? 24) || (n100 =? 3)) in
    let m := Z.shiftr (n + 50) 5 in
    let preceding := days_before_month_table m + (if (2 <? m) && leap then 1 else 0) in
    if n <? preceding then
      let m' := m - 1 in
      let preceding' := preceding - (days_in_month_table m' + (if (m' =? 2) && leap then 1 else 0)) in
      (y, m', n - preceding' + 1)
    else (y, m, n - preceding + 1).

Definition toordinal (dt : datetime) : Z := ymd2ord dt.(year) dt.(month) dt.(day).

(** [dt + timedelta(days=k)]: the time of day is kept, the date moves by
    [k] days; a result outside [1, MAXORDINAL] raises [OverflowError]. *)
Definition add_days (dt : datetime) (k : Z) : res datetime :=
  let o := toordinal dt + k in
  if (0 <? o) && (o <=? MAXORDINAL) then
    let '(y, m, d) := ord2ymd o in
    Ret (mk_datetime y m d dt.(hour) dt.(minute) dt.(second) dt.(microsecond))
  else Raise OverflowError.

(** The field ranges of the [datetime] constructor. *)
Definition valid_datetime (dt : datetime) : bool :=
  (1 <=? dt.(year)) && (dt.(year) <=? 9999) &&
  (1 <=? dt.(month)) && (dt.(month) <=? 12) &&
  (1 <=? dt.(day)) && (dt.(day) <=? days_in_month dt.(year) dt.(month)) &&
  (0 <=? dt.(hour)) && (dt.(hour) <=? 23) &&
  (0 <=? dt.(minute)) && (dt.(minute) <=? 59) &&
  (0 <=? dt.(second)) && (dt.(second) <=? 59) &&
  (0 <=? dt.(microsecond)) && (dt.(microsecond) <=? 999999).

(** Python's [<=] on naive datetimes: lexicographic on the fields. *)
Definition dt_key (dt : datetime) : list Z :=
  [dt.(year); dt.(month); dt.(day); dt.(hour); dt.(minute); dt.(second); dt.(microsecond)].

Fixpoint lex_le (a b : list Z) : bool :=
  match a, b with
  | x :: a', y :: b' => (x <? y) || ((x =? y) && lex_le a' b')
  | _, _ => true
  end.

Definition dt_le (a b : datetime) : bool := lex_le (dt_key a) (dt_key b).

(** ** [strftime('%a, %d %b %Y %H:%M:%S GMT')] *)

Definition digit_char (d : Z) : ascii := chr (48 + d).

(** The last [n] decimal digits of [v], with leading zeros ([%02d], [%04d]). *)
Fixpoint pad_digits (n : nat) (v : Z) : string :=
  match n with
  | O => EmptyString
  | S n' => pad_digits n' (v / 10) +:+ String (digit_char (v mod 10)) EmptyString
  end.

(** The C locale's [%a] and [%b] names. *)
Definition weekday_names : list string := ["Mon"; "Tue"; "Wed"; "Thu"; "Fri"; "Sat"; "Sun"].

Definition month_names : list string :=
  ["Jan"; "Feb"; "Mar"; "Apr"; "May"; "Jun"; "Jul"; "Aug"; "Sep"; "Oct"; "Nov"; "Dec"].

Definition weekday_abbr (dt : datetime) : string :=
  nth (Z.to_nat ((toordinal dt + 6) mod 7)) weekday_names "".

Definition month_abbr (m : Z) : string := nth (Z.to_nat (m - 1)) month_names "".

(** [%Y]: [datetime.strftime] hands the format to the C library, and
    glibc prints the year in decimal without leading zeros ([5], [999],
    [2021]); CPython 3.11 keeps that output (only 3.12.5 and later pad it to
    four digits). The width is the number of decimal digits of a year of
    [1..9999], the range [valid_datetime] allows. *)
Definition year_width (y : Z) : nat :=
  if y <? 10 then 1 else if y <? 100 then 2 else if y <? 1000 then 3 else 4.

Definition strftime_Y (y : Z) : string := pad_digits (year_width y) y.

Definition rfc1123 (dt : datetime) : string :=
  weekday_abbr dt +:+ ", " +:+ pad_digits 2 dt.(day) +:+ " " +:+ month_abbr dt.(month)
  +:+ " " +:+ strftime_Y dt.(year) +:+ " " +:+ pad_digits 2 dt.(hour) +:+ ":"
  +:+ pad_digits 2 dt.(minute) +:+ ":" +:+ pad_digits 2 dt.(second) +:+ " GMT".

(** ** [datetime.strptime(s, '%Y-%m-%dT%H:%M:%S.%fZ')]

    [_strptime] compiles the format to the case-insensitive expression
    [(?P<Y>\d\d\d\d)-(?P<m>1[0-2]|0[1-9]|[1-9])-(?P<d>3[01]|[12]\d|0[1-9]|[1-9]| [1-9])T]
    [(?P<H>2[0-3]|[0-1]\d|\d):(?P<M>[0-5]\d|\d):(?P<S>6[0-1]|[0-5]\d|\d)\.(?P<f>[0-9]{1,6})Z]
    and requires it to match the whole string.  Each field is a run of
    digits followed by a literal that is not a digit, so a field matches
    exactly when the whole run of digits is one of its alternatives; this is
    what [field_*] check on the run. *)

Definition digit_of (c : ascii) : option Z :=
  let n := code c in if (48 <=? n) && (n <=? 57) then Some (n - 48) else None.

Fixpoint span_digits (cs : list ascii) : list Z * list ascii :=
  match cs with
  | c :: cs' =>
      match digit_of c with
      | Some d => let '(ds, r) := span_digits cs' in (d :: ds, r)
      | None => ([], cs)
      end
  | [] => ([], [])
  end.

Definition digits_value (ds : list Z) : Z := fold_left (fun acc d => acc * 10 + d) ds 0.

Definition field_Y (ds : list Z) : bool := Nat.eqb (length ds) 4.
Definition field_m (ds : list Z) : bool :=
  match ds with
  | [d] => 1 <=? d
  | [0; d] => 1 <=? d
  | [1; d] => d <=? 2
  | _ => false
  end.
Definition field_d (ds : list Z) : bool :=
  match ds with
  | [d] => 1 <=? d
  | [0; d] => 1 <=? d
  | [1; _] | [2; _] => true
  | [3; d] => d <=? 1
  | _ => false
  end.
Definition field_H (ds : list Z) : bool :=
  match ds with
  | [_] => true
  | [d; e] => (d <=? 1) || ((d =? 2) && (e <=? 3))
  | _ => false
  end.
Definition field_M (ds : list Z) : bool :=
  match ds with
  | [_] => true
  | [d; _] => d <=? 5
  | _ => false
  end.
Definition field_S (ds : list Z) : bool :=
  match ds with
  | [_] => true
  | [d; e] => (d <=? 5) || ((d =? 6) && (e <=? 1))
  | _ => false
  end.
Definition field_f (ds : list Z) : bool :=
  (1 <=? length ds)%nat && (length ds <=? 6)%nat.

(** A field: its run of digits must be accepted by [ok]. *)
Definition field (ok : list Z -> bool) (cs : list ascii) : option (list Z * list ascii) :=
  let '(ds, r) := span_digits cs in if ok ds then Some (ds, r) else None.

(** The day field also has the alternative [ [1-9]] (a space, one digit). *)
Definition field_day (cs : list ascii) : option (list Z * list ascii) :=
  match cs with
  | " "%char :: cs' =>
      let '(ds, r) := span_digits cs' in
      match ds with [d] => if 1 <=? d then Some (ds, r) else None | _ => None end
  | _ => field field_d cs
  end.

(** ASCII lower case; no other character of the Latin-1 block folds to an
    ASCII letter, so this is the case folding [re.IGNORECASE] applies to the
    literals of the format. *)
Definition lower (c : ascii) : ascii :=
  let n := code c in if (65 <=? n) && (n <=? 90) then chr (n + 32) else c.

(** A literal character of the format, matched case-insensitively. *)
Definition lit (c : ascii) (cs : list ascii) : option (list ascii) :=
  match cs with
  | c' :: r => if ascii_dec (lower c') (lower c) then Some r else None
  | [] => None
  end.

Definition opt_bind {A B} (o : option A) (k : A -> option B) : option B :=
  match o with Some a => k a | None => None end.

(** The regular-expression match, returning the seven groups of digits. *)
Definition match_checkpoint (cs : list ascii) : option (list (list Z)) :=
  opt_bind (field field_Y cs) (fun '(y, r) =>
  opt_bind (lit "-" r) (fun r =>
  opt_bind (field field_m r) (fun '(mo, r) =>
  opt_bind (lit "-" r) (fun r =>
  opt_bind (field_day r) (fun '(d, r) =>
  opt_bind (lit "T" r) (fun r =>
  opt_bind (field field_H r) (fun '(h, r) =>
  opt_bind (lit ":" r) (fun r =>
  opt_bind (field field_M r) (fun '(mi, r) =>
  opt_bind (lit ":" r) (fun r =>
  opt_bind (field field_S r) (fun '(s, r) =>
  opt_bind (lit "." r) (fun r =>
  opt_bind (field field_f r) (fun '(f, r) =>
  opt_bind (lit "Z" r) (fun r =>
  match r with
  | [] => Some [y; mo; d; h; mi; s; f]
  | _ => None          (* "unconverted data remains" *)
  end)))))))))))))).

(** [%f]: the digits are padded on the right with zeros to six. *)
Definition fraction_value (ds : list Z) : Z := digits_value (ds ++ repeat 0 (6 - length ds)).

Definition strptime_checkpoint (s : string) : res datetime :=
  match match_checkpoint (list_ascii_of_string s) with
  | Some [y; mo; d; h; mi; se; f] =>
      let dt := mk_datetime (digits_value y) (digits_value mo) (digits_value d)
                  (digits_value h) (digits_value mi) (digits_value se) (fraction_value f) in
      if valid_datetime dt then Ret dt
      else Raise (ValueError "day is out of range for month")
  | _ => Raise (ValueError "time data does not match format")
  end.

(** [str(dt)] ([dt.isoformat(sep=' ')]): the microseconds are printed only
    when they are not zero. *)
Definition py_str_datetime (dt : datetime) : string :=
  pad_digits 4 dt.(year) +:+ "-" +:+ pad_digits 2 dt.(month) +:+ "-" +:+ pad_digits 2 dt.(day)
  +:+ " " +:+ pad_digits 2 dt.(hour) +:+ ":" +:+ pad_digits 2 dt.(minute) +:+ ":"
  +:+ pad_digits 2 dt.(second)
  +:+ (if dt.(microsecond) =? 0 then EmptyString else "." +:+ pad_digits 6 dt.(microsecond)).

(** [dt.replace(tzinfo=timezone.utc).isoformat()] *)
Definition isoformat_utc (dt : datetime) : string :=
  pad_digits 4 dt.(year) +:+ "-" +:+ pad_digits 2 dt.(month) +:+ "-" +:+ pad_digits 2 dt.(day)
  +:+ "T" +:+ pad_digits 2 dt.(hour) +:+ ":" +:+ pad_digits 2 dt.(minute) +:+ ":"
  +:+ pad_digits 2 dt.(second)
  +:+ (if dt.(microsecond) =? 0 then EmptyString else "." +:+ pad_digits 6 dt.(microsecond))
  +:+ "+00:00".

(** ** The receiving side of [x-ms-date]

    The HTTP Data Collector API reads the [x-ms-date] header as an HTTP
    date in the IMF-fixdate form of RFC 7231 (section 7.1.1.1):
    [Ddd, DD Mon YYYY HH:MM:SS GMT], 29 characters, the day name and the
    month name from the C locale's lists, the numbers with leading zeros.
    [parse_imf_fixdate] is that reading; it is not code of the program but
    the contract the header [post_data] sends must satisfy. *)
Fixpoint digits_of (cs : list ascii) : option (list Z) :=
  match cs with
  | [] => Some []
  | c :: r => match digit_of c, digits_of r with Some d, Some ds => Some (d :: ds) | _, _ => None end
  end.

Definition number_of (cs : list ascii) : option Z := option_map digits_value (digits_of cs).

Fixpoint index_from (x : string) (l : list string) (i : Z) : option Z :=
  match l with [] => None | y :: l' => if String.eqb y x then Some i else index_from x l' (i + 1) end.

Definition month_index (m : string) : option Z := index_from m month_names 1.

Definition is_weekday (w : string) : bool := existsb (String.eqb w) weekday_names.

Definition parse_imf_fixdate (s : string) : option (Z * Z * Z * Z * Z * Z) :=
  match list_ascii_of_string s with
  | [w1; w2; w3; c1; sp1; d1; d2; sp2; m1; m2; m3; sp3; y1; y2; y3; y4; sp4;
     h1; h2; co1; i1; i2; co2; s1; s2; sp5; g1; g2; g3] =>
      if is_weekday (string_of_list_ascii [w1; w2; w3]) &&
         String.eqb (string_of_list_ascii [c1; sp1; sp2; sp3; sp4; co1; co2; sp5; g1; g2; g3]) ",    :: GMT"
      then match number_of [d1; d2], month_index (string_of_list_ascii [m1; m2; m3]),
                 number_of [y1; y2; y3; y4], number_of [h1; h2], number_of [i1; i2], number_of [s1; s2] with
           | Some d, Some m, Some y, Some h, Some i, Some sc => Some (y, m, d, h, i, sc)
           | _, _, _, _, _, _ => None
           end
      else None
  | _ => None
  end.

(** ** The checkpoint texts of the destination

    A [datetime] column of a Log Analytics query comes back in ISO 8601
    form, [YYYY-MM-DDTHH:MM:SS.<fraction>Z]; [checkpoint_text] writes a
    text of that shape with the digits [fs] as its fraction and the
    letters [t] and [z] in either case. It describes the inputs of
    [strptime_checkpoint]; it is not code of the program. *)
Fixpoint pad_list (n : nat) (v : Z) : list Z :=
  match n with O => [] | S n' => pad_list n' (v / 10) ++ [v mod 10] end.

Definition checkpoint_text (y mo d h mi s : Z) (t : ascii) (fs : list Z) (z : ascii) : string :=
  pad_digits 4 y +:+ "-" +:+ pad_digits 2 mo +:+ "-" +:+ pad_digits 2 d
  +:+ String t (pad_digits 2 h +:+ ":" +:+ pad_digits 2 mi +:+ ":" +:+ pad_digits 2 s
  +:+ "." +:+ string_of_list_ascii (map digit_char fs) +:+ String z EmptyString).

(** ** Calendar checks *)

(** A date of the proleptic Gregorian calendar. *)
Definition valid_date (y m d : Z) : bool :=
  (1 <=? m) && (m <=? 12) && (1 <=? d) && (d <=? days_in_month y m).

(** The check of one 400-year cycle: [ord2ymd] maps the ordinal [n] to a
    valid date of the years 1..400 whose ordinal is [n]. *)
Definition ord_ok (n : Z) : bool :=
  let '(y, m, d) := ord2ymd n in
  valid_date y m d && (1 <=? y) && (y <=? 400) && (ymd2ord y m d =? n).

Fixpoint all_from (f : Z -> bool) (n : Z) (k : nat) : bool :=
  match k with O => true | S k' => f n && all_from f (n + 1) k' end.

(** The days of a 400-year cycle. *)
Definition cycle_days : nat := Z.to_nat 146097.

(** ** Lemmas on the calendar *)

Lemma div_step k y : k = 4 \/ k = 100 \/ k = 400 -> y / k = (y - 1) / k + (if y mod k =? 0 then 1 else 0).
Proof.
  intros Hk. assert (0 < k) as Hp by lia.
  pose proof (Z.div_mod y k ltac:(lia)). pose proof (Z.div_mod (y - 1) k ltac:(lia)).
  pose proof (Z.mod_pos_bound y k Hp). pose proof (Z.mod_pos_bound (y - 1) k Hp).
  destruct Hk as [->|[->| ->]]; [destruct (Z.eqb_spec (y mod 4) 0) | destruct (Z.eqb_spec (y mod 100) 0) | destruct (Z.eqb_spec (y mod 400) 0)]; lia.
Qed.

Lemma mod_0_divide a b y : (a | b) -> b <> 0 -> y mod b = 0 -> y mod a = 0.
Proof.
  intros Hab Hb Hy. destruct (Z.eq_dec a 0) as [->|Ha]; [by rewrite Z.mod_0_r in *; destruct Hab; lia|].
  apply Z.mod_divide; [done|]. apply Z.mod_divide in Hy; [|done]. by eapply Z.divide_trans.
Qed.

Lemma days_before_year_succ y :
  days_before_year (y + 1) = days_before_year y + (if is_leap y then 366 else 365).
Proof.
  unfold days_before_year, is_leap. replace (y + 1 - 1) with y by lia.
  rewrite (div_step 4 y), (div_step 100 y), (div_step 400 y) by lia.
  pose proof (mod_0_divide 4 100 y ltac:(by exists 25) ltac:(discriminate)).
  pose proof (mod_0_divide 100 400 y ltac:(by exists 4) ltac:(discriminate)).
  destruct (Z.eqb_spec (y mod 4) 0), (Z.eqb_spec (y mod 100) 0), (Z.eqb_spec (y mod 400) 0);
    simpl; lia.
Qed.

Lemma days_before_year_mono y (n : nat) : days_before_year y + 365 * Z.of_nat n <= days_before_year (y + Z.of_nat n).
Proof.
  induction n as [|n IH]; [simpl; rewrite !Z.add_0_r; lia|].
  replace (y + Z.of_nat (S n)) with (y + Z.of_nat n + 1) by lia.
  rewrite days_before_year_succ. destruct (is_leap _); lia.
Qed.

Lemma days_before_year_1 : days_before_year 1 = 0.
Proof. reflexivity. Qed.

(** The months of a year follow one another. *)
Lemma days_before_month_next y m m' :
  1 <= m < m' -> m' <= 12 -> days_before_month y m + days_in_month y m <= days_before_month y m'.
Proof.
  intros Hm Hm'. unfold days_before_month, days_in_month.
  assert (m = 1 \/ m = 2 \/ m = 3 \/ m = 4 \/ m = 5 \/ m = 6 \/ m = 7 \/ m = 8 \/ m = 9 \/ m = 10 \/ m = 11)
    as Hc by lia.
  assert (m' = 2 \/ m' = 3 \/ m' = 4 \/ m' = 5 \/ m' = 6 \/ m' = 7 \/ m' = 8 \/ m' = 9 \/ m' = 10 \/ m' = 11 \/ m' = 12)
    as Hc' by lia.
  destruct (is_leap y); repeat destruct Hc as [->|Hc]; subst; repeat destruct Hc' as [->|Hc']; subst;
    cbv; try lia; discriminate.
Qed.

Lemma days_in_year y :
  days_before_month y 12 + days_in_month y 12 = if is_leap y then 366 else 365.
Proof. unfold days_before_month, days_in_month. by destruct (is_leap y). Qed.

Lemma days_before_month_nonneg y m : 1 <= m <= 12 -> 0 <= days_before_month y m.
Proof.
  intros Hm. destruct (Z.eq_dec m 1) as [->|]; [by destruct (is_leap y)|].
  pose proof (days_before_month_next y 1 m ltac:(lia) ltac:(lia)).
  unfold days_before_month, days_in_month in *. change (days_before_month_table 1) with 0 in H.
  change (days_in_month_table 1) with 31 in H. destruct (is_leap y); simpl in *; lia.
Qed.

Lemma valid_date_spec y m d :
  valid_date y m d = true <-> 1 <= m <= 12 /\ 1 <= d <= days_in_month y m.
Proof. unfold valid_date. rewrite !andb_true_iff, !Z.leb_le. tauto. Qed.

(** The ordinal of a date is at most the ordinal of the last day of its
    year. *)
Lemma ymd2ord_year_end y m d :
  valid_date y m d = true -> ymd2ord y m d <= days_before_year (y + 1).
Proof.
  intros (Hm & Hd)%valid_date_spec. unfold ymd2ord. rewrite days_before_year_succ, <- days_in_year.
  destruct (Z.eq_dec m 12) as [->|]; [lia|].
  pose proof (days_before_month_next y m 12 ltac:(lia) ltac:(lia)).
  assert (days_in_month y 12 = 31) by reflexivity. lia.
Qed.

(** [ymd2ord] is strictly increasing in the order of the dates. *)
Lemma ymd2ord_lt y1 m1 d1 y2 m2 d2 :
  valid_date y1 m1 d1 = true -> valid_date y2 m2 d2 = true ->
  (y1 < y2 \/ (y1 = y2 /\ (m1 < m2 \/ (m1 = m2 /\ d1 < d2)))) ->
  ymd2ord y1 m1 d1 < ymd2ord y2 m2 d2.
Proof.
  intros H1 H2 Hlt. pose proof H2 as (Hm2 & Hd2)%valid_date_spec.
  pose proof H1 as (Hm1 & Hd1)%valid_date_spec.
  destruct Hlt as [Hy|[-> [Hm|[-> Hd]]]].
  - pose proof (ymd2ord_year_end y1 m1 d1 H1).
    pose proof (days_before_year_mono (y1 + 1) (Z.to_nat (y2 - y1 - 1))).
    rewrite Z2Nat.id in * by lia. replace (y1 + 1 + (y2 - y1 - 1)) with y2 in * by lia.
    pose proof (days_before_month_nonneg y2 m2 Hm2). unfold ymd2ord in *. lia.
  - pose proof (days_before_month_next y2 m1 m2 ltac:(lia) ltac:(lia)). unfold ymd2ord. lia.
  - unfold ymd2ord. lia.
Qed.

(** ** The 400-year cycle *)

Lemma is_leap_400 y : is_leap (y + 400) = is_leap y.
Proof.
  unfold is_leap.
  replace (y + 400) with (y + 100 * 4) by lia. rewrite Z.mod_add by lia.
  replace (y + 100 * 4) with (y + 4 * 100) by lia. rewrite Z.mod_add by lia.
  replace (y + 4 * 100) with (y + 1 * 400) by lia. by rewrite Z.mod_add by lia.
Qed.

Lemma ymd2ord_400 y m d : ymd2ord (y + 400) m d = ymd2ord y m d + 146097.
Proof.
  unfold ymd2ord, days_before_month, days_before_year. rewrite is_leap_400.
  replace (y + 400 - 1) with (y - 1 + 400) by lia.
  assert (E4 : (y - 1 + 400) / 4 = (y - 1) / 4 + 100) by (rewrite <- Z.div_add by lia; f_equal; lia).
  assert (E100 : (y - 1 + 400) / 100 = (y - 1) / 100 + 4) by (rewrite <- Z.div_add by lia; f_equal; lia).
  assert (E400 : (y - 1 + 400) / 400 = (y - 1) / 400 + 1) by (rewrite <- Z.div_add by lia; f_equal; lia).
  rewrite E4, E100, E400. lia.
Qed.

Lemma days_in_month_400 y m : days_in_month (y + 400) m = days_in_month y m.
Proof. unfold days_in_month. by rewrite is_leap_400. Qed.

Lemma ord2ymd_400 n :
  ord2ymd (n + 146097) = (let '(y, m, d) := ord2ymd n in (y + 400, m, d)).
Proof.
  unfold ord2ymd. change DI400Y with 146097.
  replace (n + 146097 - 1) with ((n - 1) + 1 * 146097) by lia.
  rewrite Z.div_add, Z.mod_add by lia. cbv zeta.
  destruct (_ || _); [f_equal; f_equal; lia|].
  destruct (_ <? _); f_equal; f_equal; lia.
Qed.

Lemma all_from_spec f n k i :
  all_from f n k = true -> n <= i < n + Z.of_nat k -> f i = true.
Proof.
  revert n. induction k as [|k IH]; intros n Hall Hi; [lia|].
  simpl in Hall. apply andb_true_iff in Hall as [Hf Hall].
  destruct (Z.eq_dec i n) as [->|]; [done|]. apply (IH (n + 1)); [done | lia].
Qed.

(** The first 400-year cycle, checked day by day. *)
Lemma ord_ok_cycle : all_from ord_ok 1 cycle_days = true.
Proof. vm_compute. reflexivity. Qed.

(** Every ordinal from 1 on is the ordinal of the valid date [ord2ymd]
    gives, in a year from 1 on. *)
Lemma ord2ymd_spec n :
  1 <= n ->
  let '(y, m, d) := ord2ymd n in valid_date y m d = true /\ 1 <= y /\ ymd2ord y m d = n.
Proof.
  intros Hn.
  assert (Hq : forall q : nat, forall r, 1 <= r <= 146097 ->
    let '(y, m, d) := ord2ymd (r + Z.of_nat q * 146097) in
    valid_date y m d = true /\ 1 <= y /\ ymd2ord y m d = r + Z.of_nat q * 146097).
  { induction q as [|q IH]; intros r Hr.
    - rewrite Z.mul_0_l, Z.add_0_r.
      pose proof (all_from_spec ord_ok 1 cycle_days r ord_ok_cycle ltac:(unfold cycle_days; lia)) as Hok.
      unfold ord_ok in Hok. destruct (ord2ymd r) as [[y m] d].
      rewrite !andb_true_iff, !Z.leb_le, Z.eqb_eq in Hok. tauto.
    - replace (r + Z.of_nat (S q) * 146097) with ((r + Z.of_nat q * 146097) + 146097) by lia.
      rewrite ord2ymd_400. specialize (IH r Hr). destruct (ord2ymd _) as [[y m] d].
      destruct IH as (Hv & Hy & Ho). unfold valid_date in *. rewrite days_in_month_400, ymd2ord_400.
      repeat split; [done | lia | lia]. }
  specialize (Hq (Z.to_nat ((n - 1) / 146097)) ((n - 1) mod 146097 + 1)).
  rewrite Z2Nat.id in Hq by (apply Z.div_pos; lia).
  replace ((n - 1) mod 146097 + 1 + (n - 1) / 146097 * 146097) with n in Hq
    by (pose proof (Z.div_mod (n - 1) 146097); lia).
  apply Hq. pose proof (Z.mod_pos_bound (n - 1) 146097). lia.
Qed.

(** C23 (calendar round trip): [_ord2ymd] inverts [_ymd2ord] on every
    valid date from year 1 on, so [date.fromordinal(d.toordinal()) == d]
    and the date arithmetic of [timedelta] loses no day. *)
Theorem ord2ymd_ymd2ord y m d :
  valid_date y m d = true -> 1 <= y -> ord2ymd (ymd2ord y m d) = (y, m, d).
Proof.
  intros Hv Hy. pose proof Hv as (Hm & Hd)%valid_date_spec.
  assert (1 <= ymd2ord y m d).
  { pose proof (days_before_year_mono 1 (Z.to_nat (y - 1))). rewrite Z2Nat.id in * by lia.
    replace (1 + (y - 1)) with y in * by lia. rewrite days_before_year_1 in *.
    pose proof (days_before_month_nonneg y m Hm). unfold ymd2ord. lia. }
  pose proof (ord2ymd_spec (ymd2ord y m d) H) as Hs.
  destruct (ord2ymd _) as [[y' m'] d'] eqn:E. destruct Hs as (Hv' & Hy' & Ho).
  destruct (Z.lt_total y y') as [Hlt|[<-|Hlt]];
    [pose proof (ymd2ord_lt y m d y' m' d' Hv Hv' ltac:(lia)); lia| |
     pose proof (ymd2ord_lt y' m' d' y m d Hv' Hv ltac:(lia)); lia].
  destruct (Z.lt_total m m') as [Hlt|[<-|Hlt]];
    [pose proof (ymd2ord_lt y m d y m' d' Hv Hv' ltac:(lia)); lia| |
     pose proof (ymd2ord_lt y m' d' y m d Hv' Hv ltac:(lia)); lia].
  destruct (Z.lt_total d d') as [Hlt|[<-|Hlt]];
    [pose proof (ymd2ord_lt y m d y m d' Hv Hv' ltac:(lia)); lia| done |
     pose proof (ymd2ord_lt y m d' y m d Hv' Hv ltac:(lia)); lia].
Qed.

(** Two valid dates in the order of their ordinals are in the order of
    their fields. *)
Lemma ymd2ord_lt_inv y1 m1 d1 y2 m2 d2 :
  valid_date y1 m1 d1 = true -> valid_date y2 m2 d2 = true ->
  ymd2ord y1 m1 d1 < ymd2ord y2 m2 d2 ->
  y1 < y2 \/ (y1 = y2 /\ (m1 < m2 \/ (m1 = m2 /\ d1 < d2))).
Proof.
  intros H1 H2 Hlt.
  destruct (Z.lt_total y1 y2) as [|[<-|Hy]]; [by left| |
    pose proof (ymd2ord_lt y2 m2 d2 y1 m1 d1 H2 H1 ltac:(lia)); lia].
  destruct (Z.lt_total m1 m2) as [|[<-|Hm]]; [by right; split; [|left]| |
    pose proof (ymd2ord_lt y1 m2 d2 y1 m1 d1 H2 H1 ltac:(lia)); lia].
  unfold ymd2ord in Hlt. right. split; [done|]. right. lia.
Qed.

(** A datetime whose date comes first in the calendar is earlier
    ([datetime.__le__]), whatever the times of day. *)
Lemma dt_le_toordinal a b :
  valid_date a.(year) a.(month) a.(day) = true -> valid_date b.(year) b.(month) b.(day) = true ->
  toordinal a < toordinal b -> dt_le a b = true.
Proof.
  intros Ha Hb Hlt. unfold dt_le, dt_key, lex_le.
  destruct (ymd2ord_lt_inv _ _ _ _ _ _ Ha Hb Hlt) as [Hy|[-> [Hm|[-> Hd]]]].
  - apply Z.ltb_lt in Hy. by rewrite Hy.
  - apply Z.ltb_lt in Hm. by rewrite Z.ltb_irrefl, Z.eqb_refl, Hm.
  - apply Z.ltb_lt in Hd. by rewrite !Z.ltb_irrefl, !Z.eqb_refl, Hd.
Qed.

(** [dt + timedelta(days=k)] within the range of [datetime]: the date
    moves by exactly [k] days to a valid date, the time of day is kept, and
    a valid datetime stays valid. *)
Lemma add_days_spec dt k :
  valid_datetime dt = true -> 0 < toordinal dt + k <= MAXORDINAL ->
  exists dt', add_days dt k = Ret dt' /\ valid_datetime dt' = true /\
    toordinal dt' = toordinal dt + k /\
    dt'.(hour) = dt.(hour) /\ dt'.(minute) = dt.(minute) /\
    dt'.(second) = dt.(second) /\ dt'.(microsecond) = dt.(microsecond).
Proof.
  intros Hv Ho. unfold add_days.
  replace ((0 <? toordinal dt + k) && (toordinal dt + k <=? MAXORDINAL)) with true
    by (symmetry; apply andb_true_iff; rewrite Z.ltb_lt, Z.leb_le; lia).
  pose proof (ord2ymd_spec (toordinal dt + k) ltac:(lia)) as Hs.
  destruct (ord2ymd _) as [[y m] d]. destruct Hs as (Hd & Hy & Hord).
  eexists. split; [reflexivity|]. cbn. repeat split; try done.
  assert (y <= 9999).
  { destruct (Z.le_gt_cases y 9999) as [|Hgt]; [done|].
    pose proof (ymd2ord_lt 9999 12 31 y m d eq_refl Hd ltac:(lia)).
    unfold MAXORDINAL in Ho. change (ymd2ord 9999 12 31) with 3652059 in *. lia. }
  unfold valid_datetime, valid_date in *. cbn in *.
  rewrite !andb_true_iff in Hv |- *. rewrite !andb_true_iff in Hd. rewrite !Z.leb_le in *. tauto.
Qed.

Lemma valid_datetime_date dt :
  valid_datetime dt = true -> valid_date dt.(year) dt.(month) dt.(day) = true /\ 1 <= dt.(year).
Proof.
  unfold valid_datetime, valid_date. rewrite !andb_true_iff, !Z.leb_le. tauto.
Qed.

(** ** The [x-ms-date] header reads back *)

Lemma weekday_abbr_shape dt :
  exists a b c, weekday_abbr dt = String a (String b (String c EmptyString)) /\
                is_weekday (String a (String b (String c EmptyString))) = true.
Proof.
  unfold weekday_abbr. pose proof (Z.mod_pos_bound (toordinal dt + 6) 7 ltac:(lia)) as Hb.
  assert (Hk : (Z.to_nat ((toordinal dt + 6) mod 7) < 7)%nat) by lia.
  destruct (Z.to_nat _) as [|[|[|[|[|[|[|k]]]]]]]; [eexists _, _, _; split; reflexivity .. | lia].
Qed.

Lemma month_abbr_shape m :
  1 <= m <= 12 ->
  exists a b c, month_abbr m = String a (String b (String c EmptyString)) /\
                month_index (String a (String b (String c EmptyString))) = Some m.
Proof.
  intros Hm. assert (m = 1 \/ m = 2 \/ m = 3 \/ m = 4 \/ m = 5 \/ m = 6 \/ m = 7 \/ m = 8 \/
                     m = 9 \/ m = 10 \/ m = 11 \/ m = 12) as Hc by lia.
  repeat destruct Hc as [-> | Hc]; [eexists _, _, _; split; reflexivity ..|].
  subst. eexists _, _, _. split; reflexivity.
Qed.

Lemma days_in_month_le31 y m : days_in_month y m <= 31.
Proof.
  unfold days_in_month, days_in_month_table. destruct (_ && _); [lia|].
  destruct (Z.to_nat m) as [|[|[|[|[|[|[|[|[|[|[|[|[|k]]]]]]]]]]]]]; cbn; try lia. by destruct k.
Qed.

Lemma digit_of_digit_char d : 0 <= d < 10 -> digit_of (digit_char d) = Some d.
Proof.
  intros Hd. unfold digit_of, digit_char. rewrite code_chr, Z.mod_small by lia.
  replace ((48 <=? 48 + d) && (48 + d <=? 57)) with true by (symmetry; apply andb_true_iff; lia).
  f_equal. lia.
Qed.

Lemma pad_digits_2 v :
  list_ascii_of_string (pad_digits 2 v) = [digit_char (v / 10 mod 10); digit_char (v mod 10)].
Proof. reflexivity. Qed.

Lemma pad_digits_4 v :
  list_ascii_of_string (pad_digits 4 v) =
  [digit_char (v / 10 / 10 / 10 mod 10); digit_char (v / 10 / 10 mod 10);
   digit_char (v / 10 mod 10); digit_char (v mod 10)].
Proof. reflexivity. Qed.

Lemma number_of_pad2 v :
  0 <= v < 100 -> number_of [digit_char (v / 10 mod 10); digit_char (v mod 10)] = Some v.
Proof.
  intros Hv. unfold number_of. cbn [digits_of].
  rewrite !digit_of_digit_char by (apply Z.mod_pos_bound; lia). cbn. f_equal.
  Z.div_mod_to_equations. lia.
Qed.

Lemma number_of_pad4 v :
  0 <= v < 10000 ->
  number_of [digit_char (v / 10 / 10 / 10 mod 10); digit_char (v / 10 / 10 mod 10);
             digit_char (v / 10 mod 10); digit_char (v mod 10)] = Some v.
Proof.
  intros Hv. unfold number_of. cbn [digits_of].
  rewrite !digit_of_digit_char by (apply Z.mod_pos_bound; lia). cbn. f_equal.
  Z.div_mod_to_equations. lia.
Qed.

Lemma pad_digits_length n v : length (list_ascii_of_string (pad_digits n v)) = n.
Proof.
  revert v. induction n as [|n IH]; intros v; [done|].
  cbn [pad_digits]. rewrite list_ascii_of_string_app, length_app, IH. simpl. lia.
Qed.

Lemma strftime_Y_4 y : 1000 <= y -> strftime_Y y = pad_digits 4 y.
Proof. intros Hy. unfold strftime_Y, year_width.
  destruct (Z.ltb_spec y 10), (Z.ltb_spec y 100), (Z.ltb_spec y 1000); done || lia.
Qed.

Lemma year_width_short y : y < 1000 -> (year_width y <= 3)%nat.
Proof. intros Hy. unfold year_width.
  destruct (Z.ltb_spec y 10), (Z.ltb_spec y 100), (Z.ltb_spec y 1000); lia.
Qed.

(** Anything but 29 characters is not an IMF-fixdate. *)
Lemma parse_imf_fixdate_length s :
  length (list_ascii_of_string s) <> 29%nat -> parse_imf_fixdate s = None.
Proof.
  unfold parse_imf_fixdate. destruct (list_ascii_of_string s) as [|c l]; [done|].
  intros Hl. do 28 (destruct l as [|? l]; [reflexivity|]). destruct l; [simpl in Hl; lia | reflexivity].
Qed.

Lemma rfc1123_length dt :
  1 <= dt.(month) <= 12 ->
  length (list_ascii_of_string (rfc1123 dt)) = (25 + year_width dt.(year))%nat.
Proof.
  intros Hm. destruct (weekday_abbr_shape dt) as (a & b & c & Hw & _).
  destruct (month_abbr_shape _ Hm) as (a' & b' & c' & Hmo & _).
  unfold rfc1123, strftime_Y. rewrite Hw, Hmo, !list_ascii_of_string_app, !length_app, !pad_digits_length.
  simpl. lia.
Qed.

(** C36 (the date header reads back exactly for four-digit years): for
    every valid datetime, the [x-ms-date] value [post_data] builds with
    [strftime('%a, %d %b %Y %H:%M:%S GMT')] is an RFC 1123 IMF-fixdate from
    which the receiver reads back the year, month, day, hour, minute and
    second of the clock reading when the year has four digits; for a year
    below 1000 glibc prints the year without padding, the header is shorter
    than 29 characters and the receiver reads no date from it. *)
Theorem rfc1123_reads_back dt :
  valid_datetime dt = true ->
  parse_imf_fixdate (rfc1123 dt) =
    if 1000 <=? dt.(year)
    then Some (dt.(year), dt.(month), dt.(day), dt.(hour), dt.(minute), dt.(second))
    else None.
Proof.
  destruct dt as [y mo d h mi sc us]. unfold valid_datetime. cbn [year month day hour minute second microsecond].
  rewrite !andb_true_iff, !Z.leb_le. intros Hv. repeat match goal with H : _ /\ _ |- _ => destruct H end.
  destruct (Z.leb_spec 1000 y) as [Hy|Hy].
  - pose proof (days_in_month_le31 y mo) as Hdm.
    destruct (weekday_abbr_shape (mk_datetime y mo d h mi sc us)) as (a & b & c & Hw & Hwd).
    destruct (month_abbr_shape mo ltac:(lia)) as (a' & b' & c' & Hm & Hmi).
    unfold rfc1123, parse_imf_fixdate. rewrite Hw. cbn [year month day hour minute second].
    rewrite Hm, (strftime_Y_4 y Hy).
    rewrite !list_ascii_of_string_app, !pad_digits_2, pad_digits_4. cbn [list_ascii_of_string app].
    cbn -[is_weekday month_index number_of digit_char Z.div Z.modulo]. rewrite Hwd, Hmi.
    rewrite !number_of_pad2, number_of_pad4 by lia. reflexivity.
  - apply parse_imf_fixdate_length. rewrite rfc1123_length by (cbn; lia).
    pose proof (year_width_short y Hy). cbn [year]. lia.
Qed.

(** ** The fractions [strptime] accepts *)

Lemma pad_digits_list n v : list_ascii_of_string (pad_digits n v) = map digit_char (pad_list n v).
Proof.
  revert v. induction n as [|n IH]; intros v; [done|].
  cbn [pad_digits pad_list]. by rewrite list_ascii_of_string_app, IH, map_app.
Qed.

Lemma pad_list_digits n v : Forall (fun x => 0 <= x < 10) (pad_list n v).
Proof.
  revert v. induction n as [|n IH]; intros v; [constructor|]. cbn [pad_list].
  apply Forall_app. split; [apply IH | constructor; [apply Z.mod_pos_bound; lia | constructor]].
Qed.

Lemma span_digits_app ds c r :
  Forall (fun x => 0 <= x < 10) ds -> digit_of c = None ->
  span_digits (map digit_char ds ++ c :: r) = (ds, c :: r).
Proof.
  intros Hds Hc. induction Hds as [|x ds Hx _ IH]; cbn; [by rewrite Hc|].
  by rewrite digit_of_digit_char, IH.
Qed.

Lemma field_digits ok ds c r :
  Forall (fun x => 0 <= x < 10) ds -> digit_of c = None ->
  field ok (map digit_char ds ++ c :: r) = if ok ds then Some (ds, c :: r) else None.
Proof. intros Hds Hc. unfold field. by rewrite span_digits_app. Qed.

(** A digit is not the space of the day's alternative [ [1-9]]. *)
Lemma field_day_digits ds c r :
  ds <> [] -> Forall (fun x => 0 <= x < 10) ds ->
  field_day (map digit_char ds ++ c :: r) = field field_d (map digit_char ds ++ c :: r).
Proof.
  intros Hne Hds. destruct Hds as [|x ds Hx _]; [done|].
  assert (x = 0 \/ x = 1 \/ x = 2 \/ x = 3 \/ x = 4 \/ x = 5 \/ x = 6 \/ x = 7 \/ x = 8 \/ x = 9)
    as Hc by lia.
  by repeat destruct Hc as [-> | Hc]; [..|subst].
Qed.

Lemma lit_fold c c' r : lower c' = lower c -> lit c (c' :: r) = Some r.
Proof. intros H. unfold lit. by destruct (ascii_dec _ _). Qed.

Lemma digits_value_pad2 v : 0 <= v < 100 -> digits_value (pad_list 2 v) = v.
Proof. intros Hv. cbn. Z.div_mod_to_equations. lia. Qed.

Lemma digits_value_pad4 v : 0 <= v < 10000 -> digits_value (pad_list 4 v) = v.
Proof. intros Hv. cbn. Z.div_mod_to_equations. lia. Qed.

(** The two-digit groups of the format accept every value of their range,
    checked value by value. *)
Lemma pad2_fields mo d h mi s :
  1 <= mo <= 12 -> 1 <= d <= 31 -> 0 <= h <= 23 -> 0 <= mi <= 59 -> 0 <= s <= 61 ->
  field_m (pad_list 2 mo) = true /\ field_d (pad_list 2 d) = true /\ field_H (pad_list 2 h) = true /\
  field_M (pad_list 2 mi) = true /\ field_S (pad_list 2 s) = true.
Proof.
  intros Hmo Hd Hh Hmi Hs.
  split; [apply (all_from_spec (fun v => field_m (pad_list 2 v)) 1 12); [vm_compute; reflexivity | lia]|].
  split; [apply (all_from_spec (fun v => field_d (pad_list 2 v)) 1 31); [vm_compute; reflexivity | lia]|].
  split; [apply (all_from_spec (fun v => field_H (pad_list 2 v)) 0 24); [vm_compute; reflexivity | lia]|].
  split; [apply (all_from_spec (fun v => field_M (pad_list 2 v)) 0 60); [vm_compute; reflexivity | lia]|].
  apply (all_from_spec (fun v => field_S (pad_list 2 v)) 0 62); [vm_compute; reflexivity | lia].
Qed.

(** C18 (the fractions the parse accepts): for every checkpoint text
    [YYYY-MM-DDTHH:MM:SS.<fraction>Z] whose groups are in the ranges of the
    format's expression, with either letter case for [T] and [Z],
    [strptime(..., '%Y-%m-%dT%H:%M:%S.%fZ')] matches exactly when the
    fraction has one to six digits, padding it on the right to
    microseconds; a text with no fractional digit or with seven or more
    (the 100 ns precision of a Kusto [datetime]) raises
    [ValueError('time data ... does not match format')], and a matched text
    whose date or time is outside the calendar ([2021-02-30], second 60)
    raises a [ValueError] of the constructor. *)
Theorem strptime_checkpoint_fraction_rule y mo d h mi s t fs z :
  0 <= y <= 9999 -> 1 <= mo <= 12 -> 1 <= d <= 31 -> 0 <= h <= 23 -> 0 <= mi <= 59 -> 0 <= s <= 61 ->
  (t = "T"%char \/ t = "t"%char) -> (z = "Z"%char \/ z = "z"%char) ->
  Forall (fun x => 0 <= x < 10) fs ->
  strptime_checkpoint (checkpoint_text y mo d h mi s t fs z) =
    if (1 <=? length fs)%nat && (length fs <=? 6)%nat then
      let dt := mk_datetime y mo d h mi s (fraction_value fs) in
      if valid_datetime dt then Ret dt else Raise (ValueError "day is out of range for month")
    else Raise (ValueError "time data does not match format").
Proof.
  intros Hy Hmo Hd Hh Hmi Hs Ht Hz Hfs.
  destruct (pad2_fields mo d h mi s Hmo Hd Hh Hmi Hs) as (Fm & Fd & FH & FM & FS).
  assert (Lt : lower t = lower "T") by (destruct Ht; subst; reflexivity).
  assert (Lz : lower z = lower "Z") by (destruct Hz; subst; reflexivity).
  assert (Dz : digit_of z = None) by (destruct Hz; subst; reflexivity).
  assert (Dt : digit_of t = None) by (destruct Ht; subst; reflexivity).
  assert (FY : field_Y (pad_list 4 y) = true) by reflexivity.
  unfold strptime_checkpoint, checkpoint_text.
  rewrite !list_ascii_of_string_app. cbn [list_ascii_of_string].
  rewrite !list_ascii_of_string_app, !pad_digits_list, list_ascii_of_string_of_list_ascii.
  cbn [list_ascii_of_string app]. unfold match_checkpoint.
  repeat first [ rewrite field_day_digits by (done || apply pad_list_digits)
               | rewrite field_digits by (apply pad_list_digits || done || reflexivity)
               | rewrite lit_fold by (done || reflexivity)
               | progress rewrite ?FY, ?Fm, ?Fd, ?FH, ?FM, ?FS
               | progress cbn [opt_bind] ].
  unfold field_f. destruct (_ && _); [|reflexivity].
  cbn [opt_bind]. rewrite lit_fold by done. cbn [opt_bind].
  by rewrite digits_value_pad4, !digits_value_pad2 by lia.
Qed.
