(* ===== verification/Json.v ===== *)
(** * Json: [json.dumps(doc, indent=..., sort_keys=True)]

    The collector serialises each audit event with
    [json.dumps(jsondoc, indent=4, sort_keys=True)], and [str(event)] is
    [json.dumps] with [indent=2] and [ensure_ascii=False] (see JsonLoads).
    A JSON document is the inductive [json] (objects as association lists,
    in the order of the Python dict); [dumps_at] follows
    [json.encoder._make_iterencode] for an [encoder] (the [indent] and the
    [ensure_ascii] flag), with the default separators [(',', ': ')]:
    [encode_basestring_ascii] or [encode_basestring] for strings, a
    non-empty container opens a new line indented by [indent] more spaces
    per level, an empty one prints [[]] or [{}],
    and the items of an object are emitted in the order of [sorted] on their
    keys.  The encoder lives in the standard library, not under src/; its
    definitions are modelled from CPython's [json] module.  Numbers are the
    integers of the documents ([int.__repr__]); floats are not modelled.
    [dumps] is the collector's call.
    The laws: with [ensure_ascii] the output is ASCII at every depth, and two well-formed
    documents with the same key-sorted normal form [json_norm] print the
    same text. *)

From Stdlib Require Import String Ascii ZArith List Lia.
From stdpp Require Import base list sorting strings.
From S2P Require Import Prelude Text.

Open Scope Z_scope.

#[local] Unset Elimination Schemes.
Inductive json :=
| JNull
| JBool (b : bool)
| JInt (z : Z)
| JStr (s : string)
| JArr (xs : list json)
| JObj (kvs : list (string * json)).
#[local] Set Elimination Schemes.

(** Induction on JSON documents, with the hypothesis on every element of
    an array and on the value of every member of an object. *)
Definition json_ind (P : json -> Prop) (fnull : P JNull) (fbool : forall b, P (JBool b))
    (fint : forall z, P (JInt z)) (fstr : forall s, P (JStr s))
    (farr : forall xs, Forall P xs -> P (JArr xs))
    (fobj : forall kvs, Forall (fun kv => P kv.2) kvs -> P (JObj kvs)) : forall v, P v :=
  fix F v :=
    match v with
    | JNull => fnull
    | JBool b => fbool b
    | JInt z => fint z
    | JStr s => fstr s
    | JArr xs => farr xs ((fix G xs : Forall P xs :=
         match xs with [] => List.Forall_nil _ | x :: xs' => @List.Forall_cons _ P x xs' (F x) (G xs') end) xs)
    | JObj kvs => fobj kvs ((fix G kvs : Forall (fun kv => P kv.2) kvs :=
         match kvs with
         | [] => List.Forall_nil _
         | kv :: kvs' => @List.Forall_cons _ (fun kv => P kv.2) kv kvs' (F kv.2) (G kvs')
         end) kvs)
    end.

(** ** Strings: [py_encode_basestring_ascii] and [py_encode_basestring] *)

Definition hex_digit (d : Z) : ascii := if d <? 10 then chr (48 + d) else chr (87 + d).

(** ['\\u{0:04x}'.format(n)] *)
Definition u_escape (n : Z) : string :=
  char_of 92 +:+ "u" +:+ String (hex_digit (n / 4096 mod 16)) (String (hex_digit (n / 256 mod 16))
    (String (hex_digit (n / 16 mod 16)) (String (hex_digit (n mod 16)) EmptyString))).

(** The named entries of [ESCAPE_DCT]: the quote, the backslash and five
    control characters. *)
Definition escape_dct (n : Z) : option string :=
  if n =? 34 then Some (char_of 92 +:+ char_of 34)
  else if n =? 92 then Some (char_of 92 +:+ char_of 92)
  else if n =? 10 then Some (char_of 92 +:+ "n")
  else if n =? 13 then Some (char_of 92 +:+ "r")
  else if n =? 9 then Some (char_of 92 +:+ "t")
  else if n =? 8 then Some (char_of 92 +:+ "b")
  else if n =? 12 then Some (char_of 92 +:+ "f")
  else None.

(** [ensure_ascii=True]: [ESCAPE_DCT], and the [\uXXXX] fallback for
    everything outside [' '..'~']. *)
Definition escape_char (c : ascii) : string :=
  let n := code c in
  match escape_dct n with
  | Some e => e
  | None => if (32 <=? n) && (n <=? 126) then String c EmptyString else u_escape n
  end.

(** [ensure_ascii=False]: only the quote, the backslash and the control
    characters are escaped ([ESCAPE_DCT], whose other control characters
    are [\u00XX]); every other character is printed as it is. *)
Definition escape_char_raw (c : ascii) : string :=
  let n := code c in
  match escape_dct n with
  | Some e => e
  | None => if n <? 32 then u_escape n else String c EmptyString
  end.

Fixpoint escape_string (ensure_ascii : bool) (s : string) : string :=
  match s with
  | EmptyString => EmptyString
  | String c s' =>
      (if ensure_ascii then escape_char c else escape_char_raw c) +:+ escape_string ensure_ascii s'
  end.

Definition encode_str (ensure_ascii : bool) (s : string) : string :=
  char_of 34 +:+ escape_string ensure_ascii s +:+ char_of 34.

(** [int.__repr__] *)
Definition py_str_int (z : Z) : string :=
  if z <? 0 then "-" +:+ py_str_nat (Z.to_nat (- z)) else py_str_nat (Z.to_nat z).

(** ** Containers *)

(** The options of [json.dumps] that the program's two calls set:
    [indent] and [ensure_ascii]; both calls also pass [sort_keys=True] and
    keep the default separators. *)
Record encoder := mk_encoder { enc_indent : nat; enc_ascii : bool }.

Fixpoint spaces (n : nat) : string :=
  match n with O => EmptyString | S n' => String " " (spaces n') end.

(** ['\n' + ' ' * indent * level] *)
Definition newline_indent (indent level : nat) : string := char_of 10 +:+ spaces (indent * level).

Fixpoint join (sep : string) (xs : list string) : string :=
  match xs with
  | [] => EmptyString
  | [x] => x
  | x :: xs' => x +:+ sep +:+ join sep xs'
  end.

(** Python's [<] on [str]: lexicographic on code points, a proper prefix
    first; this is [String.compare]. *)
Definition key_le {A} (a b : string * A) : Prop := String.compare a.1 b.1 <> Gt.
#[export] Instance key_le_dec {A} : RelDecision (@key_le A).
Proof. intros a b. unfold key_le. apply _. Defined.

(** [sorted(dct.items())] applied to the encoded items: sorting the pairs
    (key, encoded item) by key gives the items in the order the encoder
    emits them; for a dict (distinct keys) the order does not depend on the
    sorting algorithm (see [sort_items_perm]). *)
Definition sort_items (items : list (string * string)) : list (string * string) :=
  merge_sort key_le items.

Definition close_container (indent level : nat) (opening closing : string) (items : list string) : string :=
  match items with
  | [] => opening +:+ closing
  | _ => opening +:+ newline_indent indent (S level)
         +:+ join ("," +:+ newline_indent indent (S level)) items
         +:+ newline_indent indent level +:+ closing
  end.

Fixpoint dumps_at (enc : encoder) (level : nat) (v : json) : string :=
  match v with
  | JNull => "null"
  | JBool true => "true"
  | JBool false => "false"
  | JInt z => py_str_int z
  | JStr s => encode_str enc.(enc_ascii) s
  | JArr xs => close_container enc.(enc_indent) level "[" "]" (map (dumps_at enc (S level)) xs)
  | JObj kvs =>
      close_container enc.(enc_indent) level "{" "}"
        (map snd (sort_items (map (fun kv => (kv.1, encode_str enc.(enc_ascii) kv.1 +:+ ": "
                                                    +:+ dumps_at enc (S level) kv.2)) kvs)))
  end.

(** The collector's call: [json.dumps(jsondoc, indent=4, sort_keys=True)]. *)
Definition collector_encoder : encoder := mk_encoder 4 true.

Definition dumps (v : json) : string := dumps_at collector_encoder 0 v.

(** A Python dict has distinct keys, at every depth. *)
Fixpoint wf_json (v : json) : bool :=
  match v with
  | JArr xs => forallb wf_json xs
  | JObj kvs => bool_decide (NoDup (map fst kvs)) && forallb (fun '(_, w) => wf_json w) kvs
  | _ => true
  end.

(** The normal form of a document: the members of every object sorted by
    key, at every depth.  Two dicts that differ only in the insertion order
    of their keys have the same normal form. *)
Fixpoint json_norm (v : json) : json :=
  match v with
  | JArr xs => JArr (map json_norm xs)
  | JObj kvs => JObj (merge_sort key_le (map (fun kv => (kv.1, json_norm kv.2)) kvs))
  | _ => v
  end.

(** ** Lemmas *)

Lemma is_ascii_String c s : is_ascii (String c s) = (code c <? 128) && is_ascii s.
Proof. reflexivity. Qed.

Lemma is_ascii_char_of n : 0 <= n < 128 -> is_ascii (char_of n) = true.
Proof.
  intros Hn. unfold char_of. rewrite is_ascii_String, code_chr, Z.mod_small by lia.
  apply andb_true_iff. split; [apply Z.ltb_lt; lia | done].
Qed.

(** Every character escapes to ASCII ([ensure_ascii=True]), checked on all
    256 characters. *)
Lemma escape_char_ascii c : is_ascii (escape_char c) = true.
Proof. destruct c as [[] [] [] [] [] [] [] []]; vm_compute; reflexivity. Qed.

Lemma escape_string_ascii s : is_ascii (escape_string true s) = true.
Proof. induction s as [|c s IH]; [done|]. simpl. by rewrite is_ascii_app, escape_char_ascii, IH. Qed.

Lemma encode_str_ascii s : is_ascii (encode_str true s) = true.
Proof. unfold encode_str. by rewrite !is_ascii_app, escape_string_ascii, is_ascii_char_of by lia. Qed.

Lemma py_str_nat_ascii n : is_ascii (py_str_nat n) = true.
Proof.
  unfold py_str_nat. induction (Nat.to_uint n); [reflexivity|..];
    match goal with H : is_ascii _ = true |- _ => exact H end.
Qed.

Lemma py_str_int_ascii z : is_ascii (py_str_int z) = true.
Proof. unfold py_str_int. destruct (z <? 0); rewrite ?is_ascii_app; by rewrite py_str_nat_ascii. Qed.

Lemma spaces_ascii n : is_ascii (spaces n) = true.
Proof. induction n as [|n IH]; [done|]. simpl. by rewrite is_ascii_String, IH. Qed.

Lemma newline_indent_ascii ind n : is_ascii (newline_indent ind n) = true.
Proof. unfold newline_indent. by rewrite is_ascii_app, is_ascii_char_of, spaces_ascii by lia. Qed.

Lemma join_ascii sep xs :
  is_ascii sep = true -> Forall (fun x => is_ascii x = true) xs -> is_ascii (join sep xs) = true.
Proof.
  intros Hs Hx. induction Hx as [|x xs Hx Hxs IH]; [done|].
  destruct xs as [|y xs]; [done|]. change (join sep (x :: y :: xs)) with (x +:+ sep +:+ join sep (y :: xs)). by rewrite !is_ascii_app, Hx, Hs, IH.
Qed.

Lemma close_container_ascii ind level o c items :
  is_ascii o = true -> is_ascii c = true -> Forall (fun x => is_ascii x = true) items ->
  is_ascii (close_container ind level o c items) = true.
Proof.
  intros Ho Hc Hi. unfold close_container. destruct items; rewrite !is_ascii_app, ?Ho, ?Hc; [done|].
  rewrite !newline_indent_ascii, join_ascii; [done | | done].
  by rewrite is_ascii_app, newline_indent_ascii.
Qed.

(** [json.dumps(..., indent=4, sort_keys=True)] prints ASCII only, at any
    depth of the document. *)
Lemma dumps_at_ascii enc v level : enc.(enc_ascii) = true -> is_ascii (dumps_at enc level v) = true.
Proof.
  intros Ha. revert level. induction v as [| | | |xs IH|kvs IH] using json_ind; intros level; simpl.
  - done.
  - by destruct b.
  - apply py_str_int_ascii.
  - rewrite Ha. apply encode_str_ascii.
  - apply close_container_ascii; [done | done |]. apply Forall_map.
    eapply Forall_impl; [exact IH | auto].
  - apply close_container_ascii; [done | done |]. unfold sort_items.
    apply Forall_map. rewrite (merge_sort_Permutation key_le). apply Forall_map.
    eapply Forall_impl; [exact IH|]. intros kv Hkv. cbv beta. cbn [snd].
    by rewrite !is_ascii_app, Ha, encode_str_ascii, Hkv.
Qed.

(** [key_le] is the order [String.le] of stdpp on the keys. *)
Lemma key_le_string_le {A} (a b : string * A) : key_le a b <-> String.le a.1 b.1.
Proof. unfold key_le, String.le, String.leb. destruct (String.compare a.1 b.1); naive_solver. Qed.

#[export] Instance key_le_trans {A} : Transitive (@key_le A).
Proof. intros a b c. rewrite !key_le_string_le. apply transitivity. Qed.

#[export] Instance key_le_total {A} : Total (@key_le A).
Proof. intros a b. rewrite !key_le_string_le. apply total, _. Qed.

Lemma key_le_antisym {A} (a b : string * A) : key_le a b -> key_le b a -> a.1 = b.1.
Proof. rewrite !key_le_string_le. intros. by apply (anti_symm String.le). Qed.

(** In a list whose keys are distinct, an item is determined by its key. *)
Lemma NoDup_fst_unique {A} (l : list (string * A)) x y :
  NoDup (map fst l) -> x ∈ l -> y ∈ l -> x.1 = y.1 -> x = y.
Proof.
  induction l as [|z l IH]; intros Hnd Hx Hy Hxy; [by apply elem_of_nil in Hx|].
  inversion Hnd as [|? ? Hz Hnd']; subst.
  apply elem_of_cons in Hx as [->|Hx], Hy as [->|Hy]; [done | | | by apply IH].
  - destruct Hz. rewrite Hxy. apply list_elem_of_In, in_map_iff. exists y. split; [done | by apply list_elem_of_In].
  - destruct Hz. rewrite <- Hxy. apply list_elem_of_In, in_map_iff. exists x. split; [done | by apply list_elem_of_In].
Qed.

(** Sorting by key: two lists of items with distinct keys that are
    permutations of each other sort to the same list. *)
Lemma merge_sort_key_perm {A} (items items' : list (string * A)) :
  NoDup (map fst items) -> items ≡ₚ items' -> merge_sort key_le items = merge_sort key_le items'.
Proof.
  intros Hnd Hp.
  apply (Sorted_unique_strong key_le); [| apply Sorted_merge_sort, _ ..|].
  - intros x1 x2 Hx1 Hx2 H12 H21. apply (NoDup_fst_unique items); [done | | | by apply key_le_antisym].
    + by rewrite <- (merge_sort_Permutation key_le items).
    + by rewrite Hp, <- (merge_sort_Permutation key_le items').
  - by rewrite !merge_sort_Permutation.
Qed.

Lemma sort_items_perm items items' :
  NoDup (map fst items) -> items ≡ₚ items' -> sort_items items = sort_items items'.
Proof. apply merge_sort_key_perm. Qed.

(** Rewriting the values of items keeps their keys. *)
Lemma map_fst_values {A B} (h : string * A -> B) (kvs : list (string * A)) :
  map fst (map (fun kv => (kv.1, h kv)) kvs) = map fst kvs.
Proof. rewrite map_map. by apply map_ext. Qed.

(** [json.dumps] prints a well-formed document and its normal form alike. *)
Lemma dumps_at_norm enc v : wf_json v = true -> forall level, dumps_at enc level (json_norm v) = dumps_at enc level v.
Proof.
  induction v as [| | | |xs IH|kvs IH] using json_ind; intros Hwf level; try done; cbn [json_norm dumps_at]; f_equal.
  - rewrite map_map. apply List.map_ext_Forall. apply List.Forall_forall. intros x Hx.
    cbn in Hwf. rewrite forallb_forall in Hwf. rewrite List.Forall_forall in IH. by apply IH, Hwf.
  - cbn in Hwf. apply andb_true_iff in Hwf as [Hnd Hwf]. apply bool_decide_eq_true in Hnd.
    rewrite forallb_forall in Hwf. rewrite List.Forall_forall in IH. f_equal.
    transitivity (sort_items (map (fun kv => (kv.1, encode_str enc.(enc_ascii) kv.1 +:+ ": " +:+ dumps_at enc (S level) kv.2))
                                  (map (fun kv => (kv.1, json_norm kv.2)) kvs))).
    + apply sort_items_perm; [|by rewrite merge_sort_Permutation].
      by rewrite map_fst_values, merge_sort_Permutation, map_fst_values.
    + rewrite map_map. f_equal. apply List.map_ext_Forall, List.Forall_forall. intros [k w] Hin.
      specialize (Hwf _ Hin). cbn in Hwf |- *. by rewrite (IH _ Hin Hwf).
Qed.

(** Permuting the members of an object with distinct keys keeps its
    normal form. *)
Lemma json_norm_perm kvs kvs' :
  NoDup (map fst kvs) -> kvs ≡ₚ kvs' -> json_norm (JObj kvs) = json_norm (JObj kvs').
Proof.
  intros Hnd Hp. cbn [json_norm]. f_equal. apply merge_sort_key_perm; [by rewrite map_fst_values|].
  by apply Permutation_map.
Qed.

(** ** Properties of the serialisation *)

(** C21 (the body is ASCII): [json.dumps] with [ensure_ascii] prints ASCII
    only, so the [len(body)] that [post_data] signs as the content length
    (a number of characters) is the number of bytes of the body in UTF-8,
    the encoding in which the request is sent. *)
Theorem dumps_ascii_length v :
  is_ascii (dumps v) = true /\ length (utf8_encode (dumps v)) = String.length (dumps v).
Proof. split; [by apply dumps_at_ascii | by apply utf8_encode_ascii_length, dumps_at_ascii]. Qed.

(** C22 (the order of a dict's keys does not matter): with [sort_keys=True]
    two well-formed documents (distinct keys in every dict) that have the
    same normal form, i.e. that differ only in the insertion order of the
    keys of their dicts at any depth, serialise to the same text. *)
Theorem dumps_key_order v v' :
  wf_json v = true -> wf_json v' = true -> json_norm v = json_norm v' -> dumps v = dumps v'.
Proof. intros Hv Hv' Hn. unfold dumps. by rewrite <- (dumps_at_norm _ v), Hn, dumps_at_norm. Qed.
