(* ===== verification/JsonLoads.v ===== *)
(** * JsonLoads: [json.loads(str(event))] (src/OCItoLogAnalytics/__init__.py, line 143)

    The collector does not serialise an OCI event directly: it reads it back
    with [json.loads(str(event))] first.  [str] of an OCI SDK model is
    [oci.util.formatted_flat_dict], i.e. [json.dumps(to_dict(event),
    indent=2, sort_keys=True, ensure_ascii=False)] ([oci_str] below, with
    the event given as the document [to_dict] returns), and [json.loads] is
    CPython's decoder with its C scanner ([loads]): leading and trailing
    whitespace, one value, and [Extra data] after it.  The decoder is
    modelled from CPython's [_json.c] ([scan_once_unicode],
    [_parse_object_unicode], [_parse_array_unicode], [scanstring_unicode],
    [_match_number_unicode]) on the characters of the text; a dict is built
    by assigning its members in order ([dict_set]: a repeated key keeps its
    first position and takes the last value).  The decoder recurses on the
    nesting of the text; the model gives it a fuel, and [loads] passes
    twice the length of the text plus one, which is never exhausted
    ([loads_total]); on a text [json.dumps] prints, one unit per value,
    element or member is enough ([scan_dumps], [json_size_le]).  Floats ([1.5], [1e3], [NaN], [Infinity]) and escapes
    of characters above U+00FF raise [Unrepresentable]: the [json] type has
    no floats and a [string] holds the code points 0..255 only. *)

From Stdlib Require Import String Ascii ZArith List Lia DecimalString DecimalNat.
From stdpp Require Import base list sorting strings gmap.
From S2P Require Import Prelude Text DateTime Json.

Open Scope Z_scope.

(** ** The scanner *)

(** [IS_WHITESPACE]: space, tab, newline, carriage return. *)
Definition is_ws (c : ascii) : bool :=
  let n := code c in (n =? 32) || (n =? 9) || (n =? 10) || (n =? 13).

Fixpoint skip_ws (cs : list ascii) : list ascii :=
  match cs with
  | c :: r => if is_ws c then skip_ws r else cs
  | [] => []
  end.

(** The value of a hexadecimal digit of a [\uXXXX] escape. *)
Definition hex_val (c : ascii) : option Z :=
  let n := code c in
  if (48 <=? n) && (n <=? 57) then Some (n - 48)
  else if (97 <=? n) && (n <=? 102) then Some (n - 87)
  else if (65 <=? n) && (n <=? 70) then Some (n - 55)
  else None.

(** The four hexadecimal digits of a [\uXXXX] escape. *)
Definition hex4 (h1 h2 h3 h4 : ascii) : option Z :=
  match hex_val h1, hex_val h2, hex_val h3, hex_val h4 with
  | Some a, Some b, Some c, Some d => Some (((a * 16 + b) * 16 + c) * 16 + d)
  | _, _, _, _ => None
  end.

(** The one-character escapes: a backslash followed by the quote, the
    backslash, the slash, [b], [f], [n], [r] or [t]. *)
Definition unescape (e : ascii) : option ascii :=
  let n := code e in
  if (n =? 34) || (n =? 92) || (n =? 47) then Some e
  else if n =? 98 then Some (chr 8)
  else if n =? 102 then Some (chr 12)
  else if n =? 110 then Some (chr 10)
  else if n =? 114 then Some (chr 13)
  else if n =? 116 then Some (chr 9)
  else None.

(** [scanstring_unicode] in strict mode, after the opening quote: the
    string up to the closing quote, and the text after it. *)
Fixpoint scanstring (cs : list ascii) : res (string * list ascii) :=
  match cs with
  | [] => Raise (ValueError "Unterminated string starting at")
  | c :: r =>
      let n := code c in
      if n =? 34 then Ret (EmptyString, r)
      else if n =? 92 then
        match r with
        | [] => Raise (ValueError "Unterminated string starting at")
        | e :: r' =>
            if code e =? 117 then
              match r' with
              | h1 :: h2 :: h3 :: h4 :: r'' =>
                  match hex4 h1 h2 h3 h4 with
                  | None => Raise (ValueError "Invalid \uXXXX escape")
                  | Some u =>
                      if u <? 256 then
                        res_bind (scanstring r'') (fun '(s, rest) => Ret (String (chr u) s, rest))
                      else Raise (Unrepresentable "a character above U+00FF")
                  end
              | _ => Raise (ValueError "Invalid \uXXXX escape")
              end
            else
              match unescape e with
              | None => Raise (ValueError "Invalid \escape")
              | Some c' => res_bind (scanstring r') (fun '(s, rest) => Ret (String c' s, rest))
              end
        end
      else if n <? 32 then Raise (ValueError "Invalid control character at")
      else res_bind (scanstring r) (fun '(s, rest) => Ret (String c s, rest))
  end.

(** [_match_number_unicode]: an optional minus, then [0] or a non-zero
    digit and its run of digits; a fraction ([.] and a digit) or an
    exponent ([e] or [E], an optional sign and a digit) makes a float.
    [None] is the [StopIteration] of a text that starts no number. *)
Definition is_digit (c : ascii) : bool := match digit_of c with Some _ => true | None => false end.

Definition float_follows (cs : list ascii) : bool :=
  match cs with
  | c :: d :: r =>
      ((code c =? 46) && is_digit d) ||
      (((code c =? 101) || (code c =? 69)) &&
       (is_digit d || (((code d =? 43) || (code d =? 45)) &&
                       match r with x :: _ => is_digit x | [] => false end)))
  | _ => false
  end.

(** The integer part: [0], or a non-zero digit and the digits after it. *)
Definition int_digits (cs : list ascii) : option (list Z * list ascii) :=
  match cs with
  | c :: r => if code c =? 48 then Some ([0], r) else if is_digit c then Some (span_digits cs) else None
  | [] => None
  end.

Definition match_number (cs : list ascii) : option (res (json * list ascii)) :=
  let '(neg, cs1) := match cs with
                     | c :: r => if code c =? 45 then (true, r) else (false, cs)
                     | [] => (false, cs)
                     end in
  match int_digits cs1 with
  | None => None
  | Some (ds, rest) =>
      if float_follows rest then Some (Raise (Unrepresentable "a float"))
      else let v := digits_value ds in Some (Ret (JInt (if neg then - v else v), rest))
  end.

(** A literal word: [null], [true], [false] and the float constants. *)
Fixpoint strip_prefix (w : list ascii) (cs : list ascii) : option (list ascii) :=
  match w, cs with
  | [], _ => Some cs
  | a :: w', c :: cs' => if ascii_dec a c then strip_prefix w' cs' else None
  | _ :: _, [] => None
  end.

Definition expecting_value : exn := ValueError "Expecting value".

(** [dict[key] = value]: a new key is appended, a repeated one keeps its
    place and takes the new value. *)
Fixpoint dict_set (kvs : list (string * json)) (k : string) (v : json) : list (string * json) :=
  match kvs with
  | [] => [(k, v)]
  | (k', v') :: r => if String.eqb k' k then (k, v) :: r else (k', v') :: dict_set r k v
  end.

(** [scan_once_unicode] and the loops of [_parse_array_unicode] and
    [_parse_object_unicode], each step taking one unit of fuel. *)
Fixpoint scan_once (n : nat) (cs : list ascii) : res (json * list ascii) :=
  match n with
  | O => Raise FuelExhausted
  | S n' =>
      match cs with
      | [] => Raise expecting_value
      | c :: r =>
          let k := code c in
          if k =? 34 then res_bind (scanstring r) (fun '(s, rest) => Ret (JStr s, rest))
          else if k =? 123 then
            match skip_ws r with
            | c' :: r' => if code c' =? 125 then Ret (JObj [], r') else object_members n' (c' :: r') []
            | [] => object_members n' [] []
            end
          else if k =? 91 then
            match skip_ws r with
            | c' :: r' => if code c' =? 93 then Ret (JArr [], r') else array_items n' (c' :: r') []
            | [] => array_items n' [] []
            end
          else match strip_prefix (list_ascii_of_string "null") cs with
          | Some rest => Ret (JNull, rest)
          | None =>
          match strip_prefix (list_ascii_of_string "true") cs with
          | Some rest => Ret (JBool true, rest)
          | None =>
          match strip_prefix (list_ascii_of_string "false") cs with
          | Some rest => Ret (JBool false, rest)
          | None =>
          if (match strip_prefix (list_ascii_of_string "NaN") cs with Some _ => true | None => false end) ||
             (match strip_prefix (list_ascii_of_string "Infinity") cs with Some _ => true | None => false end) ||
             (match strip_prefix (list_ascii_of_string "-Infinity") cs with Some _ => true | None => false end)
          then Raise (Unrepresentable "a float")
          else match match_number cs with
               | Some r => r
               | None => Raise expecting_value
               end
          end end end
      end
  end
with array_items (n : nat) (cs : list ascii) (acc : list json) : res (json * list ascii) :=
  match n with
  | O => Raise FuelExhausted
  | S n' =>
      res_bind (scan_once n' cs) (fun '(v, r) =>
        match skip_ws r with
        | c :: r' =>
            if code c =? 93 then Ret (JArr (rev (v :: acc)), r')
            else if code c =? 44 then array_items n' (skip_ws r') (v :: acc)
            else Raise (ValueError "Expecting ',' delimiter")
        | [] => Raise (ValueError "Expecting ',' delimiter")
        end)
  end
with object_members (n : nat) (cs : list ascii) (acc : list (string * json)) : res (json * list ascii) :=
  match n with
  | O => Raise FuelExhausted
  | S n' =>
      match cs with
      | c :: r =>
          if code c =? 34 then
            res_bind (scanstring r) (fun '(key, r1) =>
              match skip_ws r1 with
              | c1 :: r2 =>
                  if code c1 =? 58 then
                    res_bind (scan_once n' (skip_ws r2)) (fun '(v, r3) =>
                      let acc' := dict_set acc key v in
                      match skip_ws r3 with
                      | c2 :: r4 =>
                          if code c2 =? 125 then Ret (JObj acc', r4)
                          else if code c2 =? 44 then object_members n' (skip_ws r4) acc'
                          else Raise (ValueError "Expecting ',' delimiter")
                      | [] => Raise (ValueError "Expecting ',' delimiter")
                      end)
                  else Raise (ValueError "Expecting ':' delimiter")
              | [] => Raise (ValueError "Expecting ':' delimiter")
              end)
          else Raise (ValueError "Expecting property name enclosed in double quotes")
      | [] => Raise (ValueError "Expecting property name enclosed in double quotes")
      end
  end.

(** [json.loads(s)]: [JSONDecoder.decode], i.e. [raw_decode] after the
    leading whitespace, then only whitespace may follow.  The fuel covers
    two steps per character ([scan_progress]). *)
Definition loads (s : string) : res json :=
  let cs := list_ascii_of_string s in
  res_bind (scan_once (S (2 * length cs)) (skip_ws cs)) (fun '(v, rest) =>
    match skip_ws rest with
    | [] => Ret v
    | _ :: _ => Raise (ValueError "Extra data")
    end).

(** [str(event)] of an OCI SDK model: [oci.util.formatted_flat_dict],
    [json.dumps(to_dict(event), indent=2, sort_keys=True, ensure_ascii=False)]. *)
Definition oci_str_encoder : encoder := mk_encoder 2 false.

Definition oci_str (event : json) : string := dumps_at oci_str_encoder 0 event.

(** ** Lemmas: scanning what the encoder prints *)

Local Abbreviation L := list_ascii_of_string.

(** Characters by their code. *)
Lemma code_inj c n : code c = n -> c = chr n.
Proof. intros <-. by rewrite chr_code. Qed.

Lemma hex_val_digit d : 0 <= d < 16 -> hex_val (hex_digit d) = Some d.
Proof.
  intros Hd. assert (d = 0 \/ d = 1 \/ d = 2 \/ d = 3 \/ d = 4 \/ d = 5 \/ d = 6 \/ d = 7 \/ d = 8 \/
                     d = 9 \/ d = 10 \/ d = 11 \/ d = 12 \/ d = 13 \/ d = 14 \/ d = 15) by lia.
  repeat match goal with H : _ \/ _ |- _ => destruct H as [->|H] end; [reflexivity ..|subst; reflexivity].
Qed.

(** The steps of [scanstring] on a [\uXXXX] escape and on a character
    that needs no escape. *)
Lemma scanstring_bs_u h1 h2 h3 h4 tl :
  scanstring (chr 92 :: "u"%char :: h1 :: h2 :: h3 :: h4 :: tl) =
  match hex4 h1 h2 h3 h4 with
  | None => Raise (ValueError "Invalid \uXXXX escape")
  | Some u =>
      if u <? 256 then res_bind (scanstring tl) (fun '(s, rest) => Ret (String (chr u) s, rest))
      else Raise (Unrepresentable "a character above U+00FF")
  end.
Proof. reflexivity. Qed.

Lemma scanstring_plain c tl :
  code c <> 34 -> code c <> 92 -> 32 <= code c ->
  scanstring (c :: tl) = res_bind (scanstring tl) (fun '(s, rest) => Ret (String c s, rest)).
Proof.
  intros H1 H2 H3. cbn [scanstring].
  rewrite (proj2 (Z.eqb_neq _ _) H1), (proj2 (Z.eqb_neq _ _) H2), (proj2 (Z.ltb_ge _ _) H3).
  reflexivity.
Qed.

(** A [\uXXXX] escape of a code point below 256 scans back to its
    character. *)
Lemma scanstring_u_escape n tl :
  0 <= n < 256 ->
  scanstring (L (u_escape n) ++ tl) = res_bind (scanstring tl) (fun '(s, rest) => Ret (String (chr n) s, rest)).
Proof.
  intros Hn. unfold u_escape, char_of. rewrite !list_ascii_of_string_app. cbn [list_ascii_of_string app].
  rewrite scanstring_bs_u. unfold hex4. rewrite !hex_val_digit by (apply Z.mod_pos_bound; lia).
  replace (((n / 4096 mod 16 * 16 + n / 256 mod 16) * 16 + n / 16 mod 16) * 16 + n mod 16) with n
    by (Z.div_mod_to_equations; lia).
  by replace (n <? 256) with true by (symmetry; apply Z.ltb_lt; lia).
Qed.

Lemma escape_dct_scan c e tl :
  escape_dct (code c) = Some e ->
  scanstring (L e ++ tl) = res_bind (scanstring tl) (fun '(s, rest) => Ret (String c s, rest)).
Proof.
  unfold escape_dct. intros H.
  repeat match type of H with
  | context [code c =? ?m] =>
      destruct (Z.eqb_spec (code c) m) as [Hc|]; [injection H as <-; rewrite (code_inj _ _ Hc); reflexivity|]
  end; discriminate.
Qed.

Lemma escape_dct_none n : escape_dct n = None -> n <> 34 /\ n <> 92.
Proof. unfold escape_dct. intros H. split; intros ->; discriminate. Qed.

(** Every character scans back from its escape, in both modes of the
    encoder. *)
Lemma scanstring_escape (ea : bool) c tl :
  scanstring (L (if ea then escape_char c else escape_char_raw c) ++ tl) =
  res_bind (scanstring tl) (fun '(s, rest) => Ret (String c s, rest)).
Proof.
  pose proof (code_range c) as Hr. unfold escape_char, escape_char_raw.
  destruct (escape_dct (code c)) as [e|] eqn:E; [destruct ea; by apply escape_dct_scan|].
  apply escape_dct_none in E as [E1 E2].
  destruct ea; [destruct ((32 <=? code c) && (code c <=? 126)) eqn:P | destruct (code c <? 32) eqn:P].
  - apply andb_true_iff in P as [P _]. apply Z.leb_le in P. by apply scanstring_plain.
  - rewrite scanstring_u_escape by lia. by rewrite chr_code.
  - rewrite scanstring_u_escape by lia. by rewrite chr_code.
  - apply Z.ltb_ge in P. by apply scanstring_plain.
Qed.

(** A string scans back from its encoding, up to the closing quote. *)
Lemma scanstring_escape_string ea s tl :
  scanstring (L (escape_string ea s) ++ chr 34 :: tl) = Ret (s, tl).
Proof.
  induction s as [|c s IH]; [reflexivity|]. cbn [escape_string]. rewrite list_ascii_of_string_app, <- app_assoc.
  by rewrite (scanstring_escape ea c), IH.
Qed.

(** ** Lemmas: scanning the integers [int.__repr__] prints *)

(** What may follow a value in the encoder's output: nothing, a comma, a
    newline, or the closing bracket or brace. *)
Definition delimited (cs : list ascii) : Prop :=
  match cs with [] => True | c :: _ => code c = 44 \/ code c = 10 \/ code c = 93 \/ code c = 125 end.

Fixpoint uint_digits (u : Decimal.uint) : list Z :=
  match u with
  | Decimal.Nil => []
  | Decimal.D0 u => 0 :: uint_digits u | Decimal.D1 u => 1 :: uint_digits u
  | Decimal.D2 u => 2 :: uint_digits u | Decimal.D3 u => 3 :: uint_digits u
  | Decimal.D4 u => 4 :: uint_digits u | Decimal.D5 u => 5 :: uint_digits u
  | Decimal.D6 u => 6 :: uint_digits u | Decimal.D7 u => 7 :: uint_digits u
  | Decimal.D8 u => 8 :: uint_digits u | Decimal.D9 u => 9 :: uint_digits u
  end.

Lemma span_digits_delimited rest : delimited rest -> span_digits rest = ([], rest).
Proof.
  destruct rest as [|c r]; [done|]. intros H. cbn. unfold digit_of.
  by destruct H as [-> | [-> | [-> | ->]]].
Qed.

Lemma float_follows_delimited rest : delimited rest -> float_follows rest = false.
Proof.
  destruct rest as [|c [|d r]]; [done..|]. intros H. cbn.
  by destruct H as [-> | [-> | [-> | ->]]].
Qed.

Lemma span_digits_uint u rest :
  delimited rest -> span_digits (L (NilEmpty.string_of_uint u) ++ rest) = (uint_digits u, rest).
Proof.
  intros Hr. induction u; cbn [NilEmpty.string_of_uint list_ascii_of_string app uint_digits];
    [by apply span_digits_delimited | by cbn; rewrite IHu ..].
Qed.

Lemma digits_value_uint_acc u a :
  fold_left (fun acc d => acc * 10 + d) (uint_digits u) (Z.of_nat a) = Z.of_nat (Nat.of_uint_acc u a).
Proof.
  revert a. induction u; intros a; [done|..]; cbn [uint_digits fold_left Nat.of_uint_acc];
    rewrite <- IHu; f_equal; rewrite Nat.tail_mul_spec; lia.
Qed.

Lemma digits_value_to_uint m : digits_value (uint_digits (Nat.to_uint m)) = Z.of_nat m.
Proof.
  unfold digits_value. change 0 with (Z.of_nat 0). rewrite digits_value_uint_acc.
  change (Nat.of_uint_acc (Nat.to_uint m) 0) with (Nat.of_uint (Nat.to_uint m)).
  by rewrite DecimalNat.Unsigned.of_to.
Qed.

Lemma nzhead_not_D0 u v : Decimal.nzhead u <> Decimal.D0 v.
Proof. induction u; cbn; congruence. Qed.

(** [str(n)] has no leading zero: a numeral that starts with [0] is [0]. *)
Lemma to_uint_D0 m u : Nat.to_uint m = Decimal.D0 u -> u = Decimal.Nil.
Proof.
  intros H. pose proof (DecimalNat.Unsigned.to_of (Nat.to_uint m)) as E.
  rewrite DecimalNat.Unsigned.of_to, H in E. revert E. unfold Decimal.unorm. cbn [Decimal.nzhead].
  destruct (Decimal.nzhead u) eqn:N; intros E; try (by injection E); try discriminate.
  exfalso. by eapply nzhead_not_D0.
Qed.

Lemma to_uint_not_nil m : Nat.to_uint m <> Decimal.Nil.
Proof.
  intros H. pose proof (DecimalNat.Unsigned.to_of (Nat.to_uint m)) as E.
  rewrite DecimalNat.Unsigned.of_to, H in E. discriminate.
Qed.

Lemma int_digits_py_str_nat m rest :
  delimited rest -> int_digits (L (py_str_nat m) ++ rest) = Some (uint_digits (Nat.to_uint m), rest).
Proof.
  intros Hr. unfold py_str_nat. pose proof (to_uint_not_nil m) as Hn. pose proof (to_uint_D0 m) as H0.
  destruct (Nat.to_uint m) as [|u|u|u|u|u|u|u|u|u|u]; [done| |..];
    cbn [NilEmpty.string_of_uint list_ascii_of_string app int_digits];
    [by rewrite (H0 u eq_refl) | cbn; by rewrite span_digits_uint ..].
Qed.

(** [str(n)] starts with a digit. *)
Lemma py_str_nat_head m rest :
  exists c r, L (py_str_nat m) ++ rest = c :: r /\ 48 <= code c <= 57.
Proof.
  unfold py_str_nat. pose proof (to_uint_not_nil m) as Hn.
  destruct (Nat.to_uint m); [done | eexists _, _; split; [reflexivity | unfold code; cbn; lia] ..].
Qed.

(** [int.__repr__] scans back to the integer. *)
Lemma match_number_py_str_int z rest :
  delimited rest -> match_number (L (py_str_int z) ++ rest) = Some (Ret (JInt z, rest)).
Proof.
  intros Hr. unfold py_str_int, match_number. destruct (Z.ltb_spec z 0).
  - rewrite list_ascii_of_string_app. cbn [list_ascii_of_string app]. change (code "-"%char) with 45.
    rewrite Z.eqb_refl. cbv beta iota.
    rewrite int_digits_py_str_nat, float_follows_delimited by done.
    rewrite digits_value_to_uint. do 4 f_equal. lia.
  - destruct (py_str_nat_head (Z.to_nat z) rest) as (c & r & E & Hc).
    rewrite E, (proj2 (Z.eqb_neq _ _)) by lia. rewrite <- E.
    cbv beta iota. rewrite int_digits_py_str_nat, float_follows_delimited by done.
    rewrite digits_value_to_uint. do 4 f_equal. lia.
Qed.

(** ** Lemmas: the layout of the encoder's output *)

(** A printed value starts with a character that is not whitespace and
    closes no container. *)
Definition starts_value (cs : list ascii) : Prop :=
  match cs with c :: _ => is_ws c = false /\ code c <> 93 /\ code c <> 125 | [] => False end.

Lemma starts_value_code c r : 32 < code c < 93 \/ 93 < code c < 125 -> starts_value (c :: r).
Proof.
  intros Hc. cbn. unfold is_ws. repeat rewrite (proj2 (Z.eqb_neq _ _)) by lia. lia.
Qed.

Lemma close_container_app ind level o c items rest :
  exists r, L (close_container ind level o c items) ++ rest = L o ++ r.
Proof. destruct items; cbn [close_container]; rewrite !list_ascii_of_string_app, <- !app_assoc; eauto. Qed.

Lemma dumps_at_starts enc level v rest : starts_value (L (dumps_at enc level v) ++ rest).
Proof.
  destruct v as [|[]|z|s|xs|kvs]; cbn [dumps_at]; try unfold encode_str;
    [..| destruct (close_container_app (enc_indent enc) level "[" "]"
                     (map (dumps_at enc (S level)) xs) rest) as [r ->]
       | match goal with |- context [close_container ?i ?l ?o ?c ?its] =>
           destruct (close_container_app i l o c its rest) as [r ->] end];
    rewrite ?list_ascii_of_string_app, <- ?app_assoc; cbn [char_of list_ascii_of_string app];
    try (apply starts_value_code; first [rewrite code_chr, Z.mod_small by lia | unfold code]; cbn; lia).
  unfold py_str_int. destruct (z <? 0); rewrite ?list_ascii_of_string_app; [apply starts_value_code; unfold code; cbn; lia|].
  destruct (py_str_nat_head (Z.to_nat z) rest) as (c & r & -> & Hc). apply starts_value_code. lia.
Qed.

Lemma skip_ws_starts cs : starts_value cs -> skip_ws cs = cs.
Proof. destruct cs as [|c r]; [done|]. intros [H _]. cbn. by rewrite H. Qed.

Lemma skip_ws_newline_indent ind level rest :
  skip_ws (L (newline_indent ind level) ++ rest) = skip_ws rest.
Proof.
  unfold newline_indent. rewrite list_ascii_of_string_app. cbn [list_ascii_of_string char_of app skip_ws].
  induction (ind * level)%nat as [|k IH]; [done | exact IH].
Qed.

(** ** Lemmas: scanning each kind of value *)

(** A literal word does not match a text whose first character differs. *)
Lemma strip_prefix_head a w c r : code a <> code c -> strip_prefix (a :: w) (c :: r) = None.
Proof. intros H. cbn. destruct (ascii_dec a c) as [->|]; [done | reflexivity]. Qed.

Lemma strip_prefix_same a w r : strip_prefix (a :: w) (a :: r) = strip_prefix w r.
Proof. cbn. by destruct (ascii_dec a a). Qed.

(** A text that starts with a digit, or with a minus and a digit, is
    scanned as a number. *)
Lemma scan_once_number n c r :
  48 <= code c <= 57 \/ (c = "-"%char /\ exists d r', r = d :: r' /\ 48 <= code d <= 57) ->
  scan_once (S n) (c :: r) = match match_number (c :: r) with Some x => x | None => Raise expecting_value end.
Proof.
  intros [Hc | (-> & d & r' & -> & Hd)].
  - cbn [scan_once]. rewrite !(proj2 (Z.eqb_neq _ _)) by lia. cbn [list_ascii_of_string].
    rewrite !strip_prefix_head by (unfold code at 1; cbn; lia). reflexivity.
  - cbn [scan_once list_ascii_of_string].
    rewrite !(proj2 (Z.eqb_neq (code "-") _)) by (unfold code; cbn; lia).
    do 5 rewrite strip_prefix_head by (unfold code; cbn; lia).
    rewrite strip_prefix_same, strip_prefix_head by (unfold code at 1; cbn; lia). reflexivity.
Qed.

(** [int.__repr__] scans back to the integer. *)
Lemma scan_once_int n z rest :
  delimited rest -> scan_once (S n) (L (py_str_int z) ++ rest) = Ret (JInt z, rest).
Proof.
  intros Hr. assert (exists c r, L (py_str_int z) ++ rest = c :: r /\
            (48 <= code c <= 57 \/ (c = "-"%char /\ exists d r', r = d :: r' /\ 48 <= code d <= 57)))
    as (c & r & E & Hc).
  { unfold py_str_int. destruct (z <? 0); rewrite ?list_ascii_of_string_app.
    - destruct (py_str_nat_head (Z.to_nat (- z)) rest) as (d & r' & E & Hd).
      exists "-"%char, (L (py_str_nat (Z.to_nat (- z))) ++ rest). eauto 10.
    - destruct (py_str_nat_head (Z.to_nat z) rest) as (d & r' & -> & Hd). eauto. }
  rewrite E, scan_once_number, <- E by done. by rewrite match_number_py_str_int.
Qed.

Lemma scan_once_quote n r :
  scan_once (S n) (chr 34 :: r) = res_bind (scanstring r) (fun '(s, rest) => Ret (JStr s, rest)).
Proof. reflexivity. Qed.

(** After the opening bracket or brace, whitespace, then a printed value
    that closes no container: the loop over the elements or members. *)
Lemma scan_once_open_array n r :
  starts_value (skip_ws r) -> scan_once (S n) ("["%char :: r) = array_items n (skip_ws r) [].
Proof.
  intros H. change (scan_once (S n) ("["%char :: r)) with
    (match skip_ws r with
     | c' :: r' => if code c' =? 93 then Ret (JArr [], r') else array_items n (c' :: r') []
     | [] => array_items n [] []
     end).
  destruct (skip_ws r) as [|c r']; [done|]. destruct H as (_ & H & _).
  by rewrite (proj2 (Z.eqb_neq _ _) H).
Qed.

Lemma scan_once_open_object n r :
  starts_value (skip_ws r) -> scan_once (S n) ("{"%char :: r) = object_members n (skip_ws r) [].
Proof.
  intros H. change (scan_once (S n) ("{"%char :: r)) with
    (match skip_ws r with
     | c' :: r' => if code c' =? 125 then Ret (JObj [], r') else object_members n (c' :: r') []
     | [] => object_members n [] []
     end).
  destruct (skip_ws r) as [|c r']; [done|]. destruct H as (_ & _ & H).
  by rewrite (proj2 (Z.eqb_neq _ _) H).
Qed.

(** [dict[key] = value] on a key not yet in the dict appends the member. *)
Lemma dict_set_fresh acc k v : k ∉ map fst acc -> dict_set acc k v = acc ++ [(k, v)].
Proof.
  induction acc as [|[k' v'] acc IH]; intros Hk; [done|]. cbn in Hk |- *.
  rewrite not_elem_of_cons in Hk. destruct Hk as [Hk Hacc].
  destruct (String.eqb_spec k' k); [congruence|]. by rewrite IH.
Qed.

(** ** The size of a document, and the fuel the decoder needs *)

(** One unit for an atom or a container, and one more for each element or
    member of a container: the number of steps [scan_once],
    [array_items] and [object_members] take on its text. *)
Fixpoint json_size (v : json) : nat :=
  match v with
  | JArr xs => S (sum_list_with (fun x => S (json_size x)) xs)
  | JObj kvs => S (sum_list_with (fun kv => S (json_size kv.2)) kvs)
  | _ => 1
  end.

Lemma sum_list_with_le {A} (f g : A -> nat) l :
  Forall (fun x => f x <= g x)%nat l -> (sum_list_with f l <= sum_list_with g l)%nat.
Proof. induction 1; cbn; lia. Qed.

Lemma join_length sep xs :
  xs <> [] ->
  (length (L (join sep xs)) + length (L sep) =
   sum_list_with (fun x => length (L x) + length (L sep)) xs)%nat.
Proof.
  induction xs as [|x [|y ys] IH]; intros Hne; [by destruct Hne | cbn; lia |].
  specialize (IH ltac:(discriminate)). revert IH.
  cbn [join sum_list_with]. rewrite !list_ascii_of_string_app, !length_app. lia.
Qed.

(** ** Sorting the members of an object *)

(** The text of a member: its key, a colon, its value. *)
Definition member_text (enc : encoder) (level : nat) (kv : string * json) : string :=
  encode_str enc.(enc_ascii) kv.1 +:+ ": " +:+ dumps_at enc (S level) kv.2.

Lemma Sorted_map_key {A B} (h : string * A -> string * B) l :
  (forall x, (h x).1 = x.1) -> Sorted key_le l -> Sorted key_le (map h l).
Proof.
  intros Hh. induction 1 as [|x l Hs IH Hhd]; constructor; [done|].
  destruct Hhd; constructor. unfold key_le in *. by rewrite !Hh.
Qed.

(** Sorting by key commutes with a map that keeps the keys, on distinct
    keys. *)
Lemma merge_sort_map_key {A B} (h : string * A -> string * B) l :
  (forall x, (h x).1 = x.1) -> NoDup (map fst l) ->
  merge_sort key_le (map h l) = map h (merge_sort key_le l).
Proof.
  intros Hh Hnd.
  assert (Hnd' : NoDup (map fst (map h l))).
  { rewrite map_map. erewrite List.map_ext; [exact Hnd | apply Hh]. }
  apply (Sorted_unique_strong key_le); [| apply Sorted_merge_sort, _ | apply Sorted_map_key; [done | apply Sorted_merge_sort, _] |].
  - intros x1 x2 Hx1 Hx2 H12 H21. apply (NoDup_fst_unique (map h l)); [done | | | by apply key_le_antisym].
    + revert Hx1. by rewrite (merge_sort_Permutation key_le (map h l)).
    + revert Hx2. by rewrite (merge_sort_Permutation key_le l).
  - by rewrite (merge_sort_Permutation key_le (map h l)), (merge_sort_Permutation key_le l).
Qed.

(** An object with distinct keys prints its members in key order... *)
Lemma dumps_at_obj enc level kvs :
  NoDup (map fst kvs) ->
  dumps_at enc level (JObj kvs) =
  close_container enc.(enc_indent) level "{" "}" (map (member_text enc level) (merge_sort key_le kvs)).
Proof.
  intros Hnd. cbn [dumps_at]. unfold sort_items. rewrite merge_sort_map_key by done.
  by rewrite map_map.
Qed.

(** ... and its normal form has them in the same order. *)
Lemma json_norm_obj kvs :
  NoDup (map fst kvs) ->
  json_norm (JObj kvs) = JObj (map (fun kv => (kv.1, json_norm kv.2)) (merge_sort key_le kvs)).
Proof. intros Hnd. cbn [json_norm]. by rewrite merge_sort_map_key. Qed.

(** ** The text is longer than the document's size *)

Lemma sum_list_with_map {A B} (f : B -> nat) (g : A -> B) l :
  sum_list_with f (map g l) = sum_list_with (fun x => f (g x)) l.
Proof. induction l; cbn; lia. Qed.

Lemma newline_indent_length ind level : (1 <= length (L (newline_indent ind level)))%nat.
Proof. unfold newline_indent. rewrite list_ascii_of_string_app, length_app. cbn. lia. Qed.

Lemma dumps_at_length enc level v : (1 <= length (L (dumps_at enc level v)))%nat.
Proof.
  pose proof (dumps_at_starts enc level v []) as H. rewrite app_nil_r in H.
  destruct (L (dumps_at enc level v)); [done | cbn; lia].
Qed.

Lemma close_container_length ind level o c items :
  items <> [] -> length (L o) = 1%nat ->
  (S (sum_list_with (fun x => length (L x) + length (L ("," +:+ newline_indent ind (S level)))) items)
   <= length (L (close_container ind level o c items)))%nat.
Proof.
  intros Hne Ho. rewrite <- join_length by done.
  destruct items as [|i items]; [done|]. cbn [close_container]. rewrite !list_ascii_of_string_app, !length_app.
  pose proof (newline_indent_length ind level). cbn [list_ascii_of_string length]. lia.
Qed.

Lemma json_size_le enc v :
  wf_json v = true -> forall level, (json_size v <= length (L (dumps_at enc level v)))%nat.
Proof.
  induction v as [| | | |xs IH|kvs IH] using json_ind; intros Hwf level;
    try (apply dumps_at_length).
  - destruct xs as [|x xs]; [apply (dumps_at_length enc level (JArr []))|]. cbn [dumps_at].
    etransitivity; [|apply close_container_length; done]. rewrite sum_list_with_map.
    cbn [json_size]. apply le_n_S, sum_list_with_le.
    change (forallb wf_json (x :: xs) = true) in Hwf. rewrite forallb_forall in Hwf.
    apply List.Forall_forall. intros y Hy. rewrite list_ascii_of_string_app, length_app. cbn [list_ascii_of_string length].
    rewrite List.Forall_forall in IH.
    specialize (IH y Hy (Hwf y Hy) (S level)). lia.
  - cbn in Hwf. apply andb_true_iff in Hwf as [Hnd Hwf]. apply bool_decide_eq_true in Hnd.
    destruct kvs as [|kv kvs]; [apply (dumps_at_length enc level (JObj []))|]. rewrite dumps_at_obj by done.
    etransitivity; [|apply close_container_length; [|done]].
    2: { intros E. apply (f_equal length) in E. by rewrite length_map, (merge_sort_Permutation key_le) in E. }
    rewrite sum_list_with_map. cbn [json_size]. apply le_n_S.
    rewrite (merge_sort_Permutation key_le). apply sum_list_with_le.
    rewrite forallb_forall in Hwf. rewrite List.Forall_forall in IH |- *. intros [k w] Hin.
    specialize (IH _ Hin (Hwf _ Hin) (S level)). unfold member_text, encode_str. cbn [fst snd] in *.
    rewrite !list_ascii_of_string_app, !length_app. cbn [list_ascii_of_string length char_of]. lia.
Qed.

(** ** Scanning the text of a container *)

Lemma close_container_cons ind level o c items :
  items <> [] ->
  close_container ind level o c items =
  o +:+ newline_indent ind (S level) +:+ join ("," +:+ newline_indent ind (S level)) items
    +:+ newline_indent ind level +:+ c.
Proof. by destruct items. Qed.

Lemma join_cons sep x xs : xs <> [] -> join sep (x :: xs) = x +:+ sep +:+ join sep xs.
Proof. by destruct xs. Qed.

Lemma delimited_comma sep r : delimited (L ("," +:+ sep) ++ r).
Proof. by left. Qed.

Lemma delimited_newline_indent ind level r : delimited (L (newline_indent ind level) ++ r).
Proof. by right; left. Qed.

Lemma join_head sep x xs t : exists t', L (join sep (x :: xs)) ++ t = L x ++ t'.
Proof. destruct xs; cbn [join]; [eauto | rewrite !list_ascii_of_string_app, <- !app_assoc; eauto]. Qed.

Lemma join_starts {A} sep (f : A -> string) xs t :
  (forall y t', starts_value (L (f y) ++ t')) -> xs <> [] -> starts_value (L (join sep (map f xs)) ++ t).
Proof.
  intros Hf Hne. destruct xs as [|x xs]; [done|]. rewrite map_cons.
  destruct (join_head sep (f x) (map f xs) t) as [t' ->]. apply Hf.
Qed.

Lemma member_text_starts enc level kv t : starts_value (L (member_text enc level kv) ++ t).
Proof.
  unfold member_text, encode_str. rewrite !list_ascii_of_string_app, <- !app_assoc. apply starts_value_code.
  rewrite code_chr, Z.mod_small; lia.
Qed.

(** After a value, a comma: the next element or member. *)
Lemma skip_comma {B} (k : Z) (A F : list ascii -> B) (G : B) r :
  k <> 44 ->
  match skip_ws (L "," ++ r) with
  | [] => G
  | c :: r' => if code c =? k then A r' else if code c =? 44 then F r' else G
  end = F r.
Proof.
  intros Hk. change (skip_ws (L "," ++ r)) with (","%char :: r). cbv beta iota.
  change (code ","%char) with 44.
  by rewrite (proj2 (Z.eqb_neq 44 k)).
Qed.

Section Roundtrip.
Context (enc : encoder).

(** What the round trip states of one document: its text, followed by
    what may follow a value, scans back to its normal form with any fuel
    above its size. *)
Definition scans_back (v : json) : Prop :=
  forall level rest n, delimited rest -> (json_size v <= n)%nat ->
  scan_once n (L (dumps_at enc level v) ++ rest) = Ret (json_norm v, rest).

Lemma array_items_dumps level xs :
  Forall (fun x => wf_json x = true /\ scans_back x) xs -> forall acc rest n,
  xs <> [] -> delimited rest -> (sum_list_with (fun x => S (json_size x)) xs <= n)%nat ->
  array_items n (L (join ("," +:+ newline_indent enc.(enc_indent) (S level)) (map (dumps_at enc (S level)) xs))
                   ++ L (newline_indent enc.(enc_indent) level) ++ "]"%char :: rest) acc
  = Ret (JArr (rev acc ++ map json_norm xs), rest).
Proof.
  induction 1 as [|x xs [Hw Hx] HF IH]; intros acc rest n Hne Hr Hn; [done|].
  destruct n as [|n]; [cbn in Hn; lia|]. cbn [sum_list_with] in Hn. cbn [array_items].
  destruct xs as [|y ys].
  - cbn [map join]. rewrite Hx by (apply delimited_newline_indent || lia). cbn [res_bind].
    rewrite skip_ws_newline_indent. reflexivity.
  - rewrite map_cons, join_cons by done. rewrite !list_ascii_of_string_app, <- !app_assoc.
    rewrite Hx by (apply (delimited_comma _ _) || cbn [sum_list_with] in Hn; lia).
    cbn [res_bind]. rewrite skip_comma by done.
    rewrite skip_ws_newline_indent, skip_ws_starts by (apply join_starts; [intros; apply dumps_at_starts | done]).
    rewrite IH by (done || cbn [sum_list_with] in Hn |- *; lia).
    cbn [rev map]. by rewrite <- app_assoc.
Qed.

(** One member: its key, the colon and its value scan back; what comes
    next is the comma or the closing brace. *)
Lemma object_members_member level k v acc r n :
  scans_back v -> delimited r -> (json_size v <= n)%nat ->
  object_members (S n) (L (member_text enc level (k, v)) ++ r) acc =
  match skip_ws r with
  | c2 :: r4 =>
      if code c2 =? 125 then Ret (JObj (dict_set acc k (json_norm v)), r4)
      else if code c2 =? 44 then object_members n (skip_ws r4) (dict_set acc k (json_norm v))
      else Raise (ValueError "Expecting ',' delimiter")
  | [] => Raise (ValueError "Expecting ',' delimiter")
  end.
Proof.
  intros Hv Hr Hn. unfold member_text, encode_str. cbn [fst snd]. rewrite !list_ascii_of_string_app, <- !app_assoc.
  cbn [char_of list_ascii_of_string app object_members]. rewrite code_chr, Z.mod_small by lia.
  rewrite Z.eqb_refl, scanstring_escape_string. cbn [res_bind].
  rewrite (skip_ws_starts (":"%char :: _)) by (apply starts_value_code; unfold code; cbn; lia).
  change (code ":"%char) with 58. rewrite Z.eqb_refl.
  change (skip_ws (" "%char :: ?t)) with (skip_ws t). rewrite skip_ws_starts by apply dumps_at_starts.
  by rewrite Hv.
Qed.

Lemma object_members_dumps level ms :
  Forall (fun kv => wf_json kv.2 = true /\ scans_back kv.2) ms -> forall acc rest n,
  ms <> [] -> NoDup (map fst acc ++ map fst ms) -> delimited rest ->
  (sum_list_with (fun kv => S (json_size kv.2)) ms <= n)%nat ->
  object_members n (L (join ("," +:+ newline_indent enc.(enc_indent) (S level)) (map (member_text enc level) ms))
                      ++ L (newline_indent enc.(enc_indent) level) ++ "}"%char :: rest) acc
  = Ret (JObj (acc ++ map (fun kv => (kv.1, json_norm kv.2)) ms), rest).
Proof.
  induction 1 as [|[k v] ms [Hw Hv] HF IH]; intros acc rest n Hne Hnd Hr Hn; [done|].
  destruct n as [|n]; [cbn in Hn; lia|]. cbn [sum_list_with fst snd] in Hn.
  assert (Hk : k ∉ map fst acc).
  { intros Hin. apply NoDup_app in Hnd as (_ & Hd & _). apply (Hd k Hin). cbn. by left. }
  destruct ms as [|m ms].
  - cbn [map join]. rewrite object_members_member by (done || apply delimited_newline_indent || lia).
    rewrite skip_ws_newline_indent, dict_set_fresh by done. reflexivity.
  - rewrite map_cons, join_cons by done. rewrite !list_ascii_of_string_app, <- !app_assoc.
    rewrite object_members_member by (done || apply (delimited_comma _ _) || lia).
    rewrite skip_comma, skip_ws_newline_indent, dict_set_fresh by done.
    rewrite skip_ws_starts by (apply join_starts; [intros; apply member_text_starts | done]).
    rewrite IH by (done || (rewrite map_app, <- app_assoc; exact Hnd) || (cbn [sum_list_with] in Hn |- *; lia)).
    by rewrite <- app_assoc.
Qed.

Lemma Forall_wf {A} (P : A -> Prop) (w : A -> bool) xs :
  Forall (fun x => w x = true -> P x) xs -> forallb w xs = true -> Forall (fun x => w x = true /\ P x) xs.
Proof.
  rewrite forallb_forall, !List.Forall_forall. intros H Hw x Hx. specialize (Hw x Hx). auto.
Qed.

(** Every well-formed document scans back from its text. *)
Lemma scan_dumps v : wf_json v = true -> scans_back v.
Proof.
  induction v as [|b|z|s|xs IH|kvs IH] using json_ind; intros Hwf level rest [|n] Hr Hn;
    try (cbn [json_size] in Hn; lia).
  - reflexivity.
  - by destruct b.
  - by apply scan_once_int.
  - cbn [dumps_at json_norm]. unfold encode_str. rewrite !list_ascii_of_string_app, <- !app_assoc.
    cbn [char_of list_ascii_of_string app]. by rewrite scan_once_quote, scanstring_escape_string.
  - destruct xs as [|x xs]; [reflexivity|]. cbn [dumps_at json_norm json_size] in Hwf, Hn |- *.
    rewrite close_container_cons by done. rewrite !list_ascii_of_string_app, <- !app_assoc. cbn [list_ascii_of_string app].
    rewrite scan_once_open_array; rewrite skip_ws_newline_indent, skip_ws_starts by (apply join_starts; [intros; apply dumps_at_starts | done]);
      [| apply join_starts; [intros; apply dumps_at_starts | done]].
    rewrite array_items_dumps; [done | by apply Forall_wf | done | done | lia].
  - destruct kvs as [|kv kvs]; [reflexivity|].
    cbn [wf_json] in Hwf. apply andb_true_iff in Hwf as [Hnd Hwf]. apply bool_decide_eq_true in Hnd.
    rewrite dumps_at_obj, json_norm_obj by done.
    pose proof (merge_sort_Permutation key_le (kv :: kvs)) as Hp.
    assert (Hne : merge_sort key_le (kv :: kvs) <> []) by (intros E; rewrite E in Hp; by apply Permutation_nil_cons in Hp).
    rewrite close_container_cons by (by intros E; apply map_eq_nil in E).
    rewrite !list_ascii_of_string_app, <- !app_assoc. cbn [list_ascii_of_string app].
    rewrite scan_once_open_object; rewrite skip_ws_newline_indent, skip_ws_starts by (apply join_starts; [intros; apply member_text_starts | done]);
      [| apply join_starts; [intros; apply member_text_starts | done]].
    rewrite object_members_dumps; [done | | done | | done |].
    + rewrite Hp. apply Forall_wf; [exact IH|]. rewrite forallb_forall in Hwf |- *.
      intros [k w] Hin. exact (Hwf _ Hin).
    + by rewrite Hp.
    + cbn [json_size] in Hn. rewrite Hp. lia.
Qed.

End Roundtrip.

(** [json.loads] on a printed value followed by a text that may follow a
    value: the value, when only whitespace follows it. *)
Lemma loads_dumps_at_app enc v t :
  wf_json v = true -> delimited (L t) ->
  loads (dumps_at enc 0 v +:+ t) =
  match skip_ws (L t) with [] => Ret (json_norm v) | _ :: _ => Raise (ValueError "Extra data") end.
Proof.
  intros Hwf Ht. unfold loads. rewrite list_ascii_of_string_app, skip_ws_starts by apply dumps_at_starts.
  pose proof (json_size_le enc v Hwf 0).
  rewrite (scan_dumps enc v Hwf 0%nat (L t) _ Ht) by (rewrite length_app; lia).
  reflexivity.
Qed.

(** [json.loads] reads back any text [json.dumps] prints, with the
    program's options or others: the fuel [loads] gives is enough. *)
Lemma string_app_nil_r s : s +:+ EmptyString = s.
Proof. induction s as [|c s IH]; [done|]. change (String c (s +:+ "") = String c s). by rewrite IH. Qed.

Lemma loads_dumps_at enc v : wf_json v = true -> loads (dumps_at enc 0 v) = Ret (json_norm v).
Proof.
  intros Hwf. rewrite <- (string_app_nil_r (dumps_at enc 0 v)). by rewrite loads_dumps_at_app.
Qed.

(** ** The decoder never runs out of fuel *)

(** What a step of the scanner promises on a text [cs]: a value read from
    a non-empty prefix, or an exception of the decoder's own. *)
Definition progress {A} (x : res (A * list ascii)) (cs : list ascii) : Prop :=
  match x with Ret (_, r) => length r < length cs | Raise e => e <> FuelExhausted end%nat.

Lemma progress_weaken {A} (x : res (A * list ascii)) cs cs' :
  progress x cs' -> (length cs' <= length cs)%nat -> progress x cs.
Proof. destruct x as [[]|]; cbn; [lia | done]. Qed.

Lemma progress_raise {A} e cs : e <> FuelExhausted -> progress (Raise e : res (A * list ascii)) cs.
Proof. done. Qed.

Lemma progress_bind {A B} (x : res (A * list ascii)) (k : A * list ascii -> res (B * list ascii)) cs :
  progress x cs -> (forall a r, x = Ret (a, r) -> (length r < length cs)%nat -> progress (k (a, r)) cs) ->
  progress (res_bind x k) cs.
Proof. destruct x as [[a r]|e]; cbn; [eauto | done]. Qed.

Lemma skip_ws_length cs : (length (skip_ws cs) <= length cs)%nat.
Proof. induction cs as [|c r IH]; cbn; [lia | destruct (is_ws c); cbn; lia]. Qed.

Lemma strip_prefix_length w cs r : strip_prefix w cs = Some r -> (length r + length w = length cs)%nat.
Proof.
  revert cs. induction w as [|a w IH]; intros cs H; [injection H as <-; cbn; lia|].
  destruct cs as [|c cs]; [done|]. cbn in H.
  destruct (ascii_dec a c); [apply IH in H; cbn; lia | done].
Qed.

Lemma span_digits_length cs ds r : span_digits cs = (ds, r) -> (length r + length ds = length cs)%nat.
Proof.
  revert ds r. induction cs as [|c cs IH]; intros ds r H; cbn in H; [by injection H as <- <-|].
  destruct (digit_of c); [|by injection H as <- <-].
  destruct (span_digits cs) as [ds' r']. injection H as <- <-. specialize (IH _ _ eq_refl). cbn. lia.
Qed.

Lemma scanstring_progress cs : progress (scanstring cs) cs.
Proof.
  induction cs as [cs IH] using (induction_ltof1 _ (@length ascii)). unfold ltof in IH.
  destruct cs as [|c r]; [done|]. cbn [scanstring].
  repeat match goal with
  | |- progress (if ?b then _ else _) _ => destruct b
  | |- progress (match ?x with _ => _ end) _ => destruct x
  | |- progress (Ret _) _ => cbn; lia
  | |- progress (Raise _) _ => by apply progress_raise
  | |- progress (res_bind (scanstring ?t) _) _ =>
      apply progress_bind; [apply (progress_weaken _ _ t); [apply IH|]; cbn; lia | intros s rest _ ?; cbn in *; lia]
  end.
Qed.

Lemma int_part_progress (neg : bool) cs x :
  match int_digits cs with
  | None => None
  | Some (ds, rest) =>
      if float_follows rest then Some (Raise (Unrepresentable "a float"))
      else Some (Ret (JInt (if neg then - digits_value ds else digits_value ds), rest))
  end = Some x -> progress x cs.
Proof.
  intros E. destruct cs as [|c r]; [done|]. unfold int_digits in E.
  destruct (code c =? 48); [|destruct (is_digit c) eqn:Hd; [|done]].
  - destruct (float_follows r); injection E as <-; [done | cbn; lia].
  - unfold is_digit in Hd. destruct (digit_of c) eqn:Hdc; [|done].
    cbn [span_digits] in E. rewrite Hdc in E.
    destruct (span_digits r) as [ds rest] eqn:S. pose proof (span_digits_length _ _ _ S).
    destruct (float_follows rest); injection E as <-; [done | cbn; lia].
Qed.

Lemma match_number_progress cs x : match_number cs = Some x -> progress x cs.
Proof.
  unfold match_number. destruct cs as [|c r]; [done|].
  destruct (code c =? 45); intros E.
  - apply (int_part_progress true) in E. apply (progress_weaken _ _ r); [done | cbn; lia].
  - by apply (int_part_progress false) in E.
Qed.

(** Each step of the scanner reads a non-empty prefix of its text, and a
    fuel of twice the length of the text, plus one, is never exhausted: an
    array or an object takes two units per character it consumes at most
    (one for the container's loop, one for the value). *)
Lemma scan_progress n :
  (forall cs, (2 * length cs + 1 <= n)%nat -> progress (scan_once n cs) cs) /\
  (forall cs acc, (2 * length cs + 2 <= n)%nat -> progress (array_items n cs acc) cs) /\
  (forall cs acc, (2 * length cs + 2 <= n)%nat -> progress (object_members n cs acc) cs).
Proof.
  induction n as [|n (IHs & IHa & IHo)]; [repeat split; intros; lia|]. split; [|split].
  - intros [|c r] Hn; [by apply progress_raise|]. cbn [scan_once]. pose proof (skip_ws_length r).
    destruct (code c =? 34).
    { apply progress_bind; [apply (progress_weaken _ _ r); [apply scanstring_progress | cbn; lia]|].
      intros s rest _ ?. cbn in *. lia. }
    destruct (code c =? 123).
    { destruct (skip_ws r) as [|c' r'].
      - apply (progress_weaken _ _ []); [apply IHo; cbn in *; lia | cbn; lia].
      - destruct (code c' =? 125); [cbn in *; lia|].
        apply (progress_weaken _ _ (c' :: r')); [apply IHo | ]; cbn in *; lia. }
    destruct (code c =? 91).
    { destruct (skip_ws r) as [|c' r'].
      - apply (progress_weaken _ _ []); [apply IHa; cbn in *; lia | cbn; lia].
      - destruct (code c' =? 93); [cbn in *; lia|].
        apply (progress_weaken _ _ (c' :: r')); [apply IHa | ]; cbn in *; lia. }
    do 3 (let E := fresh in
          match goal with |- progress (match strip_prefix ?w ?t with _ => _ end) _ =>
            destruct (strip_prefix w t) as [rest|] eqn:E;
            [apply strip_prefix_length in E; cbn in *; lia|] end).
    destruct (_ || _ || _); [by apply progress_raise|].
    destruct (match_number (c :: r)) eqn:E; [by apply match_number_progress | by apply progress_raise].
  - intros cs acc Hn. cbn [array_items]. apply progress_bind; [apply IHs; lia|].
    intros v r _ Hr. pose proof (skip_ws_length r). destruct (skip_ws r) as [|c r']; [by apply progress_raise|].
    destruct (code c =? 93); [cbn in *; lia|]. destruct (code c =? 44); [|by apply progress_raise].
    pose proof (skip_ws_length r'). apply (progress_weaken _ _ (skip_ws r')); [apply IHa|]; cbn in *; lia.
  - intros [|c r] acc Hn; [by apply progress_raise|]. cbn [object_members].
    destruct (code c =? 34); [|by apply progress_raise].
    apply progress_bind; [apply (progress_weaken _ _ r); [apply scanstring_progress | cbn; lia]|].
    intros key r1 _ Hr1. pose proof (skip_ws_length r1). destruct (skip_ws r1) as [|c1 r2]; [by apply progress_raise|].
    destruct (code c1 =? 58); [|by apply progress_raise]. pose proof (skip_ws_length r2).
    apply progress_bind; [apply (progress_weaken _ _ (skip_ws r2)); [apply IHs|]; cbn in *; lia|].
    intros v r3 _ Hr3. pose proof (skip_ws_length r3). destruct (skip_ws r3) as [|c2 r4]; [by apply progress_raise|].
    destruct (code c2 =? 125); [cbn in *; lia|]. destruct (code c2 =? 44); [|by apply progress_raise].
    pose proof (skip_ws_length r4). apply (progress_weaken _ _ (skip_ws r4)); [apply IHo|]; cbn in *; lia.
Qed.

(** ** Properties of the decoder *)

(** C31 (the collector's round trip): [json.loads(str(event))] reads back
    the event, with its members sorted by key, and [json.dumps] of what it
    reads back is [json.dumps] of the event: the two texts the program
    prints of an event both parse back to its normal form. *)
Theorem loads_str_event event :
  wf_json event = true ->
  loads (oci_str event) = Ret (json_norm event) /\ loads (dumps event) = Ret (json_norm event).
Proof. intros Hwf. split; by apply loads_dumps_at. Qed.

(** C32 (one value, then only whitespace): [json.loads] of a body the
    collector prints followed by a comma, a bracket, a brace or a newline
    answers the document when only whitespace follows it, and raises
    [ValueError] with [Extra data] otherwise. *)
Theorem loads_extra_data v t :
  wf_json v = true -> delimited (L t) ->
  (skip_ws (L t) = [] -> loads (dumps v +:+ t) = Ret (json_norm v)) /\
  (skip_ws (L t) <> [] -> loads (dumps v +:+ t) = Raise (ValueError "Extra data")).
Proof.
  intros Hwf Ht. unfold dumps. rewrite loads_dumps_at_app by done.
  split; intros H; by destruct (skip_ws (L t)).
Qed.

(** The decoder builds dicts as Python does: [dict_set], the
    assignment [dict[key] = value] of [_parse_object_unicode], is the
    insertion into the finite map the members denote, and it keeps the
    order of the keys: a key already present stays in its place, a new one
    comes last. *)
Lemma dict_set_insert kvs k v :
  list_to_map (dict_set kvs k v) = (<[k:=v]> (list_to_map kvs) : gmap string json) /\
  map fst (dict_set kvs k v) = if bool_decide (k ∈ map fst kvs) then map fst kvs else map fst kvs ++ [k].
Proof.
  induction kvs as [|[k' v'] kvs [IHm IHk]]; [done|]. cbn [dict_set map fst].
  destruct (String.eqb_spec k' k) as [->|Hne].
  - cbn [list_to_map foldr fst snd]. rewrite insert_insert_eq, bool_decide_true by set_solver. done.
  - cbn [list_to_map foldr fst snd map]. rewrite IHm, insert_insert_ne by done. split; [done|].
    rewrite IHk. case_bool_decide as H1; case_bool_decide as H2; [done | set_solver | set_solver | done].
Qed.

(** C33 (the decoder terminates on every text): [json.loads] never runs
    out of fuel, whatever the text: it returns a document or raises one of
    the decoder's own errors ([ValueError], or [Unrepresentable] on a float
    or a character above U+00FF), so the fuel of the model never changes
    its answer. *)
Theorem loads_total s : loads s <> Raise FuelExhausted.
Proof.
  unfold loads. pose proof (skip_ws_length (L s)) as Hl.
  pose proof (proj1 (scan_progress (S (2 * length (L s)))) (skip_ws (L s)) ltac:(lia)) as Hp.
  destruct (scan_once _ (skip_ws (L s))) as [[v rest]|e]; cbn;
    [destruct (skip_ws rest); discriminate | congruence].
Qed.
