(* ===== verification/World.v ===== *)
(** * World: the environment the program runs in, and its primitive effects

    The program talks to the outside through [os.environ], the clock
    ([datetime.utcnow()]), the OCI identity and audit clients, the Azure
    Log Analytics query client, [requests.post], [print] and [logging].
    The external services are the record [services] (fixed for a run: what
    each API answers to each request); the mutable part is the record
    [world]: the trace of observable events (network calls, printed and
    logged lines), the region the shared audit client is set to, the number
    of clock reads and of POSTs so far.  Every operation of the program is a
    computation of [PyM], the monad of [Prelude] over [world], in the
    Section [Effects] whose variable [svc] is the services record. *)

From Stdlib Require Import String Ascii ZArith List Lia.
From stdpp Require Import base list strings gmap.
From S2P Require Import Prelude Text DateTime Json.

Open Scope Z_scope.

(** ** Data the external APIs return *)

(** [oci.identity.models.RegionSubscription] *)
Record region_subscription := mk_region_subscription {
  rs_region_key : string; rs_region_name : string;
  rs_status : string; rs_is_home_region : bool
}.

(** [oci.identity.models.Compartment] (the fields the program reads or
    that identify it) *)
Record compartment := mk_compartment {
  cp_id : string; cp_name : string;
  cp_compartment_id : string; cp_lifecycle_state : string
}.

(** One response of a paginated OCI list call: [response.data] and
    [response.next_page] ([has_next_page] is [next_page is not None]). *)
Record page (A : Type) := mk_page { pg_data : list A; pg_next_page : option string }.
Arguments mk_page {A} pg_data pg_next_page.
Arguments pg_data {A} p.
Arguments pg_next_page {A} p.

(** A cell of a Log Analytics result table: the JSON value of the REST
    response. *)
Inductive cell := CStr (s : string) | CInt (z : Z) | CNull.

(** [azure.loganalytics.models.Table]: its rows. *)
Record table := mk_table { tb_rows : list (list cell) }.

(** An HTTP request of [requests.post(uri, data=body, headers=headers)]. *)
Record request := mk_request {
  rq_uri : string; rq_headers : list (string * string); rq_body : string
}.

(** Header lookup in the dict literal of [post_data]. *)
Definition header (r : request) (k : string) : option string :=
  snd <$> find (fun kv => bool_decide (kv.1 = k)) r.(rq_headers).

(** ** The observable trace *)

Inductive call :=
| CAuthenticate (client_id tenant : string)     (** [ServicePrincipalCredentials(...)] *)
| CQuery (workspace query : string)             (** [LogAnalyticsDataClient.query] *)
| CListRegions (tenancy : string)               (** [identity.list_region_subscriptions] *)
| CListCompartments (parent : string) (page : option string)  (** [identity.list_compartments] *)
| CListEvents (region compartment : string) (start_time end_time : datetime) (page : option string)
                                                (** [audit.list_events] *)
| CPost (r : request).                          (** [requests.post] *)

Inductive event :=
| ENet (c : call)                  (** a network call, in the order made *)
| EPrint (s : string)              (** [print(s)] *)
| ELogInfo (s : string)            (** [logging.info] *)
| ELogError (status : Z) (headers : list (string * string)) (body : string).
                                   (** [logging.error] of a rejected POST *)

(** The requests POSTed, in order. *)
Fixpoint posts (tr : list event) : list request :=
  match tr with
  | [] => []
  | ENet (CPost r) :: tr' => r :: posts tr'
  | _ :: tr' => posts tr'
  end.

(** The network calls, in order. *)
Fixpoint net_calls (tr : list event) : list call :=
  match tr with
  | [] => []
  | ENet c :: tr' => c :: net_calls tr'
  | _ :: tr' => net_calls tr'
  end.

(** ** The services and the world *)

Record services := mk_services {
  sv_env : gmap string string;                        (** [os.environ] *)
  sv_clock : nat -> datetime;                         (** the n-th [utcnow()] *)
  sv_client_ok : list (string * string) -> bool;      (** client constructors accept the config *)
  sv_list_region_subscriptions : string -> res (list region_subscription);
  sv_list_compartments : string -> option string -> res (page compartment);
  sv_list_events : string -> string -> datetime -> datetime -> option string -> res (page json);
  sv_authenticate : string -> string -> string -> res unit;
  sv_query : string -> string -> res (list table);
  sv_post : nat -> request -> res Z                   (** the n-th POST: a status, or a transport error *)
}.

Record world := mk_world {
  w_trace : list event;
  w_region : string;          (** [audit.base_client] region *)
  w_clock : nat;              (** clock reads so far *)
  w_posts : nat               (** POSTs so far *)
}.

Abbreviation PyM := (st world).

Definition with_trace (f : list event -> list event) (w : world) : world :=
  mk_world (f w.(w_trace)) w.(w_region) w.(w_clock) w.(w_posts).

(** ** Primitive effects *)

Section Effects.
Context (svc : services).

Definition emit (e : event) : PyM unit := modify (with_trace (fun tr => tr ++ [e])).

(** [os.environ[k]] *)
Definition environ (k : string) : PyM string :=
  match svc.(sv_env) !! k with Some v => ret v | None => raise (KeyError k) end.

(** [datetime.utcnow()] *)
Definition utcnow : PyM datetime :=
  fun w => (Ret (svc.(sv_clock) w.(w_clock)),
            mk_world w.(w_trace) w.(w_region) (S w.(w_clock)) w.(w_posts)).

Definition print (s : string) : PyM unit := emit (EPrint s).
Definition log_info (s : string) : PyM unit := emit (ELogInfo s).

(** A network call: recorded, then its answer returned or raised. *)
Definition net {A} (c : call) (answer : res A) : PyM A := emit (ENet c) ;; of_res answer.

(** [requests.post(uri, data=body, headers=headers).status_code] *)
Definition http_post (r : request) : PyM Z :=
  fun w =>
    let out := svc.(sv_post) w.(w_posts) r in
    (out, mk_world (w.(w_trace) ++ [ENet (CPost r)]) w.(w_region) w.(w_clock) (S w.(w_posts))).

(** [oci.identity.IdentityClient(config)], [oci.audit.AuditClient(config)]:
    the constructors validate the configuration and raise on a bad one. *)
Definition make_client (config : list (string * string)) : PyM unit :=
  if svc.(sv_client_ok) config then ret tt else raise (ServiceError "InvalidConfig").

(** [audit.base_client.set_region(r)] *)
Definition set_region (r : string) : PyM unit :=
  fun w => (Ret tt, mk_world w.(w_trace) r w.(w_clock) w.(w_posts)).

(** [audit.list_events(compartment_id=c, start_time=s, end_time=e, page=p)],
    against the region the client is set to. *)
Definition list_events (c : string) (s e : datetime) (p : option string) : PyM (page json) :=
  fun w => net (CListEvents w.(w_region) c s e p) (svc.(sv_list_events) w.(w_region) c s e p) w.

End Effects.

(** [observes obs P m Q o]: from every world satisfying [P], [m] returns
    normally a value satisfying [Q], in a world satisfying [P], only
    appending to the trace, and what the observation [obs] sees of the
    events it appends is [o], in this order. *)
Definition observes {X A} (obs : event -> list X) (P : world -> Prop) (m : PyM A) (Q : A -> Prop)
    (o : list X) : Prop :=
  forall w, P w ->
  exists a d w', m w = (Ret a, w') /\ Q a /\ P w' /\
                 w'.(w_trace) = w.(w_trace) ++ d /\ flat_map obs d = o.

(** The body of a POST, the observation of a delivery. *)
Definition post_body (e : event) : list string :=
  match e with ENet (CPost r) => [rq_body r] | _ => [] end.

(** [yields P m Q bodies]: [m] returns normally and the POSTs it makes carry
    the bodies [bodies], in this order. *)
Definition yields {A} (P : world -> Prop) (m : PyM A) (Q : A -> Prop) (bodies : list string) : Prop :=
  observes post_body P m Q bodies.

(** Unfold the monad and the primitive effects. *)
Ltac world_simpl :=
  cbv beta iota zeta delta [bind ret raise try_except get modify of_res emit print
       log_info net with_trace utcnow http_post set_region list_events] in *;
  cbn [w_trace w_region w_clock w_posts fst snd] in *.

(** ** The trace only grows *)

(** A computation that only appends to the trace, whatever it returns or
    raises. *)
Definition appends {A} (m : PyM A) : Prop :=
  forall w, exists d, (m w).2.(w_trace) = w.(w_trace) ++ d.

Lemma appends_ret {A} (a : A) : appends (ret a).
Proof. intros w. exists []. by rewrite app_nil_r. Qed.

Lemma appends_raise {A} e : appends (@raise _ A e).
Proof. intros w. exists []. by rewrite app_nil_r. Qed.

Lemma appends_of_res {A} (r : res A) : appends (of_res r).
Proof. intros w. exists []. by rewrite app_nil_r. Qed.

Lemma appends_bind {A B} (m : PyM A) (k : A -> PyM B) :
  appends m -> (forall a, appends (k a)) -> appends (bind m k).
Proof.
  intros Hm Hk w. unfold bind. destruct (Hm w) as [d Hd].
  destruct (m w) as [[a|e] w'] eqn:E; simpl in *.
  - destruct (Hk a w') as [d' Hd']. exists (d ++ d'). by rewrite Hd', Hd, app_assoc.
  - by exists d.
Qed.

Lemma appends_try {A} (m : PyM A) (h : exn -> PyM A) :
  appends m -> (forall e, appends (h e)) -> appends (try_except m h).
Proof.
  intros Hm Hh w. unfold try_except. destruct (Hm w) as [d Hd].
  destruct (m w) as [[a|e] w'] eqn:E; simpl in *.
  - by exists d.
  - destruct (Hh e w') as [d' Hd']. exists (d ++ d'). by rewrite Hd', Hd, app_assoc.
Qed.

Lemma appends_for_each {A} (f : A -> PyM unit) l :
  (forall x, appends (f x)) -> appends (for_each f l).
Proof.
  intros Hf. induction l; simpl; [apply appends_ret | by apply appends_bind].
Qed.

Lemma appends_emit e : appends (emit e).
Proof. intros w. by exists [e]. Qed.

Lemma appends_print s : appends (print s).
Proof. apply appends_emit. Qed.

Lemma appends_log_info s : appends (log_info s).
Proof. apply appends_emit. Qed.

Lemma appends_environ svc k : appends (environ svc k).
Proof. unfold environ. destruct (_ !! _); [apply appends_ret | apply appends_raise]. Qed.

Lemma appends_utcnow svc : appends (utcnow svc).
Proof. intros w. exists []. by rewrite app_nil_r. Qed.

Lemma appends_net {A} c (r : res A) : appends (net c r).
Proof. apply appends_bind; [apply appends_emit | intros; apply appends_of_res]. Qed.

Lemma appends_http_post svc r : appends (http_post svc r).
Proof. intros w. by eexists. Qed.

Lemma appends_make_client svc c : appends (make_client svc c).
Proof. unfold make_client. destruct (sv_client_ok _ _); [apply appends_ret | apply appends_raise]. Qed.

Lemma appends_set_region r : appends (set_region r).
Proof. intros w. exists []. by rewrite app_nil_r. Qed.

Lemma appends_list_events svc c s e p : appends (list_events svc c s e p).
Proof. intros w. apply appends_net. Qed.

Create HintDb appends discriminated.
#[export] Hint Resolve appends_ret appends_raise appends_of_res appends_bind appends_try
  appends_for_each appends_emit appends_print appends_log_info appends_environ appends_utcnow appends_net
  appends_http_post appends_make_client appends_set_region appends_list_events : appends.

(** Prove [appends] of a program by unfolding it into the primitives. *)
Ltac solve_appends :=
  repeat (intros; cbv zeta;
          first [ solve [eauto with appends]
                | eapply appends_bind
                | eapply appends_try
                | apply appends_for_each
                | match goal with |- appends (match ?x with _ => _ end) => destruct x end ]).

(** ** Computations that do not read the audit client's region

    [region_free m]: [m] neither reads nor writes the region of the shared
    audit client; run from a world whose region is changed, it gives the
    same result and the same world, with the region changed alike.  Every
    effect but [set_region] and [list_events] is region-free. *)
Definition with_region (r : string) (w : world) : world :=
  mk_world w.(w_trace) r w.(w_clock) w.(w_posts).

Definition region_free {A} (m : PyM A) : Prop :=
  forall r w, m (with_region r w) = ((m w).1, with_region r (m w).2).

Lemma with_region_self w : with_region w.(w_region) w = w.
Proof. by destruct w. Qed.

Lemma with_region_twice r r' w : with_region r (with_region r' w) = with_region r w.
Proof. reflexivity. Qed.

(** A region-free computation keeps the region. *)
Lemma region_free_keeps {A} (m : PyM A) w : region_free m -> (m w).2.(w_region) = w.(w_region).
Proof. intros H. pose proof (H w.(w_region) w) as E. rewrite with_region_self in E. by rewrite E. Qed.

Lemma region_free_ret {A} (a : A) : region_free (ret a).
Proof. done. Qed.

Lemma region_free_raise {A} e : region_free (@raise _ A e).
Proof. done. Qed.

Lemma region_free_of_res {A} (r : res A) : region_free (of_res r).
Proof. done. Qed.

Lemma region_free_bind {A B} (m : PyM A) (k : A -> PyM B) :
  region_free m -> (forall a, region_free (k a)) -> region_free (bind m k).
Proof.
  intros Hm Hk r w. unfold bind. rewrite Hm. destruct (m w) as [[a|e] w']; cbn; [apply Hk | done].
Qed.

Lemma region_free_try {A} (m : PyM A) (h : exn -> PyM A) :
  region_free m -> (forall e, region_free (h e)) -> region_free (try_except m h).
Proof.
  intros Hm Hh r w. unfold try_except. rewrite Hm. destruct (m w) as [[a|e] w']; cbn; [done | apply Hh].
Qed.

Lemma region_free_for_each {A} (f : A -> PyM unit) l :
  (forall x, region_free (f x)) -> region_free (for_each f l).
Proof. intros Hf. induction l; cbn; [apply region_free_ret | by apply region_free_bind]. Qed.

Lemma region_free_emit e : region_free (emit e).
Proof. done. Qed.

Lemma region_free_print s : region_free (print s).
Proof. done. Qed.

Lemma region_free_log_info s : region_free (log_info s).
Proof. done. Qed.

Lemma region_free_net {A} c (r : res A) : region_free (net c r).
Proof. done. Qed.

Lemma region_free_environ svc k : region_free (environ svc k).
Proof. unfold environ. destruct (_ !! _); done. Qed.

Lemma region_free_utcnow svc : region_free (utcnow svc).
Proof. done. Qed.

Lemma region_free_http_post svc r : region_free (http_post svc r).
Proof. done. Qed.

Lemma region_free_make_client svc c : region_free (make_client svc c).
Proof. unfold make_client. by destruct (sv_client_ok _ _). Qed.

Create HintDb region_free discriminated.
#[export] Hint Resolve region_free_ret region_free_raise region_free_of_res region_free_bind region_free_try
  region_free_for_each region_free_emit region_free_print region_free_log_info region_free_net
  region_free_environ region_free_utcnow region_free_http_post region_free_make_client : region_free.

(** Prove [region_free] of a program by unfolding it into the primitives. *)
Ltac solve_region_free :=
  repeat (intros; cbv zeta;
          first [ solve [eauto with region_free]
                | eapply region_free_bind
                | eapply region_free_try
                | apply region_free_for_each
                | match goal with |- region_free (match ?x with _ => _ end) => destruct x end ]).

(** ** Trace lemmas *)

Lemma posts_app tr1 tr2 : posts (tr1 ++ tr2) = posts tr1 ++ posts tr2.
Proof. induction tr1 as [|[[]| | |] tr1 IH]; simpl; by rewrite ?IH. Qed.

Lemma net_calls_app tr1 tr2 : net_calls (tr1 ++ tr2) = net_calls tr1 ++ net_calls tr2.
Proof. induction tr1 as [|[]]; simpl; by rewrite ?IHtr1. Qed.

#[export] Hint Rewrite posts_app net_calls_app : pyw_rw.

(** A network call that is answered: recorded, then the continuation. *)
Lemma bind_net_Ret {A B} c (a : A) (k : A -> PyM B) w :
  bind (net c (Ret a)) k w = k a (with_trace (fun tr => tr ++ [ENet c]) w).
Proof. reflexivity. Qed.

Lemma bind_net_Raise {A B} c e (k : A -> PyM B) w :
  bind (net c (Raise e)) k w = (Raise e, with_trace (fun tr => tr ++ [ENet c]) w).
Proof. reflexivity. Qed.

(** The events no observation of a delivery sees: everything but the page
    requests of the audit API and the POSTs. *)
Definition quiet_event (e : event) : bool :=
  match e with ENet (CListEvents _ _ _ _ _) | ENet (CPost _) => false | _ => true end.

Definition obs_quiet {X} (obs : event -> list X) : Prop :=
  forall e, quiet_event e = true -> obs e = [].

(** ** Reasoning with [observes] *)

Lemma post_body_posts d : flat_map post_body d = map rq_body (posts d).
Proof. induction d as [|[[]| | |] d IH]; simpl; by rewrite ?IH. Qed.

Lemma flat_map_quiet {X} (obs : event -> list X) d :
  obs_quiet obs -> forallb quiet_event d = true -> flat_map obs d = [].
Proof.
  intros Hq. induction d as [|e d IH]; [done|]. simpl. intros [He Hd]%andb_true_iff.
  by rewrite Hq, IH.
Qed.

Lemma post_body_quiet : obs_quiet post_body.
Proof. by intros [[]| | |]. Qed.

(** Every body a computation yields is the body of a POST in the trace of
    its final world. *)
Lemma yields_delivers {A} P (m : PyM A) Q bodies b w :
  yields P m Q bodies -> P w -> b ∈ bodies ->
  exists a w', m w = (Ret a, w') /\ Q a /\ exists rq, rq ∈ posts w'.(w_trace) /\ rq.(rq_body) = b.
Proof.
  intros Hy Hw Hb. destruct (Hy w Hw) as (a & d & w' & Hm & HQ & _ & Ht & Ho).
  exists a, w'. split; [done|]. split; [done|]. rewrite post_body_posts in Ho. subst bodies.
  apply list_elem_of_In, in_map_iff in Hb as (rq & <- & Hrq). exists rq. split; [|done].
  rewrite Ht, posts_app. apply elem_of_app. right. by apply list_elem_of_In.
Qed.

Section Observes.
Context {X : Type} (obs : event -> list X) (P : world -> Prop).

Lemma observes_ret {A} (a : A) (Q : A -> Prop) : Q a -> observes obs P (ret a) Q [].
Proof. intros Ha w Hw. exists a, [], w. by rewrite app_nil_r. Qed.

Lemma observes_bind {A B} (m : PyM A) (k : A -> PyM B) Q Q' o1 o2 :
  observes obs P m Q o1 -> (forall a, Q a -> observes obs P (k a) Q' o2) ->
  observes obs P (bind m k) Q' (o1 ++ o2).
Proof.
  intros H1 H2 w Hw. destruct (H1 w Hw) as (a & d1 & w1 & E1 & Q1 & R1 & T1 & B1).
  destruct (H2 a Q1 w1 R1) as (b & d2 & w2 & E2 & Q2 & R2 & T2 & B2).
  exists b, (d1 ++ d2), w2. rewrite (bind_Ret _ _ _ _ _ E1).
  repeat split; [done | done | done | by rewrite T2, T1, app_assoc | by rewrite flat_map_app, B1, B2].
Qed.

Lemma observes_bind_nil {A B} (m : PyM A) (k : A -> PyM B) Q Q' o2 :
  observes obs P m Q [] -> (forall a, Q a -> observes obs P (k a) Q' o2) ->
  observes obs P (bind m k) Q' o2.
Proof. intros H1 H2. exact (observes_bind m k Q Q' [] o2 H1 H2). Qed.

Lemma observes_weaken {A} (m : PyM A) (Q Q' : A -> Prop) o :
  observes obs P m Q o -> (forall a, Q a -> Q' a) -> observes obs P m Q' o.
Proof.
  intros H HQ w Hw. destruct (H w Hw) as (a & d & w' & E & Qa & R).
  exists a, d, w'. auto.
Qed.

Lemma observes_for_each {A} (f : A -> PyM unit) (g : A -> list X) l :
  (forall x, x ∈ l -> observes obs P (f x) (fun _ => True) (g x)) ->
  observes obs P (for_each f l) (fun _ => True) (flat_map g l).
Proof.
  induction l as [|x l IH]; intros H; simpl; [by apply observes_ret|].
  apply (observes_bind _ _ (fun _ => True)); [apply H; set_solver | intros; apply IH; set_solver].
Qed.

(** A step that appends one event and changes nothing else. *)
Lemma observes_emit e o :
  (forall w, P w -> P (with_trace (fun tr => tr ++ [e]) w)) ->
  obs e = o -> observes obs P (emit e) (fun _ => True) o.
Proof.
  intros HP He w Hw. exists tt, [e], (with_trace (fun tr => tr ++ [e]) w).
  repeat split; auto. simpl. by rewrite app_nil_r.
Qed.

Lemma observes_net {A} c (a : A) (Q : A -> Prop) o :
  (forall w, P w -> P (with_trace (fun tr => tr ++ [ENet c]) w)) ->
  obs (ENet c) = o -> Q a -> observes obs P (net c (Ret a)) Q o.
Proof.
  intros HP Hc Ha. rewrite <- (app_nil_r o).
  apply (observes_bind _ _ (fun _ => True)); [by apply observes_emit|].
  intros. by apply observes_ret.
Qed.

Lemma observes_of_res {A} (a : A) (Q : A -> Prop) : Q a -> observes obs P (of_res (Ret a)) Q [].
Proof. intros Ha w Hw. exists a, [], w. by rewrite app_nil_r. Qed.
End Observes.

(** What one observation sees is computed from what another sees. *)
Lemma observes_map {X Y A} (obs1 : event -> list X) (obs2 : event -> list Y) (f : X -> list Y)
    P (m : PyM A) Q o :
  (forall e, obs2 e = flat_map f (obs1 e)) ->
  observes obs1 P m Q o -> observes obs2 P m Q (flat_map f o).
Proof.
  intros Hf H w Hw. destruct (H w Hw) as (a & d & w' & E & Qa & R & T & O).
  exists a, d, w'. repeat split; auto. subst o. clear -Hf.
  induction d as [|e d IH]; [done|]. simpl. by rewrite Hf, IH, flat_map_app.
Qed.

(** The region of the audit client is kept by every step but [set_region]. *)
Lemma with_trace_region f w : (with_trace f w).(w_region) = w.(w_region).
Proof. done. Qed.

Section ObservesPrimitives.
Context (svc : services) {X : Type} (obs : event -> list X) (P : world -> Prop).

Lemma observes_list_events r c s e p pg o :
  svc.(sv_list_events) r c s e p = Ret pg -> obs (ENet (CListEvents r c s e p)) = o ->
  observes obs (fun w => w.(w_region) = r) (list_events svc c s e p) (fun x => x = pg) o.
Proof.
  intros Hf Ho w Hw. unfold list_events. rewrite Hw, Hf.
  by apply (observes_net obs (fun w => w.(w_region) = r)).
Qed.

Lemma observes_environ k v :
  svc.(sv_env) !! k = Some v -> observes obs P (environ svc k) (fun x => x = v) [].
Proof. intros Hk. unfold environ. rewrite Hk. by apply observes_ret. Qed.

Lemma observes_make_client cfg :
  svc.(sv_client_ok) cfg = true -> observes obs P (make_client svc cfg) (fun _ => True) [].
Proof. intros Hc. unfold make_client. rewrite Hc. by apply observes_ret. Qed.

Lemma observes_utcnow :
  (forall w, P w -> P (mk_world w.(w_trace) w.(w_region) (S w.(w_clock)) w.(w_posts))) ->
  observes obs P (utcnow svc) (fun _ => True) [].
Proof. intros HP w Hw. eexists _, [], _. rewrite app_nil_r. by repeat split; auto. Qed.

Lemma observes_print s :
  (forall w, P w -> P (with_trace (fun tr => tr ++ [EPrint s]) w)) -> obs (EPrint s) = [] ->
  observes obs P (print s) (fun _ => True) [].
Proof. apply observes_emit. Qed.

Lemma observes_set_region r : observes obs (fun _ => True) (set_region r) (fun _ => True) [].
Proof. intros w _. eexists tt, [], _. rewrite app_nil_r. by repeat split. Qed.
End ObservesPrimitives.

(** ** Runs that stop on an exception *)

(** [raises obs P m e o]: from every world satisfying [P], [m] raises [e],
    only appending to the trace, and what [obs] sees of the events it
    appends before raising is [o]. *)
Definition raises {X A} (obs : event -> list X) (P : world -> Prop) (m : PyM A) (e : exn)
    (o : list X) : Prop :=
  forall w, P w ->
  exists d w', m w = (Raise e, w') /\ w'.(w_trace) = w.(w_trace) ++ d /\ flat_map obs d = o.

Section Raises.
Context {X : Type} (obs : event -> list X) (P : world -> Prop).

Lemma raises_net {A} c e o : obs (ENet c) = o -> raises obs P (@net A c (Raise e)) e o.
Proof. intros Ho w _. eexists [ENet c], _. split; [reflexivity|]. simpl. by rewrite app_nil_r. Qed.

(** The exception of the first step escapes the sequence. *)
Lemma raises_bind_l {A B} (m : PyM A) (k : A -> PyM B) e o :
  raises obs P m e o -> raises obs P (bind m k) e o.
Proof.
  intros H w Hw. destruct (H w Hw) as (d & w' & E & T & O).
  exists d, w'. unfold bind. by rewrite E.
Qed.

(** The first step returns, the continuation raises. *)
Lemma raises_bind_r {A B} (m : PyM A) (k : A -> PyM B) Q e o1 o2 :
  observes obs P m Q o1 -> (forall a, Q a -> raises obs P (k a) e o2) ->
  raises obs P (bind m k) e (o1 ++ o2).
Proof.
  intros H1 H2 w Hw. destruct (H1 w Hw) as (a & d1 & w1 & E1 & Q1 & R1 & T1 & O1).
  destruct (H2 a Q1 w1 R1) as (d2 & w2 & E2 & T2 & O2).
  exists (d1 ++ d2), w2. rewrite (bind_Ret _ _ _ _ _ E1).
  repeat split; [done | by rewrite T2, T1, app_assoc | by rewrite flat_map_app, O1, O2].
Qed.

Lemma raises_bind_r_nil {A B} (m : PyM A) (k : A -> PyM B) Q e o2 :
  observes obs P m Q [] -> (forall a, Q a -> raises obs P (k a) e o2) ->
  raises obs P (bind m k) e o2.
Proof. intros H1 H2. exact (raises_bind_r m k Q e [] o2 H1 H2). Qed.

(** A loop whose body returns on the elements before [x] and raises on
    [x]: the elements after [x] are never visited. *)
Lemma raises_for_each {A} (f : A -> PyM unit) (g : A -> list X) l1 x l2 e o :
  (forall y, y ∈ l1 -> observes obs P (f y) (fun _ => True) (g y)) ->
  raises obs P (f x) e o ->
  raises obs P (for_each f (l1 ++ x :: l2)) e (flat_map g l1 ++ o).
Proof.
  induction l1 as [|y l1 IH]; intros Hl Hx; simpl.
  - by apply raises_bind_l.
  - rewrite <- app_assoc. apply (raises_bind_r _ _ (fun _ => True)); [apply Hl; set_solver|].
    intros _ _. apply IH; [intros; apply Hl; set_solver | done].
Qed.
End Raises.

(** ** Invariants of the world: partial-correctness triples

    [triple I m Q]: from a world satisfying [I], [m] ends (returning or
    raising) in a world satisfying [I], and a value it returns satisfies
    [Q].  Unlike [yields], it says nothing about termination or errors:
    it holds of every run, failed ones included. *)
Definition triple {A} (I : world -> Prop) (m : PyM A) (Q : A -> Prop) : Prop :=
  forall w, I w -> I (m w).2 /\ forall a, (m w).1 = Ret a -> Q a.

(** The invariant that every item the observation [obs] sees in the trace
    satisfies [Pr]. *)
Definition trace_inv {X} (obs : event -> list X) (Pr : X -> Prop) (w : world) : Prop :=
  Forall Pr (flat_map obs w.(w_trace)).

(** The request of a POST. *)
Definition post_req (e : event) : list request :=
  match e with ENet (CPost r) => [r] | _ => [] end.

(** The invariant that every POST of the trace satisfies [Pr]. *)
Definition posts_inv (Pr : request -> Prop) : world -> Prop := trace_inv post_req Pr.

Lemma posts_inv_spec Pr w : posts_inv Pr w <-> Forall Pr (posts w.(w_trace)).
Proof.
  unfold posts_inv, trace_inv. enough (flat_map post_req w.(w_trace) = posts w.(w_trace)) as -> by done.
  induction (w_trace w) as [|[[]| | |] tr IH]; simpl; by rewrite ?IH.
Qed.

Section Triples.
Context (I : world -> Prop).

Lemma triple_ret {A} (a : A) (Q : A -> Prop) : Q a -> triple I (ret a) Q.
Proof. intros Ha w Hw. split; [done|]. by intros ? [= <-]. Qed.

Lemma triple_raise {A} e (Q : A -> Prop) : triple I (raise e) Q.
Proof. intros w Hw. by split. Qed.

Lemma triple_of_res {A} (r : res A) : triple I (of_res r) (fun a => r = Ret a).
Proof. intros w Hw. by split. Qed.

Lemma triple_of_res_true {A} (r : res A) : triple I (of_res r) (fun _ => True).
Proof. intros w Hw. by split. Qed.

Lemma triple_bind {A B} (m : PyM A) (k : A -> PyM B) Q Q' :
  triple I m Q -> (forall a, Q a -> triple I (k a) Q') -> triple I (bind m k) Q'.
Proof.
  intros Hm Hk w Hw. unfold bind. destruct (Hm w Hw) as [Hw' HQ].
  destruct (m w) as [[a|e] w']; simpl in *; [|by split].
  by apply Hk; [apply HQ|].
Qed.

Lemma triple_try {A} (m : PyM A) (h : exn -> PyM A) Q :
  triple I m Q -> (forall e, triple I (h e) Q) -> triple I (try_except m h) Q.
Proof.
  intros Hm Hh w Hw. unfold try_except. destruct (Hm w Hw) as [Hw' HQ].
  destruct (m w) as [[a|e] w']; simpl in *; [by split|]. by apply Hh.
Qed.

Lemma triple_for_each {A} (f : A -> PyM unit) l :
  (forall x, triple I (f x) (fun _ => True)) -> triple I (for_each f l) (fun _ => True).
Proof.
  intros Hf. induction l; simpl; [by apply triple_ret|].
  apply (triple_bind _ _ (fun _ => True)); auto.
Qed.

Lemma triple_weaken {A} (m : PyM A) (Q Q' : A -> Prop) :
  triple I m Q -> (forall a, Q a -> Q' a) -> triple I m Q'.
Proof. intros H HQ w Hw. destruct (H w Hw) as [H1 H2]. split; auto. Qed.
End Triples.

Section TraceInvariant.
Context (svc : services) {X : Type} (obs : event -> list X) (Pr : X -> Prop).

Lemma trace_inv_append w d :
  trace_inv obs Pr w -> Forall Pr (flat_map obs d) -> trace_inv obs Pr (with_trace (fun tr => tr ++ d) w).
Proof. intros H1 H2. unfold trace_inv. cbn. rewrite flat_map_app. by apply Forall_app. Qed.

Lemma triple_emit e :
  Forall Pr (obs e) -> triple (trace_inv obs Pr) (emit e) (fun _ => True).
Proof.
  intros He w Hw. split; [|done]. apply trace_inv_append; [done|]. simpl. by rewrite app_nil_r.
Qed.

Lemma triple_net {A} c (r : res A) :
  Forall Pr (obs (ENet c)) -> triple (trace_inv obs Pr) (net c r) (fun a => r = Ret a).
Proof.
  intros Hc. apply (triple_bind _ _ _ (fun _ => True)); [by apply triple_emit|].
  intros. apply triple_of_res.
Qed.

Lemma triple_print s : Forall Pr (obs (EPrint s)) -> triple (trace_inv obs Pr) (print s) (fun _ => True).
Proof. apply triple_emit. Qed.

Lemma triple_log_info s : Forall Pr (obs (ELogInfo s)) -> triple (trace_inv obs Pr) (log_info s) (fun _ => True).
Proof. apply triple_emit. Qed.

Lemma triple_environ k :
  triple (trace_inv obs Pr) (environ svc k) (fun v => svc.(sv_env) !! k = Some v).
Proof.
  unfold environ. destruct (_ !! k) eqn:E; [by apply triple_ret | apply triple_raise].
Qed.

(** [utcnow] returns one of the clock's readings. *)
Lemma triple_utcnow : triple (trace_inv obs Pr) (utcnow svc) (fun d => exists n, d = svc.(sv_clock) n).
Proof. intros w Hw. split; [done|]. intros ? [= <-]. by eexists. Qed.

Lemma triple_make_client cfg : triple (trace_inv obs Pr) (make_client svc cfg) (fun _ => True).
Proof. unfold make_client. destruct (sv_client_ok _ _); [by apply triple_ret | apply triple_raise]. Qed.

Lemma triple_set_region r : triple (trace_inv obs Pr) (set_region r) (fun _ => True).
Proof. intros w Hw. by split. Qed.

Lemma triple_list_events c s e p :
  (forall r, Forall Pr (obs (ENet (CListEvents r c s e p)))) ->
  triple (trace_inv obs Pr) (list_events svc c s e p) (fun _ => True).
Proof.
  intros Hc w Hw. unfold list_events.
  destruct (triple_net (CListEvents w.(w_region) c s e p) (sv_list_events svc w.(w_region) c s e p)
                (Hc _) w Hw) as [H1 _].
  by split.
Qed.

Lemma triple_http_post r :
  Forall Pr (obs (ENet (CPost r))) -> triple (trace_inv obs Pr) (http_post svc r) (fun _ => True).
Proof.
  intros Hr w Hw. split; [|done]. unfold http_post.
  apply (trace_inv_append w [ENet (CPost r)]); [done|]. simpl. by rewrite app_nil_r.
Qed.
End TraceInvariant.

Create HintDb triples discriminated.
#[export] Hint Resolve triple_ret triple_raise triple_of_res triple_of_res_true triple_print triple_log_info
  triple_environ triple_utcnow triple_make_client triple_set_region triple_list_events : triples.
(** The side condition of an event: what the observation sees of it
    satisfies the invariant (nothing, or one item that does). *)
Ltac forall_obs :=
  cbn; first [apply List.Forall_nil | apply List.Forall_cons; [done | apply List.Forall_nil]].
#[export] Hint Extern 2 (Forall _ _) => forall_obs : triples.

(** Prove a [triple] by the rules of the monad, the primitives, and the
    tactic [hook] for the calls to other components. *)
Ltac solve_triple_with hook :=
  repeat (intros; cbv zeta;
          first [ solve [eauto with triples]
                | match goal with
                  | |- triple _ (bind _ _) _ => eapply triple_bind
                  | |- triple _ (try_except _ _) _ => eapply triple_try
                  | |- triple _ (for_each _ _) _ => apply triple_for_each
                  | |- triple _ (net _ _) _ => apply triple_net; eauto with triples
                  | |- triple _ (match ?x with _ => _ end) _ => destruct x
                  end
                | hook ]).

Ltac solve_triple := solve_triple_with fail.
