(* ===== verification/Signer.v ===== *)
(** * Signer: [build_signature] (src/OCItoLogAnalytics/__init__.py, lines 151-158)

    The shared-key authorisation of the Log Analytics HTTP Data Collector
    API: the canonical string [METHOD \n LENGTH \n TYPE \n x-ms-date:DATE \n
    RESOURCE] ([canonical_string]) is encoded in UTF-8, authenticated with
    HMAC-SHA256 under the base64-decoded shared key, and the base64 digest is
    prefixed with [SharedKey customer_id:].  The function is pure; it raises
    when the shared key is not valid base64 ([binascii.Error], a
    [ValueError]). *)

From Stdlib Require Import String Ascii ZArith List Lia.
From stdpp Require Import base list strings.
From S2P Require Import Prelude Text Crypto.

Open Scope Z_scope.

Definition newline : string := char_of 10.

(** [string_to_hash] *)
Definition canonical_string (method : string) (content_length : nat)
    (content_type date resource : string) : string :=
  let x_headers := "x-ms-date:" +:+ date in
  method +:+ newline +:+ py_str_nat content_length +:+ newline +:+ content_type
  +:+ newline +:+ x_headers +:+ newline +:+ resource.

Definition build_signature (customer_id shared_key date : string) (content_length : nat)
    (method content_type resource : string) : res string :=
  let bytes_to_hash := utf8_encode (canonical_string method content_length content_type date resource) in
  match Base64.b64decode shared_key with
  | Ret decoded_key =>
      let encoded_hash :=
        decode_ascii (Base64.b64encode (Hmac.hmac_sha256 decoded_key bytes_to_hash)) in
      Ret ("SharedKey " +:+ customer_id +:+ ":" +:+ encoded_hash)
  | Raise e => Raise e
  end.

(** Python's [s.split('\n')]. *)
Fixpoint split_newline (s : string) : list string :=
  match s with
  | EmptyString => [EmptyString]
  | String c s' =>
      if ascii_dec c (chr 10) then EmptyString :: split_newline s'
      else match split_newline s' with
           | [] => [String c EmptyString]
           | x :: xs => String c x :: xs
           end
  end.

(** ['\n' in s] *)
Definition has_newline (s : string) : bool :=
  existsb (fun c => bool_decide (c = chr 10)) (list_ascii_of_string s).

(** ** Lemmas *)

Lemma split_newline_single s : has_newline s = false -> split_newline s = [s].
Proof.
  unfold has_newline. induction s as [|c s IH]; [done|]. cbn.
  intros [Hc Hs]%orb_false_iff. rewrite IH by done.
  destruct (ascii_dec c (chr 10)) as [->|]; [by rewrite bool_decide_eq_true_2 in Hc|done].
Qed.

Lemma split_newline_cons a b :
  has_newline a = false -> split_newline (a +:+ newline +:+ b) = a :: split_newline b.
Proof.
  induction a as [|c a IH]; [done|]. intros H.
  unfold has_newline in H. cbn [list_ascii_of_string existsb] in H.
  apply orb_false_iff in H as [Hc Ha].
  change (String c a +:+ newline +:+ b) with (String c (a +:+ newline +:+ b)).
  cbn [split_newline]. rewrite IH by done.
  destruct (ascii_dec c (chr 10)) as [->|]; [by rewrite bool_decide_eq_true_2 in Hc|done].
Qed.

Lemma py_str_nat_no_newline n : has_newline (py_str_nat n) = false.
Proof.
  unfold py_str_nat, has_newline. generalize (Nat.to_uint n).
  induction u; cbn; rewrite ?IHu; reflexivity.
Qed.

Lemma has_newline_x_ms_date d : has_newline d = false -> has_newline ("x-ms-date:" +:+ d) = false.
Proof. done. Qed.

(** C16 (the canonical string is unambiguous): when the method, content
    type, date and resource contain no newline, splitting the string to
    hash at its newlines gives back exactly the five fields: the method,
    [str(content_length)], the content type, [x-ms-date:DATE] and the
    resource.  Distinct requests therefore hash distinct strings. *)
Theorem canonical_string_fields m n ct d r :
  has_newline m = false -> has_newline ct = false -> has_newline d = false ->
  has_newline r = false ->
  split_newline (canonical_string m n ct d r) =
    [m; py_str_nat n; ct; "x-ms-date:" +:+ d; r].
Proof.
  intros Hm Hct Hd Hr. unfold canonical_string.
  rewrite !split_newline_cons; auto using py_str_nat_no_newline.
  by rewrite split_newline_single.
Qed.

(** A test vector, as CPython 3.11 computes it: for the customer id
    [4f1d2c3b-0000-1111-2222-333344445555], the base64 key of the bytes
    [secret-key-for-tests], the date [Thu, 04 Mar 2021 05:06:07 GMT] and a
    body of 123 characters, [build_signature] computes the header that the
    Python code computes for the same arguments. *)
Example build_signature_known_vector :
  build_signature "4f1d2c3b-0000-1111-2222-333344445555" "c2VjcmV0LWtleS1mb3ItdGVzdHM="
    "Thu, 04 Mar 2021 05:06:07 GMT" 123 "POST" "application/json" "/api/logs" =
  Ret "SharedKey 4f1d2c3b-0000-1111-2222-333344445555:99OqOwshQwiX2h4VobCN2n2XyI8x0aZi8139Qn2S84Y=".
Proof. vm_compute. reflexivity. Qed.

(** C26 (the shape of the Authorization header): whenever [build_signature]
    returns, whatever the key, date, length and resource, the header is
    [SharedKey <customer_id>:] followed by the base64 text of a 32-byte
    HMAC-SHA256 digest: 44 ASCII characters. *)
Theorem build_signature_shape customer_id shared_key date content_length method content_type resource sig :
  build_signature customer_id shared_key date content_length method content_type resource = Ret sig ->
  exists h, sig = "SharedKey " +:+ customer_id +:+ ":" +:+ h /\ String.length h = 44%nat /\ is_ascii h = true.
Proof.
  unfold build_signature. destruct (Base64.b64decode shared_key) as [k|e]; intros H; [|discriminate].
  injection H as <-. eexists. split; [reflexivity|]. split.
  - by rewrite length_decode_ascii, b2a_base64_length, hmac_sha256_length.
  - apply is_ascii_decode, b2a_base64_ascii, hmac_sha256_range.
Qed.
