(* ===== verification/Forwarder.v ===== *)
(** * Forwarder: [post_data] (src/OCItoLogAnalytics/__init__.py, lines 160-182)

    One event, one signed POST: read the clock, format the RFC 1123 date,
    sign (method, length, content type, date, resource), print the URI,
    POST, then print an acceptance line on a 2xx status or log the status,
    headers and body otherwise.  Nothing is caught: a signing error or a
    transport error of [requests.post] escapes to the caller.  The lemmas
    characterise the trace [post_data] appends on each branch, and the
    invariant [well_signed] of every POST it makes. *)

From Stdlib Require Import String Ascii ZArith List Lia.
From stdpp Require Import base list strings gmap.
From S2P Require Import Prelude Text Crypto DateTime Json World Signer.

Open Scope Z_scope.

Definition ingestion_uri (customer_id resource : string) : string :=
  "https://" +:+ customer_id +:+ ".ods.opinsights.azure.com" +:+ resource
  +:+ "?api-version=2016-04-01".

Definition post_headers (content_type signature log_type date : string) : list (string * string) :=
  [("content-type", content_type); ("Authorization", signature);
   ("Log-Type", log_type); ("x-ms-date", date)].

Definition is_2xx (status : Z) : bool := (200 <=? status) && (status <=? 299).

Section Forwarder.
Context (svc : services).

Definition post_data (customer_id shared_key body log_type : string) : PyM unit :=
  let method := "POST" in
  let content_type := "application/json" in
  let resource := "/api/logs" in
  now <- utcnow svc ;;
  let rfc1123date := rfc1123 now in
  let content_length := String.length body in
  signature <- of_res (build_signature customer_id shared_key rfc1123date content_length
                                       method content_type resource) ;;
  let uri := ingestion_uri customer_id resource in
  print ("URI : " +:+ uri) ;;
  let headers := post_headers content_type signature log_type rfc1123date in
  status <- http_post svc (mk_request uri headers body) ;;
  if is_2xx status
  then print ("Log Analytics Event Accepted - OCI Event Time: " +:+ rfc1123date)
  else (emit (ELogError status headers body) ;; print (py_str_int status)).

End Forwarder.

(** ** The request [post_data] sends, and its invariant *)

(** The request built for [body] at the date [date], when the key decodes. *)
Definition signed_request (customer_id shared_key body log_type date : string) : res request :=
  match build_signature customer_id shared_key date (String.length body)
          "POST" "application/json" "/api/logs" with
  | Ret sig => Ret (mk_request (ingestion_uri customer_id "/api/logs")
                      (post_headers "application/json" sig log_type date) body)
  | Raise e => Raise e
  end.

(** A request is well signed for [customer_id] and [shared_key]: it goes to
    the customer's ingestion endpoint and its Authorization header is the
    signer's output for its own [x-ms-date] header and body length. *)
Definition well_signed (customer_id shared_key : string) (r : request) : Prop :=
  r.(rq_uri) = ingestion_uri customer_id "/api/logs" /\
  exists date sig,
    header r "x-ms-date" = Some date /\ header r "Authorization" = Some sig /\
    build_signature customer_id shared_key date (String.length r.(rq_body))
      "POST" "application/json" "/api/logs" = Ret sig.

(** What the HTTP Data Collector API checks of a request it receives: it
    goes to the customer's endpoint, its body is ASCII (so the bytes sent
    are the characters, in UTF-8 as in Latin-1), and its Authorization
    header is the signature the server recomputes from the [x-ms-date]
    header and the number of bytes received. *)
Definition server_accepts (customer_id shared_key : string) (r : request) : Prop :=
  r.(rq_uri) = ingestion_uri customer_id "/api/logs" /\ is_ascii r.(rq_body) = true /\
  exists date sig,
    header r "x-ms-date" = Some date /\ header r "Authorization" = Some sig /\
    build_signature customer_id shared_key date (length (utf8_encode r.(rq_body)))
      "POST" "application/json" "/api/logs" = Ret sig.

(** The trace [post_data] appends after the POST, for a status. *)
Definition after_post (r : request) (date : string) (status : Z) : list event :=
  if is_2xx status
  then [EPrint ("Log Analytics Event Accepted - OCI Event Time: " +:+ date)]
  else [ELogError status r.(rq_headers) r.(rq_body); EPrint (py_str_int status)].

(** The date the next [post_data] signs with, from world [w]. *)
Definition next_date (svc : services) (w : world) : string := rfc1123 (svc.(sv_clock) w.(w_clock)).

(** ** Lemmas *)

Lemma signed_request_well_signed cid key body lt date r :
  signed_request cid key body lt date = Ret r -> well_signed cid key r.
Proof.
  unfold signed_request, well_signed.
  destruct (build_signature _ _ _ _ _ _ _) eqn:E; intros H; inversion H; subst.
  split; [done|]. by exists date, a.
Qed.

Lemma signed_request_body cid key body lt date r :
  signed_request cid key body lt date = Ret r -> r.(rq_body) = body.
Proof.
  unfold signed_request. destruct (build_signature _ _ _ _ _ _ _); by intros [= <-].
Qed.

(** The signature does not depend on the body, only on its length. *)
Lemma signed_request_ok cid key body lt date k :
  Base64.b64decode key = Ret k -> exists r, signed_request cid key body lt date = Ret r.
Proof.
  intros Hk. unfold signed_request, build_signature. rewrite Hk. by eexists.
Qed.

(** ** What [post_data] does, on every branch *)

Section PostData.
Context (svc : services) (customer_id shared_key body log_type : string).

(** [post_data] reads the clock once, prints the URI and makes the POST;
    the status decides the rest; a transport error escapes after the
    POST is recorded. *)
Lemma post_data_run w r :
  signed_request customer_id shared_key body log_type (next_date svc w) = Ret r ->
  post_data svc customer_id shared_key body log_type w =
    let tr := w.(w_trace) ++ [EPrint ("URI : " +:+ r.(rq_uri)); ENet (CPost r)] in
    match svc.(sv_post) w.(w_posts) r with
    | Ret status => (Ret tt, mk_world (tr ++ after_post r (next_date svc w) status)
                               w.(w_region) (S w.(w_clock)) (S w.(w_posts)))
    | Raise e => (Raise e, mk_world tr w.(w_region) (S w.(w_clock)) (S w.(w_posts)))
    end.
Proof.
  unfold signed_request, next_date, post_data, after_post.
  destruct (build_signature _ _ _ _ _ _ _) eqn:E; intros H; inversion H; subst.
  cbn [bind utcnow of_res]. rewrite E. cbn.
  destruct (sv_post svc _ _); cbn; [|by rewrite <- app_assoc].
  destruct (is_2xx _); world_simpl; by rewrite <- ?app_assoc.
Qed.

Lemma post_data_appends : appends (post_data svc customer_id shared_key body log_type).
Proof. unfold post_data. solve_appends. Qed.

(** [post_data] does not touch the audit client's region. *)
Lemma post_data_region_free : region_free (post_data svc customer_id shared_key body log_type).
Proof. unfold post_data. solve_region_free. Qed.
End PostData.

#[export] Hint Resolve post_data_region_free : region_free.

(** ** Properties of the forwarder *)

(** C8 (fault tolerance of one delivery): when the endpoint answers a
    status outside 200..299, [post_data] still returns normally; it has
    printed the URI, made exactly one POST (the signed request of the
    body), logged the status, the headers and the body, and printed the
    status. *)
Theorem post_data_rejected svc cid key body lt w r status :
  signed_request cid key body lt (next_date svc w) = Ret r ->
  svc.(sv_post) w.(w_posts) r = Ret status -> is_2xx status = false ->
  post_data svc cid key body lt w =
    (Ret tt, mk_world (w.(w_trace) ++ [EPrint ("URI : " +:+ r.(rq_uri)); ENet (CPost r);
                                       ELogError status r.(rq_headers) body;
                                       EPrint (py_str_int status)])
                      w.(w_region) (S w.(w_clock)) (S w.(w_posts))).
Proof.
  intros Hr Hs Hn. rewrite (post_data_run svc cid key body lt w r Hr), Hs.
  unfold after_post. rewrite Hn, (signed_request_body _ _ _ _ _ _ Hr).
  by rewrite <- app_assoc.
Qed.

(** C13 (a transport error is not caught): when [requests.post] raises,
    [post_data] raises the same exception after the POST attempt; nothing
    is logged and the caller's loop is left. *)
Theorem post_data_transport_error svc cid key body lt w r e :
  signed_request cid key body lt (next_date svc w) = Ret r ->
  svc.(sv_post) w.(w_posts) r = Raise e ->
  post_data svc cid key body lt w =
    (Raise e, mk_world (w.(w_trace) ++ [EPrint ("URI : " +:+ r.(rq_uri)); ENet (CPost r)])
                       w.(w_region) (S w.(w_clock)) (S w.(w_posts))).
Proof. intros Hr Hs. by rewrite (post_data_run svc cid key body lt w r Hr), Hs. Qed.

(** An invariant of the trace that holds of the prints, of the logged
    errors and of every well-signed POST of [body] with the Log-Type
    header [log_type] is kept by [post_data], on every branch. *)
Lemma triple_post_data_inv svc cid key body lt {X} (obs : event -> list X) (Pr : X -> Prop) :
  (forall s, Forall Pr (obs (EPrint s))) -> (forall st hs b, Forall Pr (obs (ELogError st hs b))) ->
  (forall r, well_signed cid key r -> r.(rq_body) = body -> header r "Log-Type" = Some lt ->
             Forall Pr (obs (ENet (CPost r)))) ->
  triple (trace_inv obs Pr) (post_data svc cid key body lt) (fun _ => True).
Proof.
  intros Hp He Hr. unfold post_data.
  eapply triple_bind; [apply triple_utcnow|intros now _].
  eapply triple_bind; [apply triple_of_res|intros sig Hsig].
  apply (triple_bind _ _ _ (fun _ => True)); [by apply triple_print|intros _ _].
  apply (triple_bind _ _ _ (fun _ => True)).
  - apply triple_http_post, Hr; [|done|reflexivity]. split; [done|]. by exists (rfc1123 now), sig.
  - intros status _. destruct (is_2xx status); [by apply triple_print|].
    apply (triple_bind _ _ _ (fun _ => True)); [by apply triple_emit | intros; by apply triple_print].
Qed.

(** Every POST [post_data] makes is well signed, on every branch. *)
Lemma triple_post_data svc cid key body lt :
  triple (posts_inv (well_signed cid key)) (post_data svc cid key body lt) (fun _ => True).
Proof.
  apply triple_post_data_inv; intros; forall_obs.
Qed.
