(* ===== verification/Collector.v ===== *)
(** * Collector: [get_audit_events] (src/OCItoLogAnalytics/__init__.py, lines 118-147)

    For each compartment, in order, the collector consumes
    [oci.pagination.list_call_get_all_results_generator(audit.list_events,
    yield_mode='response', ...)]: the generator calls [list_events], yields
    the response, and calls again with [page=response.next_page] while
    [has_next_page]; the loop body handles the events of a page (read back
    with [json.loads(str(event))], serialise with
    [json.dumps(indent=4, sort_keys=True)], then [post_data]) before the
    generator asks for the next page, so the model interleaves the calls
    and the POSTs exactly as the streaming code does ([paginate_events]).
    The generator's loop has no bound in the code; the model gives it
    [fuel] iterations and raises [FuelExhausted] past them.  The theorems
    show that a finite chain of pages within the fuel is consumed in full,
    in order ([delivers]), and that the collector POSTs the serialised
    events in the order (compartment, page, event); the body of an event is
    [json.dumps] of the event itself, since [json.loads] reads back
    [str(event)] as its normal form. *)

From Stdlib Require Import String Ascii ZArith List Lia.
From stdpp Require Import base list strings gmap.
From S2P Require Import Prelude Text Crypto DateTime Json JsonLoads World Signer Forwarder.

Open Scope Z_scope.

Section Collector.
Context (svc : services) (fuel : nat).

(** The generator over the pages of one compartment, with the loop body
    [handle] run on each page before the next one is requested. *)
Fixpoint paginate_events (n : nat) (c : string) (start_time end_time : datetime)
    (p : option string) (handle : page json -> PyM unit) : PyM unit :=
  match n with
  | O => raise FuelExhausted
  | S n' =>
      resp <- list_events svc c start_time end_time p ;;
      handle resp ;;
      match pg_next_page resp with
      | Some tok => paginate_events n' c start_time end_time (Some tok) handle
      | None => ret tt
      end
  end.

(** The body of [for event in paged_audit_events.data]: the event is read
    back from its [str] with [json.loads] (which raises on a text it cannot
    read), serialised with [json.dumps(indent=4, sort_keys=True)] and
    POSTed. *)
Definition process_event (customer_id shared_key log_type : string) (event : json) : PyM unit :=
  jsondoc <- of_res (loads (oci_str event)) ;;
  let parsed_json := dumps jsondoc in
  post_data svc customer_id shared_key parsed_json log_type.

Definition get_audit_events (customer_id shared_key : string) (compartment_ocids : list string)
    (start_time end_time : datetime) : PyM unit :=
  log_type <- environ svc "LOG_ANALYTICS_LOGTYPE" ;;
  for_each (fun c =>
    paginate_events fuel c start_time end_time None
      (fun paged_audit_events =>
         for_each (process_event customer_id shared_key log_type) (pg_data paged_audit_events)))
    compartment_ocids.

End Collector.

(** ** The pages an API serves *)

(** [page_chain f p pgs]: starting from the page token [p], the list call [f]
    answers the pages [pgs], the last of which has no next page. *)
Inductive page_chain {A} (f : option string -> res (page A)) : option string -> list (page A) -> Prop :=
| chain_last p pg :
    f p = Ret pg -> pg_next_page pg = None -> page_chain f p [pg]
| chain_next p pg tok pgs :
    f p = Ret pg -> pg_next_page pg = Some tok -> page_chain f (Some tok) pgs ->
    page_chain f p (pg :: pgs).

(** What an observation sees of the pagination over a chain of pages: the
    request of each page ([lobs] of its token), then what handling the page
    shows ([h]), before the next page is requested. *)
Fixpoint chain_obs {X} (lobs : option string -> list X) (h : page json -> list X)
    (p : option string) (pgs : list (page json)) : list X :=
  match pgs with
  | [] => []
  | pg :: pgs' => lobs p ++ h pg ++ chain_obs lobs h (pg_next_page pg) pgs'
  end.

(** ** Delivery: a computation that returns normally, keeps the audit
    client's region, and POSTs the given bodies in this order *)

Definition delivers (r : string) (m : PyM unit) (bodies : list string) : Prop :=
  yields (fun w => w.(w_region) = r) m (fun _ => True) bodies.

(** The hypotheses on the services under which every event is delivered:
    every POST gets an HTTP status (any status, 2xx or not) and the shared
    key is valid base64. *)
Definition posts_answered (svc : services) : Prop :=
  forall n r, exists status, svc.(sv_post) n r = Ret status.

(** The events the audit API answers are the documents [to_dict] makes of
    SDK models: Python dicts, whose keys are distinct at every depth. *)
Definition events_wf (svc : services) : Prop :=
  forall r c s e p pg, svc.(sv_list_events) r c s e p = Ret pg -> Forall (fun ev => wf_json ev = true) (pg_data pg).

(** The events of the compartments [comps], as the API serves them: per
    compartment in order, per page in order, per event in page order. *)
Definition collected_events (pages : string -> list (page json)) (comps : list string) : list json :=
  flat_map (fun c => flat_map pg_data (pages c)) comps.

(** The pages of every compartment form a finite chain within the fuel. *)
Definition chains_within (svc : services) (fuel : nat) (r : string) (s e : datetime)
    (pages : string -> list (page json)) (comps : list string) : Prop :=
  forall c, c ∈ comps ->
    page_chain (svc.(sv_list_events) r c s e) None (pages c) /\ (length (pages c) <= fuel)%nat.

(** ** Streaming: the steps of the collector in the order it takes them *)

(** A request for a page of a compartment's events (with its page token),
    or a POST of a body. *)
Inductive io := IList (c : string) (p : option string) | IPost (body : string).

Definition io_obs (e : event) : list io :=
  match e with
  | ENet (CListEvents _ c _ _ p) => [IList c p]
  | ENet (CPost r) => [IPost r.(rq_body)]
  | _ => []
  end.

(** The streaming order over a chain of pages: a page is requested
    ([lst] of its token), its events are POSTed ([post] of their
    serialisation), and only then is the next page requested. *)
Fixpoint stream {A} (lst : option string -> A) (post : string -> A) (p : option string)
    (pgs : list (page json)) : list A :=
  match pgs with
  | [] => []
  | pg :: pgs' => lst p :: map (fun ev => post (dumps ev)) (pg_data pg) ++ stream lst post (pg_next_page pg) pgs'
  end.

(** The streaming order over one compartment. *)
Definition stream_io (c : string) : option string -> list (page json) -> list io := stream (IList c) IPost.

Definition collector_io (pages : string -> list (page json)) (comps : list string) : list io :=
  flat_map (fun c => stream_io c None (pages c)) comps.

(** ** A listing that fails part-way *)

(** [chain_fails f p pgs e]: from the token [p], the list call [f] answers
    the pages [pgs], each with a next page, and the request that follows
    them raises [e]. *)
Inductive chain_fails {A} (f : option string -> res (page A)) : option string -> list (page A) -> exn -> Prop :=
| fails_now p e : f p = Raise e -> chain_fails f p [] e
| fails_later p pg tok pgs e :
    f p = Ret pg -> pg_next_page pg = Some tok -> chain_fails f (Some tok) pgs e ->
    chain_fails f p (pg :: pgs) e.

(** The token of the request that follows the pages [pgs]. *)
Definition after_pages (p : option string) (pgs : list (page json)) : option string :=
  fold_left (fun _ pg => pg_next_page pg) pgs p.

(** ** Lemmas *)

Lemma chain_obs_quiet {X} (h : page json -> list X) p pgs :
  chain_obs (fun _ => []) h p pgs = flat_map h pgs.
Proof. revert p. induction pgs as [|pg pgs IH]; intros p; [done|]. simpl. by rewrite IH. Qed.

Lemma chain_obs_stream {A} (lst : option string -> A) (post : string -> A) p pgs :
  chain_obs (fun p => [lst p]) (fun pg => flat_map (fun ev => [post (dumps ev)]) (pg_data pg)) p pgs =
  stream lst post p pgs.
Proof.
  revert p. induction pgs as [|pg pgs IH]; intros p; [done|]. simpl.
  by rewrite IH, flat_map_singleton_map.
Qed.

Lemma chain_obs_ext {X} (l1 l2 : option string -> list X) (h1 h2 : page json -> list X) p pgs :
  (forall p, l1 p = l2 p) -> (forall pg, h1 pg = h2 pg) -> chain_obs l1 h1 p pgs = chain_obs l2 h2 p pgs.
Proof.
  intros Hl Hh. revert p. induction pgs as [|pg pgs IH]; intros p; [done|]. simpl. by rewrite Hl, Hh, IH.
Qed.

Lemma io_obs_quiet : obs_quiet io_obs.
Proof. by intros [[]| | |]. Qed.

(** An answered page request, then the continuation. *)
Lemma observes_list_events_bind {X} (obs : event -> list X) svc r c s e p pg
    (k : page json -> PyM unit) o :
  svc.(sv_list_events) r c s e p = Ret pg ->
  observes obs (fun w => w.(w_region) = r) (k pg) (fun _ => True) o ->
  observes obs (fun w => w.(w_region) = r) (bind (list_events svc c s e p) k) (fun _ => True)
           (obs (ENet (CListEvents r c s e p)) ++ o).
Proof.
  intros Hf Hk. apply (observes_bind _ _ _ _ (fun x => x = pg)); [by apply observes_list_events|].
  by intros ? ->.
Qed.

(** Pagination consumes every page of a finite chain, in order, when the
    fuel covers its length, handling each page before requesting the next. *)
Lemma paginate_observes {X} (obs : event -> list X) svc r c s e p pgs n handle
    (h : page json -> list X) :
  page_chain (svc.(sv_list_events) r c s e) p pgs -> (length pgs <= n)%nat ->
  (forall p' pg, svc.(sv_list_events) r c s e p' = Ret pg ->
     observes obs (fun w => w.(w_region) = r) (handle pg) (fun _ => True) (h pg)) ->
  observes obs (fun w => w.(w_region) = r) (paginate_events svc n c s e p handle) (fun _ => True)
           (chain_obs (fun p => obs (ENet (CListEvents r c s e p))) h p pgs).
Proof.
  intros Hc. revert n. induction Hc as [p pg Hf Hn|p pg tok pgs Hf Hn Hc IH];
    intros [|n] Hlen Hh; simpl in Hlen; try lia; simpl;
    apply (observes_list_events_bind _ _ _ _ _ _ _ pg); auto; rewrite Hn.
  - apply (observes_bind _ _ _ _ (fun _ => True)); [by apply (Hh p) | intros; by apply observes_ret].
  - apply (observes_bind _ _ _ _ (fun _ => True)); [by apply (Hh p) | intros; apply IH; [lia | done]].
Qed.

Lemma raises_list_events {X} (obs : event -> list X) svc r c s e p ex o :
  svc.(sv_list_events) r c s e p = Raise ex -> obs (ENet (CListEvents r c s e p)) = o ->
  raises obs (fun w => w.(w_region) = r) (list_events svc c s e p) ex o.
Proof. intros Hf Ho w Hw. unfold list_events. rewrite Hw, Hf. by apply (raises_net obs (fun _ => True)). Qed.

(** Pagination over a listing that fails part-way: every page before the
    failure is handled, then the failing request's exception escapes. *)
Lemma paginate_raises {X} (obs : event -> list X) svc r c s e p pgs n handle
    (h : page json -> list X) ex :
  chain_fails (svc.(sv_list_events) r c s e) p pgs ex -> (length pgs < n)%nat ->
  (forall p' pg, svc.(sv_list_events) r c s e p' = Ret pg ->
     observes obs (fun w => w.(w_region) = r) (handle pg) (fun _ => True) (h pg)) ->
  raises obs (fun w => w.(w_region) = r) (paginate_events svc n c s e p handle) ex
    (chain_obs (fun p => obs (ENet (CListEvents r c s e p))) h p pgs ++
     obs (ENet (CListEvents r c s e (after_pages p pgs)))).
Proof.
  intros Hc. revert n. induction Hc as [p ex Hf|p pg tok pgs ex Hf Hn Hc IH];
    intros [|n] Hlen Hh; simpl in Hlen; try lia; simpl.
  - by apply raises_bind_l, (raises_list_events _ _ _ _ _ _ _ ex).
  - rewrite <- !app_assoc.
    apply (raises_bind_r _ _ _ _ (fun x => x = pg)); [by apply observes_list_events|intros ? ->].
    apply (raises_bind_r _ _ _ _ (fun _ => True)); [by apply (Hh p)|intros _ _].
    rewrite Hn. by apply IH; [lia|].
Qed.

Lemma appends_paginate svc n c s e p handle :
  (forall pg, appends (handle pg)) -> appends (paginate_events svc n c s e p handle).
Proof. revert p. induction n; intros p Hh; simpl; solve_appends. Qed.

Section Observed.
(** An observation that sees a POST through its body only, and sees no
    print and no log. *)
Context {X : Type} (obs : event -> list X) (post_obs : string -> list X).
Hypothesis obs_post : forall r, obs (ENet (CPost r)) = post_obs r.(rq_body).
Hypothesis obs_print : forall s, obs (EPrint s) = [].
Hypothesis obs_log_error : forall status hs b, obs (ELogError status hs b) = [].

(** [post_data] POSTs its body, whatever status the endpoint answers. *)
Lemma post_data_observes svc cid key k body lt r :
  posts_answered svc -> Base64.b64decode key = Ret k ->
  observes obs (fun w => w.(w_region) = r) (post_data svc cid key body lt) (fun _ => True) (post_obs body).
Proof.
  intros Hp Hk w Hw.
  destruct (signed_request_ok cid key body lt (next_date svc w) k Hk) as [rq Hrq].
  destruct (Hp (w_posts w) rq) as [status Hs].
  rewrite (post_data_run svc cid key body lt w rq Hrq), Hs. cbn.
  eexists tt, _, _. repeat split; [done | by rewrite <- app_assoc |].
  rewrite flat_map_app. unfold after_post. cbn. rewrite obs_print, obs_post.
  rewrite (signed_request_body _ _ _ _ _ _ Hrq).
  destruct (is_2xx status); cbn; rewrite ?obs_print, ?obs_log_error; by rewrite ?app_nil_r.
Qed.

(** The loop body reads back each event and POSTs [json.dumps] of it. *)
Lemma process_events_observes svc cid key k lt r evs :
  posts_answered svc -> Base64.b64decode key = Ret k -> Forall (fun ev => wf_json ev = true) evs ->
  observes obs (fun w => w.(w_region) = r) (for_each (process_event svc cid key lt) evs) (fun _ => True)
           (flat_map (fun ev => post_obs (dumps ev)) evs).
Proof.
  intros Hp Hk Hwf. apply observes_for_each. intros ev Hev w Hw. rewrite List.Forall_forall in Hwf.
  unfold process_event, oci_str. rewrite loads_dumps_at by (apply Hwf; by apply list_elem_of_In).
  rewrite bind_of_res_ret. unfold dumps. rewrite dumps_at_norm by (apply Hwf; by apply list_elem_of_In).
  exact (post_data_observes svc cid key k _ lt r Hp Hk w Hw).
Qed.

(** The loop body of one compartment, over a finite chain of pages. *)
Lemma compartment_observes svc fuel cid key k lt c s e r pgs :
  posts_answered svc -> Base64.b64decode key = Ret k -> events_wf svc ->
  page_chain (svc.(sv_list_events) r c s e) None pgs -> (length pgs <= fuel)%nat ->
  observes obs (fun w => w.(w_region) = r)
    (paginate_events svc fuel c s e None
       (fun pg => for_each (process_event svc cid key lt) (pg_data pg))) (fun _ => True)
    (chain_obs (fun p => obs (ENet (CListEvents r c s e p)))
       (fun pg => flat_map (fun ev => post_obs (dumps ev)) (pg_data pg)) None pgs).
Proof.
  intros Hp Hk Hwf Hc Hl. eapply paginate_observes; [exact Hc | exact Hl |].
  intros p' pg Hpg. eapply process_events_observes; [done | done | by eapply Hwf].
Qed.

(** The loop body of one compartment, over a listing that fails. *)
Lemma compartment_raises svc fuel cid key k lt c s e r pgs ex :
  posts_answered svc -> Base64.b64decode key = Ret k -> events_wf svc ->
  chain_fails (svc.(sv_list_events) r c s e) None pgs ex -> (length pgs < fuel)%nat ->
  raises obs (fun w => w.(w_region) = r)
    (paginate_events svc fuel c s e None
       (fun pg => for_each (process_event svc cid key lt) (pg_data pg))) ex
    (chain_obs (fun p => obs (ENet (CListEvents r c s e p)))
       (fun pg => flat_map (fun ev => post_obs (dumps ev)) (pg_data pg)) None pgs ++
     obs (ENet (CListEvents r c s e (after_pages None pgs)))).
Proof.
  intros Hp Hk Hwf Hc Hl. eapply paginate_raises; [exact Hc | exact Hl |].
  intros p' pg Hpg. eapply process_events_observes; [done | done | by eapply Hwf].
Qed.

(** The collector over the compartments [comps]: per compartment, the
    pages in order, each requested and then its events POSTed. *)
Lemma get_audit_events_observes svc fuel cid key k lt comps s e r pages :
  svc.(sv_env) !! "LOG_ANALYTICS_LOGTYPE" = Some lt ->
  posts_answered svc -> Base64.b64decode key = Ret k -> events_wf svc ->
  chains_within svc fuel r s e pages comps ->
  observes obs (fun w => w.(w_region) = r) (get_audit_events svc fuel cid key comps s e) (fun _ => True)
    (flat_map (fun c => chain_obs (fun p => obs (ENet (CListEvents r c s e p)))
                          (fun pg => flat_map (fun ev => post_obs (dumps ev)) (pg_data pg))
                          None (pages c)) comps).
Proof.
  intros Henv Hp Hk Hwf Hch. unfold get_audit_events, environ. rewrite Henv.
  intros w Hw. rewrite bind_ret_l. revert w Hw.
  apply observes_for_each. intros c Hc. destruct (Hch c Hc) as [Hc1 Hc2].
  by eapply compartment_observes.
Qed.

(** A listing error in compartment [c]: the compartments before it are
    collected in full, the pages of [c] before the failure are handled,
    the exception escapes and the compartments after [c] are not visited. *)
Lemma get_audit_events_raises svc fuel cid key k lt comps1 c comps2 s e r pages pgs ex :
  svc.(sv_env) !! "LOG_ANALYTICS_LOGTYPE" = Some lt ->
  posts_answered svc -> Base64.b64decode key = Ret k -> events_wf svc ->
  chains_within svc fuel r s e pages comps1 ->
  chain_fails (svc.(sv_list_events) r c s e) None pgs ex -> (length pgs < fuel)%nat ->
  raises obs (fun w => w.(w_region) = r) (get_audit_events svc fuel cid key (comps1 ++ c :: comps2) s e) ex
    (flat_map (fun c => chain_obs (fun p => obs (ENet (CListEvents r c s e p)))
                          (fun pg => flat_map (fun ev => post_obs (dumps ev)) (pg_data pg))
                          None (pages c)) comps1 ++
     chain_obs (fun p => obs (ENet (CListEvents r c s e p)))
       (fun pg => flat_map (fun ev => post_obs (dumps ev)) (pg_data pg)) None pgs ++
     obs (ENet (CListEvents r c s e (after_pages None pgs)))).
Proof.
  intros Henv Hp Hk Hwf Hch Hc Hl. unfold get_audit_events, environ. rewrite Henv.
  intros w Hw. rewrite bind_ret_l. revert w Hw.
  apply raises_for_each; [|by eapply compartment_raises].
  intros c' Hc'. destruct (Hch c' Hc') as [Hc1 Hc2]. by eapply compartment_observes.
Qed.
End Observed.

(** The collector delivers the serialised events in the order
    (compartment, page, event): nothing is reordered, merged, skipped or
    repeated, and a rejected POST does not stop the loop. *)
Lemma get_audit_events_delivers svc fuel cid key k lt comps s e r pages :
  svc.(sv_env) !! "LOG_ANALYTICS_LOGTYPE" = Some lt ->
  posts_answered svc -> Base64.b64decode key = Ret k -> events_wf svc ->
  chains_within svc fuel r s e pages comps ->
  delivers r (get_audit_events svc fuel cid key comps s e)
             (map dumps (collected_events pages comps)).
Proof.
  intros Henv Hp Hk Hwf Hch.
  assert (E : map dumps (collected_events pages comps) =
    flat_map (fun c => chain_obs (fun p => post_body (ENet (CListEvents r c s e p)))
                         (fun pg => flat_map (fun ev => [dumps ev]) (pg_data pg)) None (pages c)) comps).
  { unfold collected_events. rewrite map_flat_map_distr. apply flat_map_ext. intros c.
    cbn [post_body]. rewrite chain_obs_quiet, map_flat_map_distr. apply flat_map_ext. intros pg.
    by rewrite flat_map_singleton_map. }
  rewrite E. by eapply (get_audit_events_observes post_body (fun b => [b])).
Qed.

(** ** C4: the collector streams

    Under the hypotheses of delivery, the network steps of
    [get_audit_events] are, per compartment in order, the request of a page
    followed by the POSTs of that page's serialised events, before the next
    page is requested with the token the previous page returned: the
    collector never holds more than one page, and the order of delivery is
    the order (compartment, page, event). *)
Theorem get_audit_events_streams svc fuel cid key k lt comps s e r pages :
  svc.(sv_env) !! "LOG_ANALYTICS_LOGTYPE" = Some lt ->
  posts_answered svc -> Base64.b64decode key = Ret k -> events_wf svc ->
  chains_within svc fuel r s e pages comps ->
  observes io_obs (fun w => w.(w_region) = r) (get_audit_events svc fuel cid key comps s e)
           (fun _ => True) (collector_io pages comps).
Proof.
  intros Henv Hp Hk Hwf Hch. unfold collector_io.
  erewrite flat_map_ext; [eapply (get_audit_events_observes io_obs (fun b => [IPost b])); eauto|].
  intros c. unfold stream_io. simpl. symmetry. apply chain_obs_stream.
Qed.

(** ** C5: a listing error stops the collector

    When the listing of compartment [c] fails after the pages [pgs], the
    compartments before [c] are collected in full (streamed as in C4), the
    events of the pages of [c] before the failure are POSTed, the failing
    request is the last step, and its exception escapes [get_audit_events]:
    the compartments after [c] are never visited. *)
Theorem get_audit_events_listing_error svc fuel cid key k lt comps1 c comps2 s e r pages pgs ex :
  svc.(sv_env) !! "LOG_ANALYTICS_LOGTYPE" = Some lt ->
  posts_answered svc -> Base64.b64decode key = Ret k -> events_wf svc ->
  chains_within svc fuel r s e pages comps1 ->
  chain_fails (svc.(sv_list_events) r c s e) None pgs ex -> (length pgs < fuel)%nat ->
  raises io_obs (fun w => w.(w_region) = r) (get_audit_events svc fuel cid key (comps1 ++ c :: comps2) s e) ex
    (collector_io pages comps1 ++ stream_io c None pgs ++ [IList c (after_pages None pgs)]).
Proof.
  intros. unfold collector_io, stream_io at 2. rewrite <- (chain_obs_stream (IList c)).
  erewrite flat_map_ext; [eapply (get_audit_events_raises io_obs (fun b => [IPost b])); eauto|].
  intros c'. unfold stream_io. simpl. symmetry. apply chain_obs_stream.
Qed.

(** C24 (the pagination ends with the chain): when the pages form a finite
    chain and the loop body keeps the audit client's region, the
    pagination takes the same steps and gives the same result whatever the
    fuel, once the fuel covers the chain: the bound of the model is never
    reached, and the loop ends after the last page, as the generator does. *)
Theorem paginate_fuel_irrelevant svc r c s e p pgs n m handle w :
  page_chain (svc.(sv_list_events) r c s e) p pgs -> (length pgs <= n)%nat -> (length pgs <= m)%nat ->
  (forall pg w, (handle pg w).2.(w_region) = w.(w_region)) -> w.(w_region) = r ->
  paginate_events svc n c s e p handle w = paginate_events svc m c s e p handle w.
Proof.
  intros Hc. revert n m w.
  induction Hc as [p pg Hf Hn|p pg tok pgs Hf Hn Hc IH]; intros [|n] [|m] w Hln Hlm Hh Hw;
    simpl in Hln, Hlm; try lia; cbn [paginate_events]; unfold bind, list_events, net, emit, modify, of_res;
    cbn; rewrite Hw, Hf; cbn;
    match goal with |- context [handle pg ?w1] =>
      pose proof (Hh pg w1) as H; destruct (handle pg w1) as [[u|ex] w2] eqn:E end;
    cbn; try done; rewrite Hn; [done|].
  apply IH; [lia | lia | done |]. cbn in H. by rewrite H.
Qed.

(** An invariant of the trace that holds of the page requests of the
    window [s, e] is kept by the pagination when the loop body keeps it. *)
Lemma triple_paginate svc n c s e p handle {X} (obs : event -> list X) (Pr : X -> Prop) :
  (forall r p, Forall Pr (obs (ENet (CListEvents r c s e p)))) ->
  (forall pg, triple (trace_inv obs Pr) (handle pg) (fun _ => True)) ->
  triple (trace_inv obs Pr) (paginate_events svc n c s e p handle) (fun _ => True).
Proof.
  intros Hl Hh. revert p. induction n as [|n IH]; intros p; simpl; [apply triple_raise|].
  apply (triple_bind _ _ _ (fun _ => True)); [by apply triple_list_events|intros resp _].
  apply (triple_bind _ _ _ (fun _ => True)); [apply Hh|intros _ _].
  destruct (pg_next_page resp); [apply IH | by apply triple_ret].
Qed.

(** An invariant that holds of the page requests of the window [s, e], of
    the prints, of the logged errors and of every well-signed POST is kept
    by the collector, on every branch. *)
Lemma triple_get_audit_events_inv svc fuel cid key comps s e {X} (obs : event -> list X) (Pr : X -> Prop) :
  (forall r c p, Forall Pr (obs (ENet (CListEvents r c s e p)))) ->
  (forall s, Forall Pr (obs (EPrint s))) -> (forall st hs b, Forall Pr (obs (ELogError st hs b))) ->
  (forall r v lt, svc.(sv_env) !! "LOG_ANALYTICS_LOGTYPE" = Some lt -> header r "Log-Type" = Some lt ->
     well_signed cid key r -> r.(rq_body) = dumps v -> Forall Pr (obs (ENet (CPost r)))) ->
  triple (trace_inv obs Pr) (get_audit_events svc fuel cid key comps s e) (fun _ => True).
Proof.
  intros Hl Hp He Hr. unfold get_audit_events, process_event.
  eapply triple_bind; [apply triple_environ|intros lt Hlt]. apply triple_for_each. intros c.
  apply triple_paginate; [done|]. intros pg.
  apply triple_for_each. intros ev. eapply triple_bind; [apply triple_of_res_true|intros doc _].
  apply triple_post_data_inv; [done | done |]. intros r Hw Hb Hh. by apply (Hr r doc lt).
Qed.

Lemma triple_get_audit_events svc fuel cid key comps s e :
  triple (posts_inv (well_signed cid key)) (get_audit_events svc fuel cid key comps s e)
         (fun _ => True).
Proof.
  apply triple_get_audit_events_inv; intros; forall_obs.
Qed.
