(* ===== verification/Scope.v ===== *)
(** * Scope: [get_subscription_regions] and [get_compartments]
    (src/OCItoLogAnalytics/__init__.py, lines 94-115)

    The regions are the [region_name]s of the tenancy's region
    subscriptions, in the order the API lists them.  The compartments are
    read with [oci.pagination.list_call_get_all_results(
    identity.list_compartments, compartment_id=tenancy_id)], which requests
    every page eagerly ([list_all_compartments], with fuel for its
    unbounded loop); the ids of the [ACTIVE] ones are kept, in order, and the
    tenancy (root compartment) id is appended.  The call passes neither
    [compartment_id_in_subtree=True] nor [access_level]: the IAM API then
    lists the direct children of the tenancy only.  Errors of either call
    escape. *)

From Stdlib Require Import String Ascii ZArith List Lia.
From stdpp Require Import base list strings gmap.
From S2P Require Import Prelude Text DateTime Json World Collector.

Section Scope.
Context (svc : services) (fuel : nat).

Definition get_subscription_regions (tenancy_id : string) : PyM (list string) :=
  list_regions_response <- net (CListRegions tenancy_id)
                               (svc.(sv_list_region_subscriptions) tenancy_id) ;;
  ret (map rs_region_name list_regions_response).

(** [list_call_get_all_results]: every page, concatenated. *)
Fixpoint list_all_compartments (n : nat) (parent : string) (p : option string)
    (acc : list compartment) : PyM (list compartment) :=
  match n with
  | O => raise FuelExhausted
  | S n' =>
      resp <- net (CListCompartments parent p) (svc.(sv_list_compartments) parent p) ;;
      let acc' := acc ++ pg_data resp in
      match pg_next_page resp with
      | Some tok => list_all_compartments n' parent (Some tok) acc'
      | None => ret acc'
      end
  end.

Definition is_active (c : compartment) : bool := bool_decide (c.(cp_lifecycle_state) = "ACTIVE").

Definition get_compartments (tenancy_id : string) : PyM (list string) :=
  list_compartments_response <- list_all_compartments fuel tenancy_id None [] ;;
  let compartment_ocids := map cp_id (List.filter is_active list_compartments_response) in
  ret (compartment_ocids ++ [tenancy_id]).

End Scope.

(** The scope the resolver computes from the compartments the API lists. *)
Definition scope_of (tenancy_id : string) (listed : list compartment) : list string :=
  map cp_id (List.filter is_active listed) ++ [tenancy_id].

(** The calls [list_all_compartments] makes for a chain of pages. *)
Definition compartment_calls (parent : string) (p : option string) (pgs : list (page compartment)) : list call :=
  zip_with (fun tok _ => CListCompartments parent tok)
           (p :: map pg_next_page pgs) pgs.

(** The IAM contract of [list_compartments(compartment_id=parent)] without
    [compartment_id_in_subtree]: every compartment of every page it answers
    is a direct child of [parent]. *)
Definition lists_children (svc : services) : Prop :=
  forall parent tok pg, svc.(sv_list_compartments) parent tok = Ret pg ->
  Forall (fun c => c.(cp_compartment_id) = parent) pg.(pg_data).

(** ** Lemmas *)

Lemma list_all_compartments_chain svc parent p pgs n acc w :
  page_chain (svc.(sv_list_compartments) parent) p pgs -> (length pgs <= n)%nat ->
  list_all_compartments svc n parent p acc w =
    (Ret (acc ++ flat_map pg_data pgs),
     with_trace (fun tr => tr ++ map ENet (compartment_calls parent p pgs)) w).
Proof.
  intros Hc. revert n acc w.
  induction Hc as [p pg Hf Hn|p pg tok pgs Hf Hn Hc IH]; intros [|n] acc w Hlen;
    simpl in Hlen; try lia; simpl; world_simpl; rewrite Hf; cbn; rewrite Hn.
  - by rewrite app_nil_r.
  - rewrite IH by lia. unfold with_trace; cbn. by rewrite <- !app_assoc.
Qed.

Lemma compartment_calls_quiet parent p pgs :
  forallb quiet_event (map ENet (compartment_calls parent p pgs)) = true.
Proof.
  unfold compartment_calls. revert p.
  induction pgs as [|pg pgs IH]; intros p; [done|]. cbn. apply (IH (pg_next_page pg)).
Qed.

(** ** C10: the scope of a run

    For a finite chain of compartment pages within the fuel,
    [get_compartments] returns the ids of the ACTIVE compartments the API
    lists, in the order listed, followed by the tenancy id; it asks for
    each page once, in order, and nothing else. *)
Theorem get_compartments_spec svc fuel tenancy pgs w :
  page_chain (svc.(sv_list_compartments) tenancy) None pgs -> (length pgs <= fuel)%nat ->
  get_compartments svc fuel tenancy w =
    (Ret (scope_of tenancy (flat_map pg_data pgs)),
     with_trace (fun tr => tr ++ map ENet (compartment_calls tenancy None pgs)) w).
Proof.
  intros Hc Hlen. unfold get_compartments.
  by rewrite (bind_Ret _ _ _ _ _ (list_all_compartments_chain svc tenancy None pgs fuel [] w Hc Hlen)).
Qed.

Lemma scope_of_last tenancy listed : last (scope_of tenancy listed) = Some tenancy.
Proof. unfold scope_of. by rewrite last_snoc. Qed.

(** When no listed compartment is ACTIVE, the scope is the tenancy alone. *)
Lemma scope_of_none_active tenancy listed :
  Forall (fun c => is_active c = false) listed -> scope_of tenancy listed = [tenancy].
Proof.
  unfold scope_of. induction 1 as [|c l Hc _ IH]; [done|]. cbn [List.filter]. by rewrite Hc.
Qed.

Lemma scope_of_active tenancy listed c :
  In c (scope_of tenancy listed) ->
  c = tenancy \/ exists cp, In cp listed /\ is_active cp = true /\ cp.(cp_id) = c.
Proof.
  unfold scope_of. rewrite in_app_iff, in_map_iff. simpl.
  intros [(cp & <- & Hcp)|[<-|[]]]; [right|by left].
  apply filter_In in Hcp as [Hin Ha]. by exists cp.
Qed.

Lemma observes_get_subscription_regions svc tenancy subs {X} (obs : event -> list X) :
  svc.(sv_list_region_subscriptions) tenancy = Ret subs ->
  observes obs (fun _ => True) (get_subscription_regions svc tenancy)
           (fun rs => rs = map rs_region_name subs) (obs (ENet (CListRegions tenancy))).
Proof.
  intros Hs. unfold get_subscription_regions. rewrite Hs, <- (app_nil_r (obs _)).
  apply (observes_bind _ _ _ _ (fun x => x = subs)); [by apply observes_net|].
  intros ? ->. by apply observes_ret.
Qed.

Lemma observes_get_compartments svc fuel tenancy pgs {X} (obs : event -> list X) :
  page_chain (svc.(sv_list_compartments) tenancy) None pgs -> (length pgs <= fuel)%nat ->
  observes obs (fun _ => True) (get_compartments svc fuel tenancy)
           (fun cs => cs = scope_of tenancy (flat_map pg_data pgs))
           (flat_map obs (map ENet (compartment_calls tenancy None pgs))).
Proof.
  intros Hc Hl w _. unfold get_compartments.
  rewrite (bind_Ret _ _ _ _ _ (list_all_compartments_chain svc tenancy None pgs fuel [] w Hc Hl)).
  eexists _, _, _. split; [reflexivity|]. by repeat split.
Qed.

Lemma raises_get_subscription_regions svc tenancy e {X} (obs : event -> list X) :
  svc.(sv_list_region_subscriptions) tenancy = Raise e ->
  raises obs (fun _ => True) (get_subscription_regions svc tenancy) e (obs (ENet (CListRegions tenancy))).
Proof. intros Hs. unfold get_subscription_regions. rewrite Hs. by apply raises_bind_l, raises_net. Qed.

(** A compartment listing that fails after the pages [pgs]: the requests
    of those pages and the failing one are made, then the error escapes. *)
Lemma list_all_compartments_fails svc parent p pgs e n acc {X} (obs : event -> list X) :
  chain_fails (svc.(sv_list_compartments) parent) p pgs e -> (length pgs < n)%nat ->
  raises obs (fun _ => True) (list_all_compartments svc n parent p acc) e
    (flat_map obs (map ENet (map (CListCompartments parent) (p :: map pg_next_page pgs)))).
Proof.
  intros Hc. revert n acc. induction Hc as [p e Hf|p pg tok pgs e Hf Hn Hc IH]; intros [|n] acc Hlen;
    simpl in Hlen; try lia; cbn [list_all_compartments].
  - rewrite Hf. apply raises_bind_l, raises_net. cbn. by rewrite app_nil_r.
  - rewrite Hf. cbn [map flat_map]. apply (raises_bind_r _ _ _ _ (fun x => x = pg)); [by apply observes_net|].
    intros ? ->. rewrite Hn. apply IH. lia.
Qed.

Lemma raises_get_compartments svc fuel tenancy pgs e {X} (obs : event -> list X) :
  chain_fails (svc.(sv_list_compartments) tenancy) None pgs e -> (length pgs < fuel)%nat ->
  raises obs (fun _ => True) (get_compartments svc fuel tenancy) e
    (flat_map obs (map ENet (map (CListCompartments tenancy) (None :: map pg_next_page pgs)))).
Proof. intros Hc Hl. unfold get_compartments. by apply raises_bind_l, list_all_compartments_fails. Qed.

Lemma triple_get_subscription_regions svc {X} (obs : event -> list X) (Pr : X -> Prop) tenancy :
  Forall Pr (obs (ENet (CListRegions tenancy))) ->
  triple (trace_inv obs Pr) (get_subscription_regions svc tenancy) (fun _ => True).
Proof. intros H. unfold get_subscription_regions. solve_triple. Qed.

Lemma triple_get_compartments svc fuel {X} (obs : event -> list X) (Pr : X -> Prop) tenancy :
  (forall p, Forall Pr (obs (ENet (CListCompartments tenancy p)))) ->
  triple (trace_inv obs Pr) (get_compartments svc fuel tenancy) (fun _ => True).
Proof.
  intros H. unfold get_compartments. apply (triple_bind _ _ _ (fun _ => True)); [|solve_triple].
  generalize (@nil compartment), (@None string). induction fuel as [|n IH]; intros acc p; simpl;
    [apply triple_raise|solve_triple].
Qed.

(** Every compartment [list_call_get_all_results] returns was already
    accumulated or is a child of the parent it lists. *)
Lemma list_all_compartments_children svc n parent p acc w l :
  lists_children svc -> (list_all_compartments svc n parent p acc w).1 = Ret l ->
  Forall (fun c => In c acc \/ c.(cp_compartment_id) = parent) l.
Proof.
  intros Hch. revert p acc w. induction n as [|n IH]; intros p acc w; cbn [list_all_compartments];
    world_simpl; [discriminate|].
  destruct (sv_list_compartments svc parent p) as [pg|e] eqn:E; cbn; [|discriminate].
  pose proof (Hch _ _ _ E) as Hpg.
  assert (Hacc : Forall (fun c => In c acc \/ c.(cp_compartment_id) = parent) (acc ++ pg_data pg)).
  { apply Forall_app. split; [apply List.Forall_forall; intros; by left|]. eapply Forall_impl; [exact Hpg|]. by right. }
  destruct (pg_next_page pg) as [tok|]; [|by intros [= <-]].
  intros Hl. eapply Forall_impl; [exact (IH _ _ _ Hl)|]. intros c [Hin|Hp]; [|by right].
  by apply (proj1 (List.Forall_forall _ _) Hacc).
Qed.

(** C19 (nested compartments are not collected): when the IAM API lists
    the direct children of the compartment it is asked about, every id of
    the scope [get_compartments] returns is the tenancy itself or the id of
    an ACTIVE direct child of the tenancy. [list_compartments] is called
    without [compartment_id_in_subtree=True], so a compartment nested
    deeper, ACTIVE or not, is never collected. *)
Theorem get_compartments_direct_children svc fuel tenancy w ids :
  lists_children svc -> (get_compartments svc fuel tenancy w).1 = Ret ids ->
  forall id, In id ids ->
  id = tenancy \/ exists c, c.(cp_id) = id /\ c.(cp_compartment_id) = tenancy /\ is_active c = true.
Proof.
  intros Hch. unfold get_compartments.
  destruct (list_all_compartments svc fuel tenancy None [] w) as [[l|e] w'] eqn:E.
  - rewrite (bind_Ret _ _ _ _ _ E). intros [= <-] id Hid.
    pose proof (list_all_compartments_children svc fuel tenancy None [] w l Hch) as Hl.
    rewrite E in Hl. specialize (Hl eq_refl).
    destruct (scope_of_active tenancy l id Hid) as [->|(c & Hin & Ha & <-)]; [by left|right].
    exists c. split; [done|]. split; [|done].
    by destruct (proj1 (List.Forall_forall _ _) Hl c Hin) as [[]|].
  - unfold bind. rewrite E. discriminate.
Qed.
