(* ===== verification/Checkpoint.v ===== *)
(** * Checkpoint: [get_start_time] (src/OCItoLogAnalytics/__init__.py, lines 186-218)

    The start of the collection window: the latest [event_time_t] already
    in the workspace's [<log_type>_CL] table, read with one Kusto query and
    parsed with [strptime(..., '%Y-%m-%dT%H:%M:%S.%fZ')].  The code reads
    four environment variables and builds [ServicePrincipalCredentials]
    (which authenticates against Azure AD at construction) *before* its
    [try:]; only the query, the indexing [tables[0].rows[0][0]] and the
    parse are inside it.  The bare [except:] falls back to
    [datetime.utcnow() + timedelta(days=-30)], a second clock read. *)

From Stdlib Require Import String Ascii ZArith List Lia.
From stdpp Require Import base list strings gmap.
From S2P Require Import Prelude Text DateTime Json World.

Open Scope Z_scope.

(** The Kusto query of line 203, with [log_type] formatted in. *)
Definition checkpoint_query (log_type : string) : string :=
  "union isfuzzy=true (" +:+ log_type +:+ "_CL |  summarize arg_max(event_time_t , event_time_t ) | project event_time_t ) | summarize arg_max(event_time_t , event_time_t ) | project event_time_t".

(** [query_results.tables[0].rows[0][0]] *)
Definition first_cell (tables : list table) : res cell :=
  match tables with
  | [] => Raise IndexError
  | t :: _ =>
      match t.(tb_rows) with
      | [] => Raise IndexError
      | row :: _ => match row with [] => Raise IndexError | c :: _ => Ret c end
      end
  end.

(** [datetime.strptime(start_time, '%Y-%m-%dT%H:%M:%S.%fZ')]: a [TypeError]
    for anything but a string. *)
Definition parse_cell (c : cell) : res datetime :=
  match c with
  | CStr s => strptime_checkpoint s
  | _ => Raise TypeError
  end.

(** The value of the fallback branch, from the clock reading [now]. *)
Definition fallback_start (now : datetime) : res datetime := add_days now (-30).

Section Checkpoint.
Context (svc : services).

(** The body of the [try:]. *)
Definition query_start_time (workspace_id log_type : string) : PyM datetime :=
  let body := checkpoint_query log_type in
  query_results <- net (CQuery workspace_id body) (svc.(sv_query) workspace_id body) ;;
  start_time <- of_res (first_cell query_results) ;;
  of_res (parse_cell start_time).

Definition get_start_time (log_type : string) : PyM datetime :=
  workspace_id <- environ svc "LOG_ANALYTICS_CUSTID" ;;
  client_id <- environ svc "AZURE_CLIENT_ID" ;;
  secret <- environ svc "AZURE_CLIENT_SECRET" ;;
  tenant <- environ svc "AZURE_TENANT_ID" ;;
  net (CAuthenticate client_id tenant) (svc.(sv_authenticate) client_id secret tenant) ;;
  try_except (query_start_time workspace_id log_type)
    (fun _ => now <- utcnow svc ;; of_res (fallback_start now)).

End Checkpoint.

(** What the query answers for the checkpoint: a parsed time, or an
    exception the [except:] catches. *)
Definition query_outcome (svc : services) (workspace_id log_type : string) : res datetime :=
  match svc.(sv_query) workspace_id (checkpoint_query log_type) with
  | Ret tables => match first_cell tables with Ret c => parse_cell c | Raise e => Raise e end
  | Raise e => Raise e
  end.

(** The Azure identifiers [get_start_time] reads before its [try:]. *)
Definition azure_env_ok (svc : services) (workspace client_id secret tenant : string) : Prop :=
  svc.(sv_env) !! "LOG_ANALYTICS_CUSTID" = Some workspace /\
  svc.(sv_env) !! "AZURE_CLIENT_ID" = Some client_id /\
  svc.(sv_env) !! "AZURE_CLIENT_SECRET" = Some secret /\
  svc.(sv_env) !! "AZURE_TENANT_ID" = Some tenant.

(** The clock readings are far enough from year 1 for the fallback
    [utcnow() + timedelta(days=-30)] not to overflow. *)
Definition fallback_defined (svc : services) : Prop :=
  forall n, exists d, fallback_start (svc.(sv_clock) n) = Ret d.

(** ** The window of a run

    The hypotheses under which the window [start_time, end_time] of a run
    is not empty: every clock reading is a valid datetime, any two readings
    of one run fall on calendar days less than 30 days apart, and the
    destination holds no event time later than the clock. *)
Definition clock_valid (svc : services) : Prop :=
  forall n, valid_datetime (svc.(sv_clock) n) = true.

Definition clock_span (svc : services) : Prop :=
  forall n m, toordinal (svc.(sv_clock) n) < toordinal (svc.(sv_clock) m) + 30.

Definition checkpoints_past (svc : services) : Prop :=
  forall ws lt dt, query_outcome svc ws lt = Ret dt -> forall n, dt_le dt (svc.(sv_clock) n) = true.

(** ** Lemmas *)

Lemma query_start_time_run svc ws lt w :
  query_start_time svc ws lt w =
    (query_outcome svc ws lt,
     with_trace (fun tr => tr ++ [ENet (CQuery ws (checkpoint_query lt))]) w).
Proof.
  unfold query_start_time, query_outcome. world_simpl.
  destruct (sv_query svc _ _) as [tables|e]; cbn; [|done].
  by destruct (first_cell tables).
Qed.

(** After the authentication, [get_start_time] is the query's time when it
    parses, and otherwise the clock reading minus 30 days. *)
Lemma get_start_time_run svc lt ws cid sec ten w :
  azure_env_ok svc ws cid sec ten -> svc.(sv_authenticate) cid sec ten = Ret tt ->
  get_start_time svc lt w =
    let w1 := with_trace (fun tr => tr ++ [ENet (CAuthenticate cid ten);
                                          ENet (CQuery ws (checkpoint_query lt))]) w in
    match query_outcome svc ws lt with
    | Ret dt => (Ret dt, w1)
    | Raise _ =>
        (fallback_start (svc.(sv_clock) w.(w_clock)),
         mk_world w1.(w_trace) w.(w_region) (S w.(w_clock)) w.(w_posts))
    end.
Proof.
  intros (H1 & H2 & H3 & H4) Ha. unfold get_start_time, environ.
  rewrite H1, H2, H3, H4. rewrite !bind_ret_l.
  rewrite Ha, bind_net_Ret.
  unfold try_except. rewrite query_start_time_run. unfold with_trace. cbn.
  rewrite <- app_assoc. by destruct (query_outcome svc ws lt).
Qed.


Lemma get_start_time_observes svc lt ws cid sec ten {X} (obs : event -> list X) :
  azure_env_ok svc ws cid sec ten -> svc.(sv_authenticate) cid sec ten = Ret tt ->
  fallback_defined svc ->
  observes obs (fun _ => True) (get_start_time svc lt) (fun _ => True)
    (obs (ENet (CAuthenticate cid ten)) ++ obs (ENet (CQuery ws (checkpoint_query lt)))).
Proof.
  intros He Ha Hf w _. rewrite (get_start_time_run svc lt ws cid sec ten w He Ha).
  destruct (query_outcome svc ws lt) as [dt|e]; [|destruct (Hf (w_clock w)) as [d ->]];
    (eexists _, _, _; split; [reflexivity|]; repeat split; try reflexivity);
    cbn; by rewrite app_nil_r.
Qed.

(** ** Properties of the checkpoint resolver *)

(** C7 (fallback): once the credentials are built, any failure of the query
    path (a query error, no table, no row, an empty row, a cell that is not
    a string, a string the format rejects, an invalid date) gives the start
    time [utcnow() + timedelta(days=-30)] of a fresh clock reading, and
    never an error of its own; the query is made once. *)
Theorem get_start_time_fallback svc lt ws cid sec ten w e :
  azure_env_ok svc ws cid sec ten -> svc.(sv_authenticate) cid sec ten = Ret tt ->
  query_outcome svc ws lt = Raise e ->
  (get_start_time svc lt w).1 = add_days (svc.(sv_clock) w.(w_clock)) (-30) /\
  net_calls (get_start_time svc lt w).2.(w_trace) =
    net_calls w.(w_trace) ++ [CAuthenticate cid ten; CQuery ws (checkpoint_query lt)].
Proof.
  intros He Ha Hq. rewrite (get_start_time_run svc lt ws cid sec ten w He Ha), Hq. cbn.
  split; [done|]. by rewrite net_calls_app.
Qed.

(** C11 (resolved checkpoint): when the first cell of the first row of the
    first table is a string the format accepts, the start time is the
    parsed time, and the clock is not read. *)
Theorem get_start_time_resolved svc lt ws cid sec ten w tables s dt rows row :
  azure_env_ok svc ws cid sec ten -> svc.(sv_authenticate) cid sec ten = Ret tt ->
  svc.(sv_query) ws (checkpoint_query lt) = Ret (mk_table ((CStr s :: row) :: rows) :: tables) ->
  strptime_checkpoint s = Ret dt ->
  get_start_time svc lt w =
    (Ret dt, with_trace (fun tr => tr ++ [ENet (CAuthenticate cid ten);
                                        ENet (CQuery ws (checkpoint_query lt))]) w).
Proof.
  intros He Ha Hq Hs. rewrite (get_start_time_run svc lt ws cid sec ten w He Ha).
  unfold query_outcome. by rewrite Hq; cbn; rewrite Hs.
Qed.

(** C12 (authentication is outside the [try:]): when building the service
    principal credentials fails, [get_start_time] raises that error instead
    of falling back, and the query is never made. *)
Theorem get_start_time_auth_fatal svc lt ws cid sec ten w e :
  azure_env_ok svc ws cid sec ten -> svc.(sv_authenticate) cid sec ten = Raise e ->
  get_start_time svc lt w = (Raise e, with_trace (fun tr => tr ++ [ENet (CAuthenticate cid ten)]) w).
Proof.
  intros (H1 & H2 & H3 & H4) Ha. unfold get_start_time, environ.
  rewrite H1, H2, H3, H4, !bind_ret_l, Ha. apply bind_net_Raise.
Qed.

Lemma triple_get_start_time svc {X} (obs : event -> list X) (Pr : X -> Prop) lt :
  (forall a b, Forall Pr (obs (ENet (CAuthenticate a b)))) ->
  (forall ws, Forall Pr (obs (ENet (CQuery ws (checkpoint_query lt))))) ->
  triple (trace_inv obs Pr) (get_start_time svc lt) (fun _ => True).
Proof. intros Ha Hq. unfold get_start_time, query_start_time. solve_triple. Qed.

(** The fallback is a valid datetime exactly 30 calendar days before the
    clock reading, when it does not overflow. *)
Lemma fallback_start_spec now st :
  valid_datetime now = true -> fallback_start now = Ret st ->
  valid_datetime st = true /\ toordinal st = toordinal now - 30.
Proof.
  intros Hv Hf. pose proof Hf as Hf'. unfold fallback_start, add_days in Hf'.
  destruct ((0 <? _) && (_ <=? MAXORDINAL)) eqn:E; [|discriminate].
  apply andb_true_iff in E as [E1 E2]. apply Z.ltb_lt in E1. apply Z.leb_le in E2.
  destruct (add_days_spec now (-30) Hv ltac:(lia)) as (dt' & Hadd & Hv' & Ho & _).
  unfold fallback_start in Hf. rewrite Hadd in Hf. injection Hf as <-. split; [done | lia].
Qed.

(** Every start time [get_start_time] returns comes from one of its two
    branches: a parsed answer of the query, or the fallback from a clock
    reading. *)
Lemma triple_get_start_time_post svc {X} (obs : event -> list X) (Pr : X -> Prop) lt (Q : datetime -> Prop) :
  (forall a b, Forall Pr (obs (ENet (CAuthenticate a b)))) ->
  (forall ws q, Forall Pr (obs (ENet (CQuery ws q)))) ->
  (forall ws dt, query_outcome svc ws lt = Ret dt -> Q dt) ->
  (forall k st, fallback_start (svc.(sv_clock) k) = Ret st -> Q st) ->
  triple (trace_inv obs Pr) (get_start_time svc lt) Q.
Proof.
  intros Ha Hq HQq HQf. unfold get_start_time.
  eapply triple_bind; [apply triple_environ|intros ws _].
  do 3 (eapply triple_bind; [apply triple_environ|intros ? _]).
  eapply triple_bind; [by apply triple_net|intros _ _].
  apply triple_try.
  - unfold query_start_time.
    eapply triple_bind; [by apply triple_net|intros tables Ht].
    eapply triple_bind; [apply triple_of_res|intros c Hc].
    eapply triple_weaken; [apply triple_of_res|]. intros st Hst.
    apply (HQq ws). unfold query_outcome. by rewrite Ht, Hc.
  - intros _. eapply triple_bind; [apply triple_utcnow|intros now [k ->]].
    eapply triple_weaken; [apply triple_of_res|]. intros st Hst. by apply (HQf k).
Qed.

(** Under the hypotheses on the clock and the destination, the start time
    [get_start_time] returns is not later than any clock reading, on both
    branches of its [try:]. *)
Lemma triple_get_start_time_window svc {X} (obs : event -> list X) (Pr : X -> Prop) lt :
  clock_valid svc -> clock_span svc -> checkpoints_past svc ->
  (forall a b, Forall Pr (obs (ENet (CAuthenticate a b)))) ->
  (forall ws q, Forall Pr (obs (ENet (CQuery ws q)))) ->
  triple (trace_inv obs Pr) (get_start_time svc lt) (fun st => forall n, dt_le st (svc.(sv_clock) n) = true).
Proof.
  intros Hcv Hcs Hcp Ha Hq. apply triple_get_start_time_post; [done | done | |].
  - intros ws dt Hdt n. by apply (Hcp ws lt).
  - intros k st Hst n. destruct (fallback_start_spec _ _ (Hcv k) Hst) as [Hv Ho].
    apply dt_le_toordinal; [apply valid_datetime_date, Hv | apply valid_datetime_date, Hcv |].
    specialize (Hcs k n). lia.
Qed.

(** When the query resolves, [get_start_time] returns its time and never
    reads the clock. *)
Lemma triple_get_start_time_resolved svc {X} (obs : event -> list X) (Pr : X -> Prop) lt ws cid sec ten dt :
  azure_env_ok svc ws cid sec ten -> svc.(sv_authenticate) cid sec ten = Ret tt ->
  query_outcome svc ws lt = Ret dt ->
  (forall a b, Forall Pr (obs (ENet (CAuthenticate a b)))) ->
  (forall ws q, Forall Pr (obs (ENet (CQuery ws q)))) ->
  triple (trace_inv obs Pr) (get_start_time svc lt) (fun st => st = dt).
Proof.
  intros He Ha Hq HPa HPq w Hw. rewrite (get_start_time_run svc lt ws cid sec ten w He Ha), Hq.
  split; [|by intros ? [= ->]]. apply trace_inv_append; [done|].
  cbn [flat_map]. rewrite app_nil_r. by apply Forall_app.
Qed.

