(* ===== verification/Orchestrator.v ===== *)
(** * Orchestrator: [get_config], [initOCI] and [main]
    (src/OCItoLogAnalytics/__init__.py, lines 19-83 and 221-234)

    [main] logs the trigger and calls [initOCI].  [initOCI] builds the OCI
    configuration from six environment variables, creates the identity
    client (twice, as the code does), reads the Log Analytics identifiers,
    reads the clock for [end_time], resolves the checkpoint, prints it,
    resolves the regions and compartments, creates the audit client (whose
    region is the configured one) and, for each region in order, sets the
    shared client's region and runs the collector over all compartments.
    The theorems: the run's network calls come in a fixed order
    (authentication, checkpoint query, region and compartment listings,
    then page requests and POSTs streamed region x compartment x page x
    event), so every served event is delivered; every POST is signed for
    its own request and passes the server's byte-length check; every page
    request asks for a non-empty window under the hypotheses on the clock,
    and for an inverted one when the checkpoint is in the future; the
    checkpoint query and the POSTs name the same log type; with no
    subscribed region the run POSTs nothing; a missing environment
    variable stops the run before any network call, and a shared key that
    does not decode before any POST.  The observation
    lemmas are generic in what is observed ([Section RunObserved]). *)

From Stdlib Require Import String Ascii ZArith List Lia.
From stdpp Require Import base list strings gmap.
From S2P Require Import Prelude Text Crypto DateTime Json World Signer Forwarder Collector Scope Checkpoint.

Open Scope Z_scope.

(** [config[k]] on the dict [get_config] returns. *)
Definition dict_get (d : list (string * string)) (k : string) : res string :=
  match find (fun kv => bool_decide (kv.1 = k)) d with
  | Some kv => Ret kv.2
  | None => Raise (KeyError k)
  end.

Section Orchestrator.
Context (svc : services) (fuel : nat).

Definition get_config : PyM (list (string * string)) :=
  key_content <- environ svc "OCI_KEY_CONTENT" ;;
  user <- environ svc "USER_OCID" ;;
  fingerprint <- environ svc "OCI_FINGERPRINT" ;;
  tenancy <- environ svc "OCI_TENANCY" ;;
  region <- environ svc "OCI_REGION" ;;
  pass_phrase <- environ svc "OCI_PASS_PHRASE" ;;
  ret [("user", user); ("fingerprint", fingerprint); ("tenancy", tenancy);
       ("key_content", key_content); ("region", region); ("pass_phrase", pass_phrase)].

(** [for r in regions: audit.base_client.set_region(r); get_audit_events(...)] *)
Definition collect_regions (customer_id shared_key : string) (regions compartments : list string)
    (start_time end_time : datetime) : PyM unit :=
  for_each (fun r =>
    set_region r ;;
    get_audit_events svc fuel customer_id shared_key compartments start_time end_time) regions.

Definition initOCI : PyM unit :=
  config <- get_config ;;
  make_client svc config ;;
  tenancy_id <- of_res (dict_get config "tenancy") ;;
  customer_id <- environ svc "LOG_ANALYTICS_CUSTID" ;;
  shared_key <- environ svc "LOG_ANALYTICS_KEY" ;;
  log_type <- environ svc "LOG_ANALYTICS_LOGTYPE" ;;
  make_client svc config ;;
  end_time <- utcnow svc ;;
  start_time <- get_start_time svc log_type ;;
  print ("Start time is: " +:+ py_str_datetime start_time) ;;
  regions <- get_subscription_regions svc tenancy_id ;;
  compartments <- get_compartments svc fuel tenancy_id ;;
  make_client svc config ;;
  config_region <- of_res (dict_get config "region") ;;
  set_region config_region ;;
  collect_regions customer_id shared_key regions compartments start_time end_time.

(** [main(mytimer)] *)
Definition main (past_due : bool) : PyM unit :=
  now <- utcnow svc ;;
  let utc_timestamp := isoformat_utc now in
  (if past_due then log_info "The timer is past due!" else ret tt) ;;
  log_info ("Python timer trigger function ran at " +:+ utc_timestamp) ;;
  initOCI.

End Orchestrator.

(** ** The environment of a run *)

(** The values a run reads from [os.environ]. *)
Record run_env := mk_run_env {
  re_key_content : string; re_user : string; re_fingerprint : string;
  re_tenancy : string; re_region : string; re_pass_phrase : string;
  re_custid : string; re_shared_key : string; re_log_type : string;
  re_client_id : string; re_secret : string; re_tenant : string
}.

Definition env_has (svc : services) (re : run_env) : Prop :=
  svc.(sv_env) !! "OCI_KEY_CONTENT" = Some re.(re_key_content) /\
  svc.(sv_env) !! "USER_OCID" = Some re.(re_user) /\
  svc.(sv_env) !! "OCI_FINGERPRINT" = Some re.(re_fingerprint) /\
  svc.(sv_env) !! "OCI_TENANCY" = Some re.(re_tenancy) /\
  svc.(sv_env) !! "OCI_REGION" = Some re.(re_region) /\
  svc.(sv_env) !! "OCI_PASS_PHRASE" = Some re.(re_pass_phrase) /\
  svc.(sv_env) !! "LOG_ANALYTICS_CUSTID" = Some re.(re_custid) /\
  svc.(sv_env) !! "LOG_ANALYTICS_KEY" = Some re.(re_shared_key) /\
  svc.(sv_env) !! "LOG_ANALYTICS_LOGTYPE" = Some re.(re_log_type) /\
  svc.(sv_env) !! "AZURE_CLIENT_ID" = Some re.(re_client_id) /\
  svc.(sv_env) !! "AZURE_CLIENT_SECRET" = Some re.(re_secret) /\
  svc.(sv_env) !! "AZURE_TENANT_ID" = Some re.(re_tenant).

Definition config_of (re : run_env) : list (string * string) :=
  [("user", re.(re_user)); ("fingerprint", re.(re_fingerprint)); ("tenancy", re.(re_tenancy));
   ("key_content", re.(re_key_content)); ("region", re.(re_region));
   ("pass_phrase", re.(re_pass_phrase))].

(** The events a run delivers: per region, per compartment, per page, per
    event, in the orders the APIs list them. *)
Definition run_deliveries (pages : string -> string -> list (page json))
    (regions comps : list string) : list json :=
  flat_map (fun r => collected_events (pages r) comps) regions.

(** The environment variables the run reads before its first network
    call (the authentication of [get_start_time]). *)
Definition required_env : list string :=
  ["OCI_KEY_CONTENT"; "USER_OCID"; "OCI_FINGERPRINT"; "OCI_TENANCY"; "OCI_REGION";
   "OCI_PASS_PHRASE"; "LOG_ANALYTICS_CUSTID"; "LOG_ANALYTICS_KEY"; "LOG_ANALYTICS_LOGTYPE";
   "AZURE_CLIENT_ID"; "AZURE_CLIENT_SECRET"; "AZURE_TENANT_ID"].

(** ** The windows of the event listings *)

(** The window [(start_time, end_time)] of each page request. *)
Definition window_obs (e : event) : list (datetime * datetime) :=
  match e with ENet (CListEvents _ _ s e _) => [(s, e)] | _ => [] end.

(** [start_time <= end_time] ([datetime.__le__]). *)
Definition window_ok (se : datetime * datetime) : Prop := dt_le se.1 se.2 = true.

(** ** The log type of the checkpoint and of the deliveries *)

(** The custom table the HTTP Data Collector API files the records of
    Log-Type [lt] under. *)
Definition custom_table (lt : string) : string := lt +:+ "_CL".

(** The checkpoint queries and the Log-Type headers of the POSTs. *)
Definition log_type_obs (e : event) : list (string + option string) :=
  match e with
  | ENet (CQuery _ q) => [inl q]
  | ENet (CPost r) => [inr (header r "Log-Type")]
  | _ => []
  end.

(** A query reads the custom table of [lt] first; a POST is filed as [lt]. *)
Definition log_type_ok (lt : string) (x : string + option string) : Prop :=
  match x with
  | inl q => exists rest, q = "union isfuzzy=true (" +:+ custom_table lt +:+ rest
  | inr h => h = Some lt
  end.

(** [start_time > end_time]: the window asks for no event at all. *)
Definition window_backwards (se : datetime * datetime) : Prop := dt_le se.1 se.2 = false.

(** The side condition of a page request when the start time is a
    checkpoint later than every clock reading. *)
Ltac window_back_side :=
  intros; cbn [window_obs]; apply List.Forall_cons; [|apply List.Forall_nil];
  unfold window_backwards; cbn [fst snd];
  match goal with
  | Hf : forall n, dt_le ?s _ = false, He : exists n, ?e = _ |- dt_le ?s ?e = false =>
      destruct He as [? ->]; apply Hf
  end.

(** ** The steps of a run in the order it takes them *)

(** The network calls of a run before its first page request: the
    authentication and the checkpoint query of [get_start_time], the region
    listing, and the requests for the compartment pages. *)
Definition prefix_calls (re : run_env) (cpgs : list (page compartment)) : list call :=
  [CAuthenticate re.(re_client_id) re.(re_tenant); CQuery re.(re_custid) (checkpoint_query re.(re_log_type));
   CListRegions re.(re_tenancy)] ++ compartment_calls re.(re_tenancy) None cpgs.

(** A network call as the order of a run sees it: a page request through
    its region, compartment and token (not its window), a POST through its
    body. *)
Inductive run_io :=
| RAuth (client_id tenant : string)
| RQuery (workspace query : string)
| RRegions (tenancy : string)
| RCompartments (parent : string) (p : option string)
| RList (r c : string) (p : option string)
| RPost (body : string).

Definition io_of_call (c : call) : run_io :=
  match c with
  | CAuthenticate a t => RAuth a t
  | CQuery w q => RQuery w q
  | CListRegions t => RRegions t
  | CListCompartments par p => RCompartments par p
  | CListEvents r c _ _ p => RList r c p
  | CPost rq => RPost rq.(rq_body)
  end.

Definition run_obs (e : event) : list run_io :=
  match e with ENet c => [io_of_call c] | _ => [] end.

(** Per region, per compartment, the streaming order over its pages. *)
Definition run_stream (pages : string -> string -> list (page json)) (regions comps : list string) : list run_io :=
  flat_map (fun r => flat_map (fun c => stream (RList r c) RPost None (pages r c)) comps) regions.

(** ** Lemmas *)

Lemma observes_get_config svc re {X} (obs : event -> list X) :
  env_has svc re -> observes obs (fun _ => True) (get_config svc) (fun c => c = config_of re) [].
Proof.
  intros (H1 & H2 & H3 & H4 & H5 & H6 & _). unfold get_config, environ.
  rewrite H1, H2, H3, H4, H5, H6. cbn [bind ret]. by apply observes_ret.
Qed.

Lemma dict_get_config re :
  dict_get (config_of re) "tenancy" = Ret re.(re_tenancy) /\
  dict_get (config_of re) "region" = Ret re.(re_region).
Proof. split; reflexivity. Qed.

(** The side condition of a page request: its window is the start time,
    not later than any clock reading, and the end time, a clock reading. *)
Ltac window_side :=
  intros; cbn [window_obs]; apply List.Forall_cons; [|apply List.Forall_nil];
  unfold window_ok; cbn [fst snd];
  match goal with
  | Hs : forall n, dt_le ?s _ = true, He : exists n, ?e = _ |- dt_le ?s ?e = true =>
      destruct He as [? ->]; apply Hs
  end.

(** One step of a run that the observation sees: its postcondition is
    introduced. *)
Ltac net_step lem :=
  eapply observes_bind; [eapply lem; eauto | let Hq := fresh "Hq" in intros ? Hq; cbv beta in Hq; subst].

(** One step of a run that raises later, which the observation does not
    see. *)
Ltac quiet_rstep lem :=
  eapply raises_bind_r_nil; [eapply lem; eauto | let Hq := fresh "Hq" in intros ? Hq; cbv beta in Hq; subst].

(** One step of a run that the observation does not see. *)
Ltac quiet_step lem :=
  eapply observes_bind_nil; [eapply lem; eauto | let Hq := fresh "Hq" in intros ? Hq; cbv beta in Hq; subst].

Section RunObserved.
(** An observation of a run that sees the page requests through their
    region, compartment and token ([list_obs]), the POSTs through their
    body ([post_obs]), and nothing of the other events. *)
Context {X : Type} (obs : event -> list X) (post_obs : string -> list X)
  (list_obs : string -> string -> option string -> list X).
Hypothesis obs_print : forall s, obs (EPrint s) = [].
Hypothesis obs_log_info : forall s, obs (ELogInfo s) = [].
Hypothesis obs_log_error : forall st hs b, obs (ELogError st hs b) = [].
Hypothesis obs_post : forall r, obs (ENet (CPost r)) = post_obs r.(rq_body).
Hypothesis obs_list : forall r c s e p, obs (ENet (CListEvents r c s e p)) = list_obs r c p.

(** What the observation sees of a run over the regions [regions] and
    the compartments [comps]: per region, per compartment, the chain of
    its pages. *)
Definition run_observation (pages : string -> string -> list (page json)) (regions comps : list string) : list X :=
  flat_map (fun r => flat_map (fun c =>
    chain_obs (list_obs r c) (fun pg => flat_map (fun ev => post_obs (dumps ev)) (pg_data pg)) None (pages r c))
    comps) regions.

(** The steps of [initOCI] before [get_start_time], none of which the
    observation sees, taken by [step] ([quiet_step] on a run that returns,
    [quiet_rstep] on a run that raises later). *)
Ltac initOCI_head step re Ht :=
  step (@observes_get_config); step (@observes_make_client);
  rewrite Ht; step (observes_of_res obs (fun _ => True) re.(re_tenancy) (fun x => x = re.(re_tenancy)));
  step (@observes_environ); step (@observes_environ); step (@observes_environ);
  step (@observes_make_client); step (@observes_utcnow).

Lemma observes_collect_regions svc fuel cid key k lt regions comps s e pages :
  svc.(sv_env) !! "LOG_ANALYTICS_LOGTYPE" = Some lt ->
  posts_answered svc -> Base64.b64decode key = Ret k -> events_wf svc ->
  (forall r, r ∈ regions -> chains_within svc fuel r s e (pages r) comps) ->
  observes obs (fun _ => True) (collect_regions svc fuel cid key regions comps s e) (fun _ => True)
           (run_observation pages regions comps).
Proof.
  intros Hl Hp Hk Hwf Hch. apply observes_for_each. intros r Hr w _.
  destruct (get_audit_events_observes obs post_obs obs_post obs_print obs_log_error
              svc fuel cid key k lt comps s e r (pages r) Hl Hp Hk Hwf (Hch r Hr)
              (mk_world w.(w_trace) r w.(w_clock) w.(w_posts)) eq_refl)
    as (u & d & w' & E & _ & _ & T & B).
  exists u, d, w'. unfold bind, set_region. rewrite E. repeat split; [done|]. rewrite B.
  apply flat_map_ext. intros c. apply chain_obs_ext; [intros; apply obs_list | done].
Qed.

Lemma initOCI_observes svc fuel re subs cpgs pages k :
  env_has svc re ->
  svc.(sv_client_ok) (config_of re) = true ->
  svc.(sv_authenticate) re.(re_client_id) re.(re_secret) re.(re_tenant) = Ret tt ->
  fallback_defined svc ->
  svc.(sv_list_region_subscriptions) re.(re_tenancy) = Ret subs ->
  page_chain (svc.(sv_list_compartments) re.(re_tenancy)) None cpgs -> (length cpgs <= fuel)%nat ->
  posts_answered svc -> Base64.b64decode re.(re_shared_key) = Ret k -> events_wf svc ->
  (forall r s e, r ∈ map rs_region_name subs ->
     chains_within svc fuel r s e (pages r) (scope_of re.(re_tenancy) (flat_map pg_data cpgs))) ->
  observes obs (fun _ => True) (initOCI svc fuel) (fun _ => True)
    (flat_map obs (map ENet (prefix_calls re cpgs)) ++
     run_observation pages (map rs_region_name subs) (scope_of re.(re_tenancy) (flat_map pg_data cpgs))).
Proof.
  intros Henv Hcl Hauth Hfb Hreg Hcp Hlen Hp Hk Hwf Hch.
  pose proof Henv as (_ & _ & _ & _ & _ & _ & Hcid & Hkey & Hlt & Hazid & Hsec & Hten).
  destruct (dict_get_config re) as [Ht Hr].
  unfold initOCI, prefix_calls. rewrite map_app, flat_map_app_distr. cbn [map flat_map].
  rewrite app_nil_r, <- !app_assoc, (app_assoc (obs _)).
  initOCI_head quiet_step re Ht.
  eapply observes_bind; [eapply get_start_time_observes; eauto; repeat split; eauto|intros start _].
  quiet_step (@observes_print).
  net_step (@observes_get_subscription_regions).
  net_step (@observes_get_compartments).
  quiet_step (@observes_make_client).
  rewrite Hr. quiet_step (observes_of_res obs (fun _ => True) re.(re_region) (fun x => x = re.(re_region))).
  quiet_step (@observes_set_region).
  eapply observes_collect_regions; eauto.
Qed.

(** A failing region listing: the run stops after the authentication, the
    checkpoint query and the region listing. *)
Lemma initOCI_raises_regions svc fuel re e :
  env_has svc re ->
  svc.(sv_client_ok) (config_of re) = true ->
  svc.(sv_authenticate) re.(re_client_id) re.(re_secret) re.(re_tenant) = Ret tt ->
  fallback_defined svc ->
  svc.(sv_list_region_subscriptions) re.(re_tenancy) = Raise e ->
  raises obs (fun _ => True) (initOCI svc fuel) e
    ((obs (ENet (CAuthenticate re.(re_client_id) re.(re_tenant))) ++
      obs (ENet (CQuery re.(re_custid) (checkpoint_query re.(re_log_type))))) ++
     obs (ENet (CListRegions re.(re_tenancy)))).
Proof.
  intros Henv Hcl Hauth Hfb Hreg.
  pose proof Henv as (_ & _ & _ & _ & _ & _ & Hcid & Hkey & Hlt & Hazid & Hsec & Hten).
  destruct (dict_get_config re) as [Ht Hr]. unfold initOCI.
  initOCI_head quiet_rstep re Ht.
  eapply raises_bind_r; [eapply get_start_time_observes; eauto; repeat split; eauto|intros start _].
  quiet_rstep (@observes_print).
  by apply raises_bind_l, raises_get_subscription_regions.
Qed.

(** A compartment listing that fails after the pages [cpgs]: the run stops
    after the authentication, the checkpoint query, the region listing and
    the compartment page requests, the failing one last. *)
Lemma initOCI_raises_compartments svc fuel re subs cpgs e :
  env_has svc re ->
  svc.(sv_client_ok) (config_of re) = true ->
  svc.(sv_authenticate) re.(re_client_id) re.(re_secret) re.(re_tenant) = Ret tt ->
  fallback_defined svc ->
  svc.(sv_list_region_subscriptions) re.(re_tenancy) = Ret subs ->
  chain_fails (svc.(sv_list_compartments) re.(re_tenancy)) None cpgs e -> (length cpgs < fuel)%nat ->
  raises obs (fun _ => True) (initOCI svc fuel) e
    ((obs (ENet (CAuthenticate re.(re_client_id) re.(re_tenant))) ++
      obs (ENet (CQuery re.(re_custid) (checkpoint_query re.(re_log_type))))) ++
     (obs (ENet (CListRegions re.(re_tenancy))) ++
      flat_map obs (map ENet (map (CListCompartments re.(re_tenancy)) (None :: map pg_next_page cpgs))))).
Proof.
  intros Henv Hcl Hauth Hfb Hreg Hc Hl.
  pose proof Henv as (_ & _ & _ & _ & _ & _ & Hcid & Hkey & Hlt & Hazid & Hsec & Hten).
  destruct (dict_get_config re) as [Ht Hr]. unfold initOCI.
  initOCI_head quiet_rstep re Ht.
  eapply raises_bind_r; [eapply get_start_time_observes; eauto; repeat split; eauto|intros start _].
  quiet_rstep (@observes_print).
  eapply raises_bind_r; [eapply observes_get_subscription_regions; eauto|intros regions _].
  by apply raises_bind_l, raises_get_compartments.
Qed.

(** [main] raises what [initOCI] raises, and the observation sees nothing
    more. *)
Lemma main_raises svc fuel past_due e o :
  raises obs (fun _ => True) (initOCI svc fuel) e o ->
  raises obs (fun _ => True) (main svc fuel past_due) e o.
Proof.
  intros H. unfold main.
  apply (raises_bind_r_nil _ _ _ _ (fun _ => True)); [by apply observes_utcnow|intros now _].
  apply (raises_bind_r_nil _ _ _ _ (fun _ => True)).
  - destruct past_due; [by apply observes_emit | by apply observes_ret].
  - intros. apply (raises_bind_r_nil _ _ _ _ (fun _ => True)); [by apply observes_emit | done].
Qed.

(** [main] adds nothing the observation sees to [initOCI]. *)
Lemma main_observes svc fuel past_due (Q : unit -> Prop) o :
  observes obs (fun _ => True) (initOCI svc fuel) Q o ->
  observes obs (fun _ => True) (main svc fuel past_due) Q o.
Proof.
  intros H. unfold main.
  apply (observes_bind_nil _ _ _ _ (fun _ => True)); [by apply observes_utcnow|intros now _].
  apply (observes_bind_nil _ _ _ _ (fun _ => True)).
  - destruct past_due; [by apply observes_emit | by apply observes_ret].
  - intros. apply (observes_bind_nil _ _ _ _ (fun _ => True)); [by apply observes_emit | done].
Qed.
End RunObserved.

(** An observation that sees only page requests and POSTs sees nothing of
    the calls before the first page request. *)
Lemma prefix_calls_quiet {X} (obs : event -> list X) re cpgs :
  obs_quiet obs -> flat_map obs (map ENet (prefix_calls re cpgs)) = [].
Proof.
  intros Hq. apply flat_map_quiet; [done|]. unfold prefix_calls.
  rewrite map_app, forallb_app. apply andb_true_iff. split; [done | apply compartment_calls_quiet].
Qed.

(** Under the hypotheses of a complete run, what such an observation sees
    of [main] is the pages and POSTs of every region and compartment. *)
Lemma main_observes_quiet {X} (obs : event -> list X) post_obs list_obs svc fuel past_due re subs cpgs pages k :
  obs_quiet obs -> (forall r, obs (ENet (CPost r)) = post_obs r.(rq_body)) ->
  (forall r c s e p, obs (ENet (CListEvents r c s e p)) = list_obs r c p) ->
  env_has svc re ->
  svc.(sv_client_ok) (config_of re) = true ->
  svc.(sv_authenticate) re.(re_client_id) re.(re_secret) re.(re_tenant) = Ret tt ->
  fallback_defined svc ->
  svc.(sv_list_region_subscriptions) re.(re_tenancy) = Ret subs ->
  page_chain (svc.(sv_list_compartments) re.(re_tenancy)) None cpgs -> (length cpgs <= fuel)%nat ->
  posts_answered svc -> Base64.b64decode re.(re_shared_key) = Ret k -> events_wf svc ->
  (forall r s e, r ∈ map rs_region_name subs ->
     chains_within svc fuel r s e (pages r) (scope_of re.(re_tenancy) (flat_map pg_data cpgs))) ->
  observes obs (fun _ => True) (main svc fuel past_due) (fun _ => True)
    (run_observation post_obs list_obs pages (map rs_region_name subs)
       (scope_of re.(re_tenancy) (flat_map pg_data cpgs))).
Proof.
  intros Hq Hp Hl. intros.
  rewrite <- (app_nil_l (run_observation _ _ _ _ _)), <- (prefix_calls_quiet obs re cpgs Hq).
  apply main_observes; try (intros; by apply Hq). eapply initOCI_observes; eauto; intros; by apply Hq.
Qed.

(** The order of a run sees every network call. *)
Lemma flat_map_run_obs calls : flat_map run_obs (map ENet calls) = map io_of_call calls.
Proof. induction calls as [|c l IH]; [done | cbn; by rewrite IH]. Qed.

(** Observed through the POST bodies, a run delivers the serialised events
    in the order region x compartment x page x event. *)
Lemma run_observation_bodies pages regions comps :
  run_observation (fun b => [b]) (fun _ _ _ => []) pages regions comps =
  map dumps (run_deliveries pages regions comps).
Proof.
  unfold run_observation, run_deliveries, collected_events. rewrite map_flat_map_distr.
  apply flat_map_ext. intros r. rewrite map_flat_map_distr. apply flat_map_ext. intros c.
  rewrite chain_obs_quiet, map_flat_map_distr. apply flat_map_ext. intros pg.
  by rewrite flat_map_singleton_map.
Qed.

(** ** Properties of a run *)

(** C1 (delivery order of a run): when the environment is complete, the
    clients accept the configuration, the credentials authenticate, the
    clock allows the fallback, the region and compartment listings answer
    (the compartments in a finite chain of pages within the fuel), every
    POST gets an HTTP status (2xx or not), the shared key is valid base64
    and the audit events of each region and compartment form a finite chain
    of pages within the fuel, then [main] returns normally and the bodies it
    POSTs are the serialised events in the order region (as listed) x
    compartment (the ACTIVE ones as listed, then the tenancy) x page x
    event: nothing is reordered, merged, skipped or repeated. *)
Theorem main_delivery_order svc fuel past_due re subs cpgs pages k :
  env_has svc re ->
  svc.(sv_client_ok) (config_of re) = true ->
  svc.(sv_authenticate) re.(re_client_id) re.(re_secret) re.(re_tenant) = Ret tt ->
  fallback_defined svc ->
  svc.(sv_list_region_subscriptions) re.(re_tenancy) = Ret subs ->
  page_chain (svc.(sv_list_compartments) re.(re_tenancy)) None cpgs -> (length cpgs <= fuel)%nat ->
  posts_answered svc -> Base64.b64decode re.(re_shared_key) = Ret k -> events_wf svc ->
  (forall r s e, r ∈ map rs_region_name subs ->
     chains_within svc fuel r s e (pages r) (scope_of re.(re_tenancy) (flat_map pg_data cpgs))) ->
  yields (fun _ => True) (main svc fuel past_due) (fun _ => True)
    (map dumps (run_deliveries pages (map rs_region_name subs)
                               (scope_of re.(re_tenancy) (flat_map pg_data cpgs)))).
Proof.
  intros. rewrite <- run_observation_bodies. eapply main_observes_quiet; eauto using post_body_quiet.
Qed.

(** An event on a page of a collected compartment of a collected region is
    one of the run's deliveries. *)
Lemma elem_of_run_deliveries pages regions comps r c pg ev :
  r ∈ regions -> c ∈ comps -> pg ∈ pages r c -> ev ∈ pg_data pg ->
  ev ∈ run_deliveries pages regions comps.
Proof.
  rewrite !list_elem_of_In. intros Hr Hc Hpg Hev. unfold run_deliveries, collected_events.
  apply in_flat_map. exists r. split; [done|]. apply in_flat_map. exists c. split; [done|].
  apply in_flat_map. by exists pg.
Qed.

(** C27 (every event is delivered): under the hypotheses of C1, for every
    subscribed region, every collected compartment (an ACTIVE child of the
    tenancy or the tenancy itself) and every event on a page the audit API
    serves for them, the run of [main] returns normally and one of its
    POSTs carries that event, serialised; a non-2xx answer to another POST
    does not prevent it. *)
Theorem main_delivers_every_event svc fuel past_due re subs cpgs pages k w r c pg ev :
  env_has svc re ->
  svc.(sv_client_ok) (config_of re) = true ->
  svc.(sv_authenticate) re.(re_client_id) re.(re_secret) re.(re_tenant) = Ret tt ->
  fallback_defined svc ->
  svc.(sv_list_region_subscriptions) re.(re_tenancy) = Ret subs ->
  page_chain (svc.(sv_list_compartments) re.(re_tenancy)) None cpgs -> (length cpgs <= fuel)%nat ->
  posts_answered svc -> Base64.b64decode re.(re_shared_key) = Ret k -> events_wf svc ->
  (forall r s e, r ∈ map rs_region_name subs ->
     chains_within svc fuel r s e (pages r) (scope_of re.(re_tenancy) (flat_map pg_data cpgs))) ->
  r ∈ map rs_region_name subs -> c ∈ scope_of re.(re_tenancy) (flat_map pg_data cpgs) ->
  pg ∈ pages r c -> ev ∈ pg_data pg ->
  exists w', main svc fuel past_due w = (Ret tt, w') /\
    exists rq, rq ∈ posts w'.(w_trace) /\ rq.(rq_body) = dumps ev.
Proof.
  intros ? ? ? ? ? ? ? ? ? ? ? Hr Hc Hpg Hev.
  assert (Hy : yields (fun _ => True) (main svc fuel past_due) (fun _ => True)
                 (map dumps (run_deliveries pages (map rs_region_name subs)
                                            (scope_of re.(re_tenancy) (flat_map pg_data cpgs))))).
  { rewrite <- run_observation_bodies. eapply main_observes_quiet; eauto using post_body_quiet. }
  destruct (yields_delivers _ _ _ _ (dumps ev) w Hy I) as ([] & w' & Hm & _ & Hrq).
  - apply list_elem_of_In, in_map, list_elem_of_In. by apply (elem_of_run_deliveries _ _ _ r c pg).
  - by exists w'.
Qed.

(** C29 (a failing region listing is fatal before any event): when the
    region listing raises an exception (and the run gets that far), [main]
    raises it after exactly three network calls, the authentication, the
    checkpoint query and the region listing: no compartment is listed, no
    page is requested and nothing is POSTed. *)
Theorem main_regions_error svc fuel past_due re e :
  env_has svc re ->
  svc.(sv_client_ok) (config_of re) = true ->
  svc.(sv_authenticate) re.(re_client_id) re.(re_secret) re.(re_tenant) = Ret tt ->
  fallback_defined svc ->
  svc.(sv_list_region_subscriptions) re.(re_tenancy) = Raise e ->
  raises run_obs (fun _ => True) (main svc fuel past_due) e
    [RAuth re.(re_client_id) re.(re_tenant); RQuery re.(re_custid) (checkpoint_query re.(re_log_type));
     RRegions re.(re_tenancy)].
Proof. intros. apply (main_raises run_obs); [done..|]. by eapply (initOCI_raises_regions run_obs). Qed.

(** C30 (a failing compartment listing is fatal before any event): when
    the compartment listing raises an exception after some pages (within
    the fuel), [main] raises it after the authentication, the checkpoint
    query, the region listing and the requests of those pages and of the
    failing one: no page of events is requested and nothing is POSTed. *)
Theorem main_compartments_error svc fuel past_due re subs cpgs e :
  env_has svc re ->
  svc.(sv_client_ok) (config_of re) = true ->
  svc.(sv_authenticate) re.(re_client_id) re.(re_secret) re.(re_tenant) = Ret tt ->
  fallback_defined svc ->
  svc.(sv_list_region_subscriptions) re.(re_tenancy) = Ret subs ->
  chain_fails (svc.(sv_list_compartments) re.(re_tenancy)) None cpgs e -> (length cpgs < fuel)%nat ->
  raises run_obs (fun _ => True) (main svc fuel past_due) e
    ([RAuth re.(re_client_id) re.(re_tenant); RQuery re.(re_custid) (checkpoint_query re.(re_log_type));
      RRegions re.(re_tenancy)] ++ map (RCompartments re.(re_tenancy)) (None :: map pg_next_page cpgs)).
Proof.
  intros. apply (main_raises run_obs); [done..|].
  replace (map (RCompartments _) _) with
    (flat_map run_obs (map ENet (map (CListCompartments re.(re_tenancy)) (None :: map pg_next_page cpgs))))
    by (rewrite flat_map_run_obs, map_map; reflexivity).
  by eapply (initOCI_raises_compartments run_obs).
Qed.

(** C9 (no region, no delivery): when the tenancy has no region
    subscription, a run that otherwise completes makes no POST at all
    (the compartment list is never empty: it ends with the tenancy). *)
Theorem main_no_regions svc fuel past_due re cpgs k :
  env_has svc re ->
  svc.(sv_client_ok) (config_of re) = true ->
  svc.(sv_authenticate) re.(re_client_id) re.(re_secret) re.(re_tenant) = Ret tt ->
  fallback_defined svc ->
  svc.(sv_list_region_subscriptions) re.(re_tenancy) = Ret [] ->
  page_chain (svc.(sv_list_compartments) re.(re_tenancy)) None cpgs -> (length cpgs <= fuel)%nat ->
  posts_answered svc -> Base64.b64decode re.(re_shared_key) = Ret k -> events_wf svc ->
  yields (fun _ => True) (main svc fuel past_due) (fun _ => True) [].
Proof.
  intros. change (@nil string) with (run_observation (fun b => [b]) (fun _ _ _ => []) (fun _ _ => [])
    (map rs_region_name []) (scope_of re.(re_tenancy) (flat_map pg_data cpgs))).
  eapply main_observes_quiet; eauto using post_body_quiet. set_solver.
Qed.

(** C14 (configuration fails fast): when one of the environment variables
    the run needs is missing (and the clients accept the configuration),
    [initOCI] raises a [KeyError] before making any network call. *)
Theorem initOCI_missing_env svc fuel w k :
  (forall cfg, svc.(sv_client_ok) cfg = true) ->
  k ∈ required_env -> svc.(sv_env) !! k = None ->
  exists k' w', initOCI svc fuel w = (Raise (KeyError k'), w') /\
                net_calls w'.(w_trace) = net_calls w.(w_trace).
Proof.
  intros Hcl Hk Hnone.
  unfold initOCI, get_config, get_start_time, make_client, environ.
  cbn [bind ret raise of_res].
  repeat match goal with
  | |- context [sv_client_ok svc ?c] => rewrite (Hcl c); cbn [bind ret raise of_res]
  | |- context [match svc.(sv_env) !! ?x with Some _ => _ | None => _ end] =>
      let E := fresh "E" in
      destruct (svc.(sv_env) !! x) eqn:E; cbn [bind ret raise of_res];
      [| by eexists _, _]
  end.
  all: repeat (apply elem_of_cons in Hk as [->|Hk]; [congruence|]);
       by apply elem_of_nil in Hk.
Qed.

(** Every POST of every run of [main] (failed runs included) is a well
    signed request for the workspace's identifiers whose body is the
    serialisation of an event; any property of such requests is an
    invariant of the POSTs of the run. *)
Lemma triple_main_posts svc fuel past_due cid key (Pr : request -> Prop) :
  svc.(sv_env) !! "LOG_ANALYTICS_CUSTID" = Some cid ->
  svc.(sv_env) !! "LOG_ANALYTICS_KEY" = Some key ->
  (forall r v lt, svc.(sv_env) !! "LOG_ANALYTICS_LOGTYPE" = Some lt -> header r "Log-Type" = Some lt ->
     well_signed cid key r -> r.(rq_body) = dumps v -> Pr r) ->
  triple (posts_inv Pr) (main svc fuel past_due) (fun _ => True).
Proof.
  intros Hc Hk HPr. unfold main, initOCI, collect_regions, get_config.
  solve_triple_with ltac:(
    cbv beta in *;
    repeat match goal with
    | H : svc.(sv_env) !! "LOG_ANALYTICS_CUSTID" = Some ?a |- _ => rewrite Hc in H; injection H as <-
    | H : svc.(sv_env) !! "LOG_ANALYTICS_KEY" = Some ?a |- _ => rewrite Hk in H; injection H as <-
    end;
    first [ eapply triple_get_start_time | eapply triple_get_subscription_regions
          | eapply triple_get_compartments | eapply triple_get_audit_events_inv ];
    intros; first [forall_obs | apply List.Forall_cons; [eauto | apply List.Forall_nil]]).
Qed.

(** C3 (every POST is signed for its own request): in every run of
    [main], whatever the services answer (errors, statuses, pages) and
    whatever the fuel, every POST goes to the workspace's ingestion
    endpoint with the Authorization header that [build_signature] computes
    for the customer id and shared key of the environment, the POST's own
    [x-ms-date] header and the length of its own body.  The invariant holds
    at every step, so also in a run that is stopped by an exception. *)
Theorem main_posts_well_signed svc fuel past_due cid key :
  svc.(sv_env) !! "LOG_ANALYTICS_CUSTID" = Some cid ->
  svc.(sv_env) !! "LOG_ANALYTICS_KEY" = Some key ->
  triple (posts_inv (well_signed cid key)) (main svc fuel past_due) (fun _ => True).
Proof. intros Hc Hk. by apply (triple_main_posts _ _ _ cid key). Qed.

(** C28 (every POST is accepted by the server's check): in every run of
    [main], failed runs included, every POST has an ASCII body (a
    [json.dumps] output with [ensure_ascii]), so the [len(body)] the client
    signs is the number of bytes the server receives, and the
    Authorization header is the signature the server recomputes from the
    request's own [x-ms-date] header and that byte count. *)
Theorem main_posts_server_accepts svc fuel past_due cid key :
  svc.(sv_env) !! "LOG_ANALYTICS_CUSTID" = Some cid ->
  svc.(sv_env) !! "LOG_ANALYTICS_KEY" = Some key ->
  triple (posts_inv (server_accepts cid key)) (main svc fuel past_due) (fun _ => True).
Proof.
  intros Hc Hk. apply (triple_main_posts _ _ _ cid key); [done | done |].
  intros r v lt _ _ (Hu & date & sig & Hd & Hs & Hb) Hbody.
  assert (Ha : is_ascii r.(rq_body) = true) by (rewrite Hbody; by apply dumps_at_ascii).
  split; [done|]. split; [done|]. exists date, sig. by rewrite utf8_encode_ascii_length.
Qed.

(** C15 (a shared key that does not decode stops every delivery): when
    [LOG_ANALYTICS_KEY] is not valid base64, [build_signature] raises
    [binascii.Error] before the first POST of a run and nothing catches it:
    no run of [main], whatever the services answer, makes a POST. *)
Theorem main_bad_key_no_post svc fuel past_due cid key e :
  svc.(sv_env) !! "LOG_ANALYTICS_CUSTID" = Some cid ->
  svc.(sv_env) !! "LOG_ANALYTICS_KEY" = Some key ->
  Base64.b64decode key = Raise e ->
  triple (posts_inv (fun _ => False)) (main svc fuel past_due) (fun _ => True).
Proof.
  intros Hc Hk Hd. apply (triple_main_posts _ _ _ cid key); [done | done |].
  intros r v lt _ _ (_ & date & sig & _ & _ & Hs) _. unfold build_signature in Hs.
  by rewrite Hd in Hs.
Qed.

(** C17 (the checkpoint is read from the table the run writes): in every
    run of [main] (also one stopped by an exception), the checkpoint query
    reads first the custom table [<LOG_ANALYTICS_LOGTYPE>_CL], and every
    POST carries the Log-Type header [LOG_ANALYTICS_LOGTYPE], which the
    Data Collector API files under that same table: the start time of the
    next run is taken from the records this run delivers. *)
Theorem main_log_type_consistent svc fuel past_due cid key lt :
  svc.(sv_env) !! "LOG_ANALYTICS_CUSTID" = Some cid ->
  svc.(sv_env) !! "LOG_ANALYTICS_KEY" = Some key ->
  svc.(sv_env) !! "LOG_ANALYTICS_LOGTYPE" = Some lt ->
  triple (trace_inv log_type_obs (log_type_ok lt)) (main svc fuel past_due) (fun _ => True).
Proof.
  intros Hc Hk Hl. unfold main, initOCI, collect_regions, get_config.
  solve_triple_with ltac:(
    cbv beta in *;
    repeat match goal with
    | H : svc.(sv_env) !! "LOG_ANALYTICS_LOGTYPE" = Some ?a |- _ =>
        tryif unify a lt then fail else (rewrite Hl in H; injection H as <-)
    end;
    first [ eapply triple_get_start_time | eapply triple_get_subscription_regions
          | eapply triple_get_compartments | eapply triple_get_audit_events_inv ];
    intros; first [ forall_obs
                  | apply List.Forall_cons;
                      [eexists; unfold checkpoint_query, custom_table; by rewrite <- string_app_assoc
                      | apply List.Forall_nil]
                  | apply List.Forall_cons; [cbn; congruence | apply List.Forall_nil] ]).
Qed.

(** C6 (the window is not empty): when every clock reading is a valid
    datetime, the readings of a run fall on days less than 30 days apart,
    and the destination holds no event time later than the clock, every
    page request of every run of [main] (also of a run stopped by an
    exception) asks for a window whose start time is not later than its end
    time, on the resolved branch of the checkpoint as on the fallback. *)
Theorem main_window_valid svc fuel past_due :
  clock_valid svc -> clock_span svc -> checkpoints_past svc ->
  triple (trace_inv window_obs window_ok) (main svc fuel past_due) (fun _ => True).
Proof.
  intros Hcv Hcs Hcp. unfold main, initOCI, collect_regions, get_config.
  solve_triple_with ltac:(
    first [ eapply triple_get_start_time_window; eauto; intros; forall_obs
          | eapply triple_get_subscription_regions; forall_obs
          | eapply triple_get_compartments; intros; forall_obs
          | intros; cbv beta in *; eapply triple_get_audit_events_inv; intros;
            first [window_side | forall_obs] ]).
Qed.

(** C20 (the window is not checked): when the checkpoint query resolves to
    a time later than every clock reading (the destination holds an event
    time in the future), every page request of every run of [main] (also of
    a run stopped by an exception) asks for a window whose start time is
    after its end time: [initOCI] passes the checkpoint on as [start_time]
    without comparing it with [end_time], so the invariant [start <= end]
    of the spec is not enforced by the code. *)
Theorem main_window_inverted svc fuel past_due re dt :
  env_has svc re ->
  svc.(sv_authenticate) re.(re_client_id) re.(re_secret) re.(re_tenant) = Ret tt ->
  query_outcome svc re.(re_custid) re.(re_log_type) = Ret dt ->
  (forall n, dt_le dt (svc.(sv_clock) n) = false) ->
  triple (trace_inv window_obs window_backwards) (main svc fuel past_due) (fun _ => True).
Proof.
  intros Henv Ha Hq Hf. pose proof Henv as (_ & _ & _ & _ & _ & _ & Hc & _ & Hl & Hi & Hs & Ht).
  unfold main, initOCI, collect_regions, get_config.
  solve_triple_with ltac:(
    first [ cbv beta in *; match goal with
            | H : svc.(sv_env) !! "LOG_ANALYTICS_LOGTYPE" = Some ?lt |- triple _ (get_start_time _ ?lt) _ =>
                rewrite Hl in H; injection H as <-;
                eapply (triple_get_start_time_resolved _ _ _ _ re.(re_custid)); [by split | ..]; eauto;
                intros; forall_obs
            end
          | eapply triple_get_subscription_regions; forall_obs
          | eapply triple_get_compartments; intros; forall_obs
          | intros; cbv beta in *; subst; eapply triple_get_audit_events_inv; intros;
            first [window_back_side | forall_obs] ]).
Qed.

(** C2 (the network calls of a run, in order): under the hypotheses of C1,
    the network calls of [main] are, in this order, the authentication and
    the checkpoint query of [get_start_time], the region listing, the
    requests for the compartment pages, and then, per region in order, per
    compartment in order, the request of one page in that region (with the
    token the previous page returned) followed by the POSTs of its
    serialised events: all pages of a compartment are exhausted before the
    next compartment, all compartments of a region before the shared client
    is switched to the next region, every page request of a region's
    segment is made in that region, and no other call is made. *)
Theorem main_streams svc fuel past_due re subs cpgs pages k :
  env_has svc re ->
  svc.(sv_client_ok) (config_of re) = true ->
  svc.(sv_authenticate) re.(re_client_id) re.(re_secret) re.(re_tenant) = Ret tt ->
  fallback_defined svc ->
  svc.(sv_list_region_subscriptions) re.(re_tenancy) = Ret subs ->
  page_chain (svc.(sv_list_compartments) re.(re_tenancy)) None cpgs -> (length cpgs <= fuel)%nat ->
  posts_answered svc -> Base64.b64decode re.(re_shared_key) = Ret k -> events_wf svc ->
  (forall r s e, r ∈ map rs_region_name subs ->
     chains_within svc fuel r s e (pages r) (scope_of re.(re_tenancy) (flat_map pg_data cpgs))) ->
  observes run_obs (fun _ => True) (main svc fuel past_due) (fun _ => True)
    (map io_of_call (prefix_calls re cpgs) ++
     run_stream pages (map rs_region_name subs) (scope_of re.(re_tenancy) (flat_map pg_data cpgs))).
Proof.
  intros. replace (map io_of_call _ ++ run_stream _ _ _) with
    (flat_map run_obs (map ENet (prefix_calls re cpgs)) ++
     run_observation (fun b => [RPost b]) (fun r c p => [RList r c p]) pages (map rs_region_name subs)
       (scope_of re.(re_tenancy) (flat_map pg_data cpgs))).
  - apply main_observes; [done..|]. eapply initOCI_observes; eauto.
  - f_equal.
    + apply flat_map_run_obs.
    + unfold run_observation, run_stream. apply flat_map_ext. intros r. apply flat_map_ext. intros c.
      apply chain_obs_stream.
Qed.

(** C35 (no ACTIVE compartment still collects the root): under the
    hypotheses of C1, when no compartment the listing answers is ACTIVE
    (in particular when it answers none), [main] still collects the
    tenancy itself in every region: the bodies it POSTs are the serialised
    events of the root compartment, region by region.  The scope is never
    empty, since [get_compartments] appends the tenancy id. *)
Theorem main_no_active_compartments svc fuel past_due re subs cpgs pages k :
  env_has svc re ->
  svc.(sv_client_ok) (config_of re) = true ->
  svc.(sv_authenticate) re.(re_client_id) re.(re_secret) re.(re_tenant) = Ret tt ->
  fallback_defined svc ->
  svc.(sv_list_region_subscriptions) re.(re_tenancy) = Ret subs ->
  page_chain (svc.(sv_list_compartments) re.(re_tenancy)) None cpgs -> (length cpgs <= fuel)%nat ->
  Forall (fun c => is_active c = false) (flat_map pg_data cpgs) ->
  posts_answered svc -> Base64.b64decode re.(re_shared_key) = Ret k -> events_wf svc ->
  (forall r s e, r ∈ map rs_region_name subs -> chains_within svc fuel r s e (pages r) [re.(re_tenancy)]) ->
  yields (fun _ => True) (main svc fuel past_due) (fun _ => True)
    (map dumps (flat_map (fun r => flat_map pg_data (pages r re.(re_tenancy))) (map rs_region_name subs))).
Proof.
  intros Henv Hcl Hauth Hfb Hreg Hcp Hlen Hna Hp Hk Hwf Hch.
  rewrite <- (scope_of_none_active re.(re_tenancy) _ Hna) in Hch.
  replace (flat_map _ _) with (run_deliveries pages (map rs_region_name subs)
                                 (scope_of re.(re_tenancy) (flat_map pg_data cpgs))).
  - rewrite <- run_observation_bodies. eapply main_observes_quiet; eauto using post_body_quiet.
  - rewrite scope_of_none_active by done. unfold run_deliveries. apply flat_map_ext. intros r.
    cbn. by rewrite app_nil_r.
Qed.
