(* ===== verification/RegionScoped.v ===== *)
(** * RegionScoped: the shared audit client against a per-region client

    The code keeps one audit client and calls
    [audit.base_client.set_region(r)] before collecting region [r]
    (src/OCItoLogAnalytics/__init__.py, lines 72-82): [list_events] reads
    the region from the shared client ([Collector.paginate_events],
    [Orchestrator.collect_regions]).  The spec (section 9) recommends an
    immutable client value scoped to one region, or the region passed
    explicitly to every collection call.  This file writes that design down
    as a reference ([list_events_in], [paginate_events_in],
    [get_audit_events_in], [collect_regions_in]: the region is a parameter
    and the client's region is never read nor written) and proves that the
    code's set-then-use loop is equivalent to it: same outcome, same trace,
    same clock reads and POSTs; only the region left in the shared client
    differs.  The proof rests on the frame property [region_free] of World:
    everything the collector does, except [list_events], ignores the
    region. *)

From Stdlib Require Import String ZArith List Lia.
From stdpp Require Import base list strings gmap.
From S2P Require Import Prelude Text DateTime Json JsonLoads World Forwarder Collector Orchestrator.

Section Scoped.
Context (svc : services) (fuel : nat).

(** The listing call of a client scoped to region [r]. *)
Definition list_events_in (r c : string) (s e : datetime) (p : option string) : PyM (page json) :=
  net (CListEvents r c s e p) (svc.(sv_list_events) r c s e p).

(** [paginate_events] with the region-scoped client. *)
Fixpoint paginate_events_in (r : string) (n : nat) (c : string) (s e : datetime)
    (p : option string) (handle : page json -> PyM unit) : PyM unit :=
  match n with
  | O => raise FuelExhausted
  | S n' =>
      resp <- list_events_in r c s e p ;;
      handle resp ;;
      match pg_next_page resp with
      | Some tok => paginate_events_in r n' c s e (Some tok) handle
      | None => ret tt
      end
  end.

(** [get_audit_events] with the region passed explicitly. *)
Definition get_audit_events_in (r customer_id shared_key : string) (compartment_ocids : list string)
    (start_time end_time : datetime) : PyM unit :=
  log_type <- environ svc "LOG_ANALYTICS_LOGTYPE" ;;
  for_each (fun c =>
    paginate_events_in r fuel c start_time end_time None
      (fun pg => for_each (process_event svc customer_id shared_key log_type) (pg_data pg)))
    compartment_ocids.

(** The region loop with no shared client: each region's collection is
    given its region. *)
Definition collect_regions_in (customer_id shared_key : string) (regions compartments : list string)
    (start_time end_time : datetime) : PyM unit :=
  for_each (fun r => get_audit_events_in r customer_id shared_key compartments start_time end_time) regions.

End Scoped.

(** Two worlds that agree on everything but the audit client's region. *)
Definition forget_region (w : world) : world := with_region "" w.

(** ** The frame lemmas *)

Lemma process_event_region_free svc cid key lt ev : region_free (process_event svc cid key lt ev).
Proof. unfold process_event. solve_region_free. Qed.

#[local] Hint Resolve process_event_region_free : region_free.

Lemma paginate_events_in_region_free svc r n c s e p handle :
  (forall pg, region_free (handle pg)) -> region_free (paginate_events_in svc r n c s e p handle).
Proof.
  intros Hh. revert p. induction n as [|n IH]; intros p; cbn [paginate_events_in]; solve_region_free.
Qed.

#[local] Hint Resolve paginate_events_in_region_free : region_free.

Lemma get_audit_events_in_region_free svc fuel r cid key comps s e :
  region_free (get_audit_events_in svc fuel r cid key comps s e).
Proof. unfold get_audit_events_in. solve_region_free. Qed.

Lemma collect_regions_in_region_free svc fuel cid key regions comps s e :
  region_free (collect_regions_in svc fuel cid key regions comps s e).
Proof. unfold collect_regions_in. solve_region_free. Qed.

(** From a world whose client is set to [r], the shared client's
    pagination is the region-scoped one, when the loop body keeps the
    region. *)
Lemma paginate_events_scoped svc r n c s e p handle w :
  (forall pg, region_free (handle pg)) -> w.(w_region) = r ->
  paginate_events svc n c s e p handle w = paginate_events_in svc r n c s e p handle w.
Proof.
  intros Hh. revert p w. induction n as [|n IH]; intros p w Hw; [done|].
  cbn [paginate_events paginate_events_in]. unfold bind at 1 3, list_events, list_events_in. rewrite Hw.
  pose proof (region_free_keeps _ w (region_free_net (CListEvents r c s e p) (sv_list_events svc r c s e p))) as H1.
  destruct (net _ _ w) as [[resp|ex] w1]; [|done]. cbn in H1.
  unfold bind. pose proof (region_free_keeps (handle resp) w1 (Hh resp)) as H2.
  destruct (handle resp w1) as [[[]|ex] w2]; [|done]. cbn in H2.
  destruct (pg_next_page resp); [apply IH; congruence | done].
Qed.

(** From a world whose client is set to [r], [get_audit_events] is the
    collection with the region passed explicitly. *)
Lemma get_audit_events_scoped svc fuel r cid key comps s e w :
  w.(w_region) = r ->
  get_audit_events svc fuel cid key comps s e w = get_audit_events_in svc fuel r cid key comps s e w.
Proof.
  intros Hw. unfold get_audit_events, get_audit_events_in, environ.
  destruct (_ !! _) as [lt|]; cbn [bind ret raise]; [|done]. revert w Hw.
  induction comps as [|c comps IH]; intros w Hw; [done|]. cbn [for_each]. unfold bind.
  rewrite (paginate_events_scoped svc r) by (done || (intros; solve_region_free)).
  pose proof (region_free_keeps _ w (paginate_events_in_region_free svc r fuel c s e None
    (fun pg => for_each (process_event svc cid key lt) (pg_data pg)) ltac:(intros; solve_region_free))) as H1.
  destruct (paginate_events_in _ _ _ _ _ _ _ _ w) as [[[]|ex] w1]; [|done]. cbn in H1.
  apply IH. congruence.
Qed.

(** Setting the shared client's region, then collecting, is the
    collection with the region passed explicitly, from the same world. *)
Lemma set_region_get_audit_events svc fuel r cid key comps s e w :
  (set_region r ;; get_audit_events svc fuel cid key comps s e) w =
  ((get_audit_events_in svc fuel r cid key comps s e w).1,
   with_region r (get_audit_events_in svc fuel r cid key comps s e w).2).
Proof.
  change ((set_region r ;; ?m) w) with (m (with_region r w)).
  rewrite (get_audit_events_scoped svc fuel r) by done. apply get_audit_events_in_region_free.
Qed.

Lemma bind_step {A B} (m : PyM A) (k : A -> PyM B) w :
  bind m k w = match m w with (Ret a, w') => k a w' | (Raise e, w') => (Raise e, w') end.
Proof. reflexivity. Qed.

(** ** The shared client is equivalent to a client per region *)

(** C34 (the set-then-use idiom is the per-region client of the spec):
    from any world, the region loop of [initOCI], which sets the shared
    audit client's region and then collects, gives the same outcome
    (normal end or the same exception) and the same world (trace, clock
    reads, POSTs) as the collection with an explicit region per call that
    the spec's design notes recommend; only the region left in the shared
    client differs, and the explicit version leaves it untouched. *)
Theorem collect_regions_shared_client svc fuel cid key regions comps s e w :
  (collect_regions svc fuel cid key regions comps s e w).1 =
    (collect_regions_in svc fuel cid key regions comps s e w).1 /\
  forget_region (collect_regions svc fuel cid key regions comps s e w).2 =
    forget_region (collect_regions_in svc fuel cid key regions comps s e w).2 /\
  (collect_regions_in svc fuel cid key regions comps s e w).2.(w_region) = w.(w_region).
Proof.
  split; [|split; [|apply region_free_keeps, collect_regions_in_region_free]].
  all: unfold collect_regions, collect_regions_in; revert w.
  all: induction regions as [|r rs IH]; intros w; [done|]; cbn [for_each].
  all: rewrite (bind_step (bind (set_region r) _)), set_region_get_audit_events,
         (bind_step (get_audit_events_in _ _ _ _ _ _ _ _)).
  all: destruct (get_audit_events_in svc fuel r cid key comps s e w) as [[[]|ex] w1]; cbn [fst snd]; [|done].
  all: rewrite IH; pose proof (collect_regions_in_region_free svc fuel cid key rs comps s e r w1) as F;
       unfold collect_regions_in in F; by rewrite F.
Qed.
